(** * AI_Doc_Engine: text normalisation and financial-record validation

    A shallow embedding of [utils.py] (text cleaning and chunking) and
    [validators.py] (coercion, schema validation, accounting identities,
    completeness summary, batch uniqueness), followed by the properties
    established about them.

    Conventions.
    - A Python [str] is a [list ascii]; a character is a code point below
      256.  On that range the regular-expression class [\s] and
      [str.strip]/[str.isspace] agree and are given by [is_space]; the
      class [\d] is the ten ASCII digits.
    - A Python [int] is a [Z]; a Python [float] is an IEEE-754 binary64
      value, represented by [spec_float] with [prec = 53], [emax = 1024].
    - A Python [dict] whose iteration order is observable is an association
      list in insertion order.
    - An exception that leaves a function is an explicit constructor of the
      function's result type. *)

From Stdlib Require Import ZArith List String Ascii Bool Lia Arith.
From Stdlib Require Import Floats.SpecFloat.
From Stdlib Require Import DecimalString.
Import ListNotations.

Open Scope Z_scope.

(** ** Python text primitives *)

Definition str := list ascii.

Definition lit (s : string) : str := list_ascii_of_string s.

Definition code (c : ascii) : N := N_of_ascii c.

(** Whitespace below code point 256: TAB..CR, FS..US, SPACE, NEL, NBSP. *)
Definition is_space (c : ascii) : bool :=
  let n := code c in
  ((9 <=? n) && (n <=? 13) || (28 <=? n) && (n <=? 32)
   || (n =? 133) || (n =? 160))%N.

Definition is_digit (c : ascii) : bool :=
  let n := code c in ((48 <=? n) && (n <=? 57))%N.

Definition chr (n : N) : ascii := ascii_of_N n.

Definition SP : ascii := chr 32.
Definition LF : ascii := chr 10.

(** [str.lstrip], [str.rstrip], [str.strip] without argument. *)
Fixpoint lstrip (s : str) : str :=
  match s with
  | c :: s' => if is_space c then lstrip s' else s
  | [] => []
  end.

Definition rstrip (s : str) : str := rev (lstrip (rev s)).

Definition strip (s : str) : str := rstrip (lstrip s).

(** [str.lower] on code points below 256: A-Z and the Latin-1 capitals
    (0xC0-0xDE except the multiplication sign 0xD7) move up by 32. *)
Definition lower_char (c : ascii) : ascii :=
  let n := code c in
  if ((65 <=? n) && (n <=? 90)
      || (192 <=? n) && (n <=? 222) && negb (n =? 215))%N
  then chr (n + 32) else c.

Definition lower (s : str) : str := map lower_char s.

Definition ascii_eqb (a b : ascii) : bool := Ascii.eqb a b.

Fixpoint str_eqb (a b : str) : bool :=
  match a, b with
  | [], [] => true
  | x :: a', y :: b' => ascii_eqb x y && str_eqb a' b'
  | _, _ => false
  end.

(** [p] is a prefix of [s]: [s.startswith(p)]. *)
Fixpoint starts_with (p s : str) : bool :=
  match p, s with
  | [], _ => true
  | x :: p', y :: s' => ascii_eqb x y && starts_with p' s'
  | _ :: _, [] => false
  end.

(** [c in s] for a one-character [c]. *)
Definition contains_char (c : ascii) (s : str) : bool :=
  existsb (ascii_eqb c) s.

(** [sep.join(parts)]. *)
Fixpoint join (sep : str) (parts : list str) : str :=
  match parts with
  | [] => []
  | [p] => p
  | p :: rest => p ++ sep ++ join sep rest
  end.

Definition len (s : str) : Z := Z.of_nat (List.length s).

(** ** Python numbers *)

Definition float := spec_float.
Definition prec : Z := 53.
Definition emax : Z := 1024.

(** Correctly rounded (nearest, ties to even) quotient of two positive
    integers, as used by [int / int], by [float(str)] for a decimal with a
    negative exponent and by float literals. *)
Definition round_ratio (s : bool) (a b : positive) : float :=
  let '(q, e, l) := SFdiv_core_binary prec emax (Zpos a) 0 (Zpos b) 0 in
  binary_round_aux prec emax s q e l.

(** Exceptions that the modelled functions can raise, and the result of a
    computation that returns or raises. *)
Inductive exception :=
| ValueError (msg : str)
| OverflowError
| ZeroDivisionError.

Inductive exc (A : Type) :=
| Ok (a : A)
| Raise (e : exception).

Arguments Ok {A} a.
Arguments Raise {A} e.

Definition bind_exc {A B} (x : exc A) (f : A -> exc B) : exc B :=
  match x with
  | Ok a => f a
  | Raise e => Raise e
  end.

Notation "x <- a ;; b" := (bind_exc a (fun x => b))
  (at level 61, a at next level, right associativity).

(** [float(z)] for an [int]; an [int] beyond the double range raises. *)
Definition float_of_int (z : Z) : exc float :=
  match binary_normalize prec emax z 0 false with
  | S754_infinity _ => Raise OverflowError
  | f => Ok f
  end.

(** The literals [0.01], [0.05] and [1.5]. *)
Definition f_0_01 : float := round_ratio false 1 100.
Definition f_0_05 : float := round_ratio false 5 100.
Definition f_1_5 : float := round_ratio false 3 2.

(** [z * f] for an [int] and a [float]. *)
Definition int_mul_float (z : Z) (f : float) : exc float :=
  x <- float_of_int z ;; Ok (SFmul prec emax x f).

(** [f * z] for a [float] and an [int]. *)
Definition float_mul_int (f : float) (z : Z) : exc float :=
  x <- float_of_int z ;; Ok (SFmul prec emax f x).

(** [a / b] for two [int]s: true division.  The result is the double
    nearest to the exact quotient. *)
Definition int_true_div (a b : Z) : exc float :=
  match b with
  | Z0 => Raise ZeroDivisionError
  | _ =>
    match a with
    | Z0 => Ok (S754_zero (Z.ltb b 0))
    | _ =>
      match round_ratio (xorb (Z.ltb a 0) (Z.ltb b 0))
                        (Z.to_pos (Z.abs a)) (Z.to_pos (Z.abs b)) with
      | S754_infinity _ => Raise OverflowError
      | f => Ok f
      end
    end
  end.

(** Exact comparison of an [int] with a [float]; [None] when the float is
    a NaN, for which every ordering test is false. *)
Definition cmp_int_float (z : Z) (f : float) : option comparison :=
  match f with
  | S754_nan => None
  | S754_infinity s => Some (if s then Gt else Lt)
  | S754_zero _ => Some (z ?= 0)
  | S754_finite s m e =>
    let v := if s then Zneg m else Zpos m in
    Some (match e with
          | Zneg p => (z * 2 ^ Zpos p) ?= v
          | _ => z ?= v * 2 ^ e
          end)
  end.

(** A value that is an [int] or a [float], as produced by [max(1000, x)]. *)
Inductive num :=
| NInt (z : Z)
| NFloat (f : float).

(** [z > n] for an [int] [z]. *)
Definition int_gt (z : Z) (n : num) : bool :=
  match n with
  | NInt y => y <? z
  | NFloat f => match cmp_int_float z f with Some Gt => true | _ => false end
  end.

(** [f > z] for a [float] [f] and an [int] [z]. *)
Definition float_gt_int (f : float) (z : Z) : bool :=
  match cmp_int_float z f with Some Lt => true | _ => false end.

(** [max(1000, x)]: the builtin keeps its first argument unless a later
    one is strictly greater. *)
Definition max_1000 (x : float) : num :=
  if float_gt_int x 1000 then NFloat x else NInt 1000.

(** [format(z, ',')]: decimal digits in groups of three. *)
Fixpoint group_rev (ds : list ascii) (k : nat) : list ascii :=
  match ds with
  | [] => []
  | d :: ds' =>
    match k with
    | 3%nat => chr 44 :: d :: group_rev ds' 1
    | _ => d :: group_rev ds' (S k)
    end
  end.

Definition digits_of (n : N) : str :=
  list_ascii_of_string (NilZero.string_of_uint (N.to_uint n)).

Definition fmt_commas (z : Z) : str :=
  let body := rev (group_rev (rev (digits_of (Z.abs_N z))) 0) in
  if z <? 0 then chr 45 :: body else body.

(** ** Regular-expression substitution

    [re.sub(pattern, repl, text)] scans [text] from left to right; where
    the pattern matches it emits the replacement and resumes after the
    match, elsewhere it copies one character.  A pattern is given by its
    [matcher]: on the text that starts at the current position it returns
    the length of the match and the replacement.  No pattern used below can
    match the empty string or looks behind the current position. *)

Definition matcher := str -> option (nat * str).

Fixpoint re_sub_from (m : matcher) (skip : nat) (t : str) : str :=
  match t with
  | [] => []
  | c :: t' =>
    match skip with
    | S k => re_sub_from m k t'
    | O =>
      match m t with
      | Some (n, r) => r ++ re_sub_from m (pred n) t'
      | None => c :: re_sub_from m 0 t'
      end
    end
  end.

Definition re_sub (m : matcher) (t : str) : str := re_sub_from m 0 t.

Fixpoint take_while (p : ascii -> bool) (t : str) : str :=
  match t with
  | c :: t' => if p c then c :: take_while p t' else []
  | [] => []
  end.

Fixpoint drop_while (p : ascii -> bool) (t : str) : str :=
  match t with
  | c :: t' => if p c then drop_while p t' else t
  | [] => []
  end.

(** A literal: the rest of the text after it. *)
Definition match_lit (p : str) (t : str) : option str :=
  if starts_with p t then Some (skipn (List.length p) t) else None.

(** [\d+], greedy: the rest of the text after the digits. *)
Definition match_digits1 (t : str) : option str :=
  match t with
  | c :: _ => if is_digit c then Some (drop_while is_digit t) else None
  | [] => None
  end.

Definition consumed (t rest : str) : nat := (List.length t - List.length rest)%nat.

Definition bind_opt {A B} (o : option A) (f : A -> option B) : option B :=
  match o with
  | Some a => f a
  | None => None
  end.

Notation "x <-? a ;; b" := (bind_opt a (fun x => b))
  (at level 61, a at next level, right associativity).

(** [\s+] replaced by one space. *)
Definition m_ws : matcher := fun t =>
  match t with
  | c :: _ =>
    if is_space c then Some (List.length (take_while is_space t), [SP]) else None
  | [] => None
  end.

(** [--- Page \d+ ---] replaced by nothing.  The character after the
    digits must be a space, so the greedy [\d+] never gives digits back. *)
Definition m_page : matcher := fun t =>
  t1 <-? match_lit (lit "--- Page ") t ;;
  t2 <-? match_digits1 t1 ;;
  t3 <-? match_lit (lit " ---") t2 ;;
  Some (consumed t t3, []).

(** [--- Table \d+ \(Page \d+\) ---] replaced by [\nTABLE:\n]. *)
Definition m_table : matcher := fun t =>
  t1 <-? match_lit (lit "--- Table ") t ;;
  t2 <-? match_digits1 t1 ;;
  t3 <-? match_lit (lit " (Page ") t2 ;;
  t4 <-? match_digits1 t3 ;;
  t5 <-? match_lit (lit ") ---") t4 ;;
  Some (consumed t t5, LF :: lit "TABLE:" ++ [LF]).

(** [\$\s*] replaced by [$]. *)
Definition m_dollar : matcher := fun t =>
  t1 <-? match_lit (lit "$") t ;;
  Some (consumed t (drop_while is_space t1), lit "$").

(** [(\d),(\d)] replaced by the two digits. *)
Definition m_comma : matcher := fun t =>
  match t with
  | d1 :: c :: d2 :: _ =>
    if is_digit d1 && ascii_eqb c (chr 44) && is_digit d2
    then Some (3%nat, [d1; d2]) else None
  | _ => None
  end.

Definition is_lf (c : ascii) : bool := ascii_eqb c LF.

(** [\n\s*\n\s*\n+] replaced by [\n\n].  A match starts at a line feed and
    stays inside the run of whitespace that begins there; it exists when
    the run holds at least three line feeds, and the greedy quantifiers
    then make it end at the last line feed of the run. *)
Definition m_blank : matcher := fun t =>
  match t with
  | c :: _ =>
    if is_lf c then
      let run := take_while is_space t in
      if (3 <=? List.length (filter is_lf run))%nat
      then Some (List.length (rev (drop_while (fun x => negb (is_lf x)) (rev run))),
                 [LF; LF])
      else None
    else None
  | [] => None
  end.

(** ** utils.py *)

(** [clean_text(text)]. *)
Definition clean_text (text : str) : str :=
  match text with
  | [] => []
  | _ =>
    let text := re_sub m_ws text in
    let text := re_sub m_page text in
    let text := re_sub m_table text in
    let text := re_sub m_dollar text in
    let text := re_sub m_comma text in
    let text := re_sub m_blank text in
    strip text
  end.

(** [text.split(sep)] for a non-empty separator: the pieces between the
    non-overlapping occurrences of [sep], found from left to right. *)
Fixpoint split_from (sep : str) (skip : nat) (cur : str) (t : str) : list str :=
  match t with
  | [] => [rev cur]
  | c :: t' =>
    match skip with
    | S k => split_from sep k cur t'
    | O =>
      if starts_with sep t
      then rev cur :: split_from sep (pred (List.length sep)) [] t'
      else split_from sep 0 (c :: cur) t'
    end
  end.

Definition split (sep : str) (t : str) : list str := split_from sep 0 [] t.

Definition nonempty (s : str) : bool :=
  match s with [] => false | _ => true end.

(** The state of the two loops of [chunk_text_for_llm]: the list [chunks]
    and the accumulator [current_chunk]. *)
Definition chunk_state := (list str * str)%type.

(** [if len(current_chunk) + len(piece) > max_chunk_size and current_chunk:]
    emit the accumulator and reset it. *)
Definition flush_if_full (max_chunk_size : Z) (piece : str) (st : chunk_state)
  : chunk_state :=
  let '(chunks, current_chunk) := st in
  if (len current_chunk + len piece >? max_chunk_size) && nonempty current_chunk
  then (chunks ++ [strip current_chunk], [])
  else st.

Definition sentence_step (max_chunk_size : Z) (st : chunk_state) (sentence : str)
  : chunk_state :=
  let '(chunks, current_chunk) := flush_if_full max_chunk_size sentence st in
  (chunks, current_chunk ++ sentence ++ lit ". ").

Definition paragraph_step (max_chunk_size : Z) (st : chunk_state) (paragraph : str)
  : chunk_state :=
  let '(chunks, current_chunk) := flush_if_full max_chunk_size paragraph st in
  if len paragraph >? max_chunk_size
  then fold_left (sentence_step max_chunk_size) (split (lit ". ") paragraph)
                 (chunks, current_chunk)
  else (chunks, current_chunk ++ paragraph ++ [LF; LF]).

(** [chunk_text_for_llm(text, max_chunk_size)]. *)
Definition chunk_text_for_llm (text : str) (max_chunk_size : Z) : list str :=
  if len text <=? max_chunk_size then [text]
  else
    let '(chunks, current_chunk) :=
      fold_left (paragraph_step max_chunk_size) (split [LF; LF] text) ([], []) in
    if nonempty (strip current_chunk)
    then chunks ++ [strip current_chunk]
    else chunks.

(** ** validators.py: data *)

(** A value of the raw field map: [None], a [str], an [int] or a [float]. *)
Inductive Any :=
| VNone
| VStr (s : str)
| VInt (z : Z)
| VFloat (f : float).

(** A [Dict[str, Any]] in insertion order. *)
Definition dict := list (string * Any).

Fixpoint get (k : string) (d : dict) : option Any :=
  match d with
  | [] => None
  | (k', v) :: d' => if String.eqb k k' then Some v else get k d'
  end.

(** [d[k] = v]: overwrite in place or append. *)
Fixpoint set_item (k : string) (v : Any) (d : dict) : dict :=
  match d with
  | [] => [(k, v)]
  | (k', v') :: d' =>
    if String.eqb k k' then (k, v) :: d' else (k', v') :: set_item k v d'
  end.

Definition keys (d : dict) : list string := map fst d.

Definition mem (k : string) (ks : list string) : bool :=
  existsb (String.eqb k) ks.

Record FinancialData := {
  company_name : str;
  year : str;
  revenue : option Z;
  cogs : option Z;
  gross_profit : option Z;
  operating_expenses : option Z;
  operating_income : option Z;
  net_income : option Z;
  total_assets : option Z;
  total_liabilities : option Z;
  equity : option Z;
  gross_margin : option float;
  operating_margin : option float;
  net_margin : option float
}.

Record SaaSFinancialData := {
  saas_base : FinancialData;
  recurring_revenue : option Z;
  annual_recurring_revenue : option Z;
  monthly_recurring_revenue : option Z;
  customer_acquisition_cost : option Z;
  customer_lifetime_value : option Z;
  churn_rate : option float
}.

Record RetailFinancialData := {
  retail_base : FinancialData;
  same_store_sales : option Z;
  comparable_store_sales : option Z;
  inventory : option Z;
  store_count : option Z;
  sales_per_square_foot : option float;
  inventory_turnover : option float
}.

Definition base_fields : list string :=
  ["company_name"; "year"; "revenue"; "cogs"; "gross_profit";
   "operating_expenses"; "operating_income"; "net_income"; "total_assets";
   "total_liabilities"; "equity"; "gross_margin"; "operating_margin";
   "net_margin"]%string.

Definition saas_fields : list string :=
  base_fields ++
  ["recurring_revenue"; "annual_recurring_revenue";
   "monthly_recurring_revenue"; "customer_acquisition_cost";
   "customer_lifetime_value"; "churn_rate"]%string.

Definition retail_fields : list string :=
  base_fields ++
  ["same_store_sales"; "comparable_store_sales"; "inventory"; "store_count";
   "sales_per_square_foot"; "inventory_turnover"]%string.

(** ** validators.py: cross-field rules *)

(** [max(1000, abs(expected) * 0.01)]. *)
Definition tolerance (expected : Z) : exc num :=
  t <- int_mul_float (Z.abs expected) f_0_01 ;; Ok (max_1000 t).

Definition paren (z : Z) : str := lit "(" ++ fmt_commas z ++ lit ")".

Definition identity_msg (what : string) (actual : Z) (rule : string)
           (a b expected : Z) : str :=
  lit what ++ lit " (" ++ fmt_commas actual ++ lit ") doesn't match " ++ lit rule
  ++ lit " (" ++ fmt_commas a ++ lit " - " ++ fmt_commas b ++ lit " = "
  ++ fmt_commas expected ++ lit ")".

Definition gross_profit_msg (gp rev cg : Z) : str :=
  identity_msg "Gross profit" gp "Revenue - COGS" rev cg (rev - cg).

Definition operating_income_msg (oi gp oe : Z) : str :=
  identity_msg "Operating income" oi "Gross Profit - Operating Expenses"
               gp oe (gp - oe).

Definition equity_msg (eq ta tl : Z) : str :=
  identity_msg "Equity" eq "Assets - Liabilities" ta tl (ta - tl).

Definition gross_exceeds_msg (gp rev : Z) : str :=
  lit "Gross profit " ++ paren gp ++ lit " cannot exceed revenue " ++ paren rev.

Definition operating_exceeds_msg (oi gp : Z) : str :=
  lit "Operating income " ++ paren oi ++ lit " cannot exceed gross profit "
  ++ paren gp.

Definition net_income_msg (ni oi : Z) : str :=
  lit "Net income " ++ paren ni
  ++ lit " is unusually high compared to operating income " ++ paren oi
  ++ lit ". Please verify non-operating income.".

(** One accounting identity: [actual] against [a - b]. *)
Definition identity_check (actual a b : Z) (msg : str) : exc (list str) :=
  let expected := a - b in
  tol <- tolerance expected ;;
  Ok (if int_gt (Z.abs (actual - expected)) tol then [msg] else []).

Definition gross_profit_check (self : FinancialData) : exc (list str) :=
  match revenue self, cogs self, gross_profit self with
  | Some rev, Some cg, Some gp =>
    identity_check gp rev cg (gross_profit_msg gp rev cg)
  | _, _, _ => Ok []
  end.

Definition operating_income_check (self : FinancialData) : exc (list str) :=
  match gross_profit self, operating_expenses self, operating_income self with
  | Some gp, Some oe, Some oi =>
    identity_check oi gp oe (operating_income_msg oi gp oe)
  | _, _, _ => Ok []
  end.

Definition equity_check (self : FinancialData) : exc (list str) :=
  match total_assets self, total_liabilities self, equity self with
  | Some ta, Some tl, Some eq =>
    identity_check eq ta tl (equity_msg eq ta tl)
  | _, _, _ => Ok []
  end.

Definition gross_order_check (self : FinancialData) : list str :=
  match revenue self, gross_profit self with
  | Some rev, Some gp => if gp >? rev then [gross_exceeds_msg gp rev] else []
  | _, _ => []
  end.

Definition operating_order_check (self : FinancialData) : list str :=
  match gross_profit self, operating_income self with
  | Some gp, Some oi => if oi >? gp then [operating_exceeds_msg oi gp] else []
  | _, _ => []
  end.

(** [net_income > operating_income * 1.5 and operating_income > 0]: the
    product is computed before either comparison. *)
Definition net_income_check (self : FinancialData) : exc (list str) :=
  match operating_income self, net_income self with
  | Some oi, Some ni =>
    bound <- int_mul_float oi f_1_5 ;;
    Ok (if int_gt ni (NFloat bound) && (oi >? 0)
        then [net_income_msg ni oi] else [])
  | _, _ => Ok []
  end.

(** The list [errors] built by [validate_financial_logic]. *)
Definition logic_errors (self : FinancialData) : exc (list str) :=
  e1 <- gross_profit_check self ;;
  e2 <- operating_income_check self ;;
  e3 <- equity_check self ;;
  let e4 := gross_order_check self in
  let e5 := operating_order_check self in
  e6 <- net_income_check self ;;
  Ok (e1 ++ e2 ++ e3 ++ e4 ++ e5 ++ e6).

Definition logic_failure_msg (errors : list str) : str :=
  lit "Financial logic validation failed: " ++ join (lit "; ") errors.

(** [FinancialData.validate_financial_logic]. *)
Definition validate_financial_logic (self : FinancialData) : exc FinancialData :=
  errors <- logic_errors self ;;
  match errors with
  | [] => Ok self
  | _ => Raise (ValueError (logic_failure_msg errors))
  end.

Definition arr_msg (arr mrr : Z) : str :=
  lit "ARR " ++ paren arr ++ lit " doesn't match MRR * 12 (" ++ fmt_commas mrr
  ++ lit " * 12 = " ++ fmt_commas (mrr * 12) ++ lit ")".

(** [SaaSFinancialData.validate_saas_metrics]. *)
Definition validate_saas_metrics (self : SaaSFinancialData)
  : exc SaaSFinancialData :=
  _ <- validate_financial_logic (saas_base self) ;;
  match annual_recurring_revenue self, monthly_recurring_revenue self with
  | Some arr, Some mrr =>
    let expected_arr := mrr * 12 in
    t <- int_mul_float expected_arr f_0_05 ;;
    if int_gt (Z.abs (arr - expected_arr)) (max_1000 t)
    then Raise (ValueError (arr_msg arr mrr))
    else Ok self
  | _, _ => Ok self
  end.

(** [FinancialData.calculate_margins]: a dict with up to three entries. *)
Definition margin_entry (name : string) (numerator : option Z) (rev : Z)
  : exc (list (string * float)) :=
  match numerator with
  | Some n =>
    q <- int_true_div n rev ;;
    m <- float_mul_int q 100 ;;
    Ok [(name, m)]
  | None => Ok []
  end.

Definition calculate_margins (self : FinancialData)
  : exc (list (string * float)) :=
  match revenue self with
  | Some rev =>
    if negb (rev =? 0) && (rev >? 0) then
      g <- margin_entry "gross_margin" (gross_profit self) rev ;;
      o <- margin_entry "operating_margin" (operating_income self) rev ;;
      n <- margin_entry "net_margin" (net_income self) rev ;;
      Ok (g ++ o ++ n)
    else Ok []
  | None => Ok []
  end.

Record validation_summary := {
  completeness_score : float;
  completed_fields : Z;
  total_fields : Z;
  has_income_statement : bool;
  has_balance_sheet : bool;
  margins : list (string * float)
}.

Definition is_not_none {A} (o : option A) : bool :=
  match o with Some _ => true | None => false end.

(** What a field adds to a count of the fields that are present. *)
Definition present {A} (o : option A) : Z :=
  match o with Some _ => 1 | None => 0 end.

(** The fields counted by [get_validation_summary], already tested for
    [is not None]. *)
Definition counted_fields (self : FinancialData) : list bool :=
  [is_not_none (revenue self); is_not_none (cogs self);
   is_not_none (gross_profit self); is_not_none (operating_expenses self);
   is_not_none (operating_income self); is_not_none (net_income self);
   is_not_none (total_assets self); is_not_none (total_liabilities self);
   is_not_none (equity self)].

(** [FinancialData.get_validation_summary]. *)
Definition get_validation_summary (self : FinancialData) : exc validation_summary :=
  let total_fields := 12 in
  let completed_fields :=
    Z.of_nat (List.length (filter (fun b => b) (counted_fields self))) in
  score <- int_true_div completed_fields total_fields ;;
  m <- calculate_margins self ;;
  Ok {| completeness_score := score;
        completed_fields := completed_fields;
        total_fields := total_fields;
        has_income_statement :=
          forallb (fun b => b)
                  [is_not_none (revenue self); is_not_none (net_income self)];
        has_balance_sheet :=
          forallb (fun b => b)
                  [is_not_none (total_assets self);
                   is_not_none (total_liabilities self);
                   is_not_none (equity self)];
        margins := m |}.

(** [FinancialDataBatch.validate_unique_company_years]: [seen] is the set
    of keys met so far. *)
Definition record_key (record : FinancialData) : str * str :=
  (lower (company_name record), year record).

Definition key_eqb (a b : str * str) : bool :=
  str_eqb (fst a) (fst b) && str_eqb (snd a) (snd b).

Definition duplicate_msg (record : FinancialData) : str :=
  lit "Duplicate record found for " ++ company_name record ++ lit " - "
  ++ year record.

Fixpoint unique_from (seen : list (str * str)) (v : list FinancialData)
  : exc unit :=
  match v with
  | [] => Ok tt
  | record :: rest =>
    let key := record_key record in
    if existsb (key_eqb key) seen
    then Raise (ValueError (duplicate_msg record))
    else unique_from (key :: seen) rest
  end.

Definition validate_unique_company_years (v : list FinancialData)
  : exc (list FinancialData) :=
  _ <- unique_from [] v ;; Ok v.

(** ** validators.py: coercion of raw values *)

(** [float(s)] for a [str].  The interpreter turns every non-ASCII
    whitespace character into a space, accepts an underscore only between
    two digits, trims the six ASCII whitespace characters, and then reads
    an optionally signed decimal number (digits, optional point, optional
    exponent), [inf], [infinity] or [nan]; the whole text must be consumed.
    [None] stands for [ValueError]. *)
Definition is_float_space (c : ascii) : bool :=
  let n := code c in
  ((9 <=? n) && (n <=? 13) || (n =? 32) || (n =? 133) || (n =? 160))%N.

Definition is_underscore (c : ascii) : bool := ascii_eqb c (chr 95).

Fixpoint drop_underscores (prev : option ascii) (t : str) : option str :=
  match t with
  | [] =>
    match prev with
    | Some p => if is_underscore p then None else Some []
    | None => Some []
    end
  | c :: t' =>
    if is_underscore c then
      match prev with
      | Some p => if is_digit p then drop_underscores (Some c) t' else None
      | None => None
      end
    else
      let bad :=
        match prev with
        | Some p => is_underscore p && negb (is_digit c)
        | None => false
        end in
      if bad then None
      else match drop_underscores (Some c) t' with
           | Some r => Some (c :: r)
           | None => None
           end
  end.

Definition digit_val (c : ascii) : Z := Z.of_N (code c) - 48.

(** The number written by a run of decimal digits, most significant first. *)
Definition int_of_digits (ds : str) : Z :=
  fold_left (fun acc c => acc * 10 + digit_val c) ds 0.

(** An optional sign: [true] for minus, and the rest of the text. *)
Definition read_sign (t : str) : bool * str :=
  match t with
  | c :: t' =>
    if ascii_eqb c (chr 45) then (true, t')
    else if ascii_eqb c (chr 43) then (false, t')
    else (false, t)
  | [] => (false, t)
  end.

Definition is_e (c : ascii) : bool :=
  ascii_eqb c (chr 101) || ascii_eqb c (chr 69).

(** The exponent part: [e] or [E], an optional sign and at least one
    digit.  When the digits are missing the letter is not part of the
    number and the text is left where it was. *)
Definition read_exponent (t : str) : Z * str :=
  match t with
  | c :: t' =>
    if is_e c then
      let '(neg, t'') := read_sign t' in
      match take_while is_digit t'' with
      | [] => (0, t)
      | ds => ((if neg then - int_of_digits ds else int_of_digits ds),
               drop_while is_digit t'')
      end
    else (0, t)
  | [] => (0, t)
  end.

(** The double nearest to [(-1)^neg * m * 10^e10]. *)
Definition decimal_to_float (neg : bool) (m e10 : Z) : float :=
  match m with
  | Zpos p =>
    match e10 with
    | Zneg q => round_ratio neg p (Pos.pow 10 q)
    | _ => binary_normalize prec emax ((if neg then - m else m) * 10 ^ e10) 0 false
    end
  | _ => S754_zero neg
  end.

Definition read_decimal (neg : bool) (t : str) : option float :=
  let ip := take_while is_digit t in
  let t1 := drop_while is_digit t in
  let '(fp, t2) :=
    match t1 with
    | c :: t1' =>
      if ascii_eqb c (chr 46)
      then (take_while is_digit t1', drop_while is_digit t1')
      else ([], t1)
    | [] => ([], t1)
    end in
  match ip ++ fp with
  | [] => None
  | ds =>
    let '(ex, t3) := read_exponent t2 in
    match t3 with
    | [] => Some (decimal_to_float neg (int_of_digits ds)
                                   (ex - Z.of_nat (List.length fp)))
    | _ => None
    end
  end.

Definition read_inf_or_nan (neg : bool) (t : str) : option float :=
  let w := lower t in
  if str_eqb w (lit "inf") || str_eqb w (lit "infinity")
  then Some (S754_infinity neg)
  else if str_eqb w (lit "nan") then Some S754_nan
  else None.

Definition lstrip_float (t : str) : str := drop_while is_float_space t.

Definition py_float (s : str) : option float :=
  match drop_underscores None s with
  | None => None
  | Some t =>
    let t := rev (lstrip_float (rev (lstrip_float t))) in
    let '(neg, body) := read_sign t in
    match read_decimal neg body with
    | Some f => Some f
    | None => read_inf_or_nan neg body
    end
  end.

(** [int(f)] for a [float]: truncation toward zero. *)
Definition int_of_float (f : float) : exc Z :=
  match f with
  | S754_nan => Raise (ValueError (lit "cannot convert float NaN to integer"))
  | S754_infinity _ => Raise OverflowError
  | S754_zero _ => Ok 0
  | S754_finite s m e =>
    let a := match e with
             | Zneg p => Zpos m / 2 ^ Zpos p
             | _ => Zpos m * 2 ^ e
             end in
    Ok (if s then - a else a)
  end.

(** The character class [[\$,\(\)]] replaced by nothing. *)
Definition is_money_punct (c : ascii) : bool :=
  ascii_eqb c (chr 36) || ascii_eqb c (chr 44)
  || ascii_eqb c (chr 40) || ascii_eqb c (chr 41).

Definition m_money_punct : matcher := fun t =>
  match t with
  | c :: _ => if is_money_punct c then Some (1%nat, []) else None
  | [] => None
  end.

Definition monetary_keys : list string :=
  ["revenue"; "cogs"; "gross_profit"; "operating_expenses";
   "operating_income"; "net_income"; "total_assets"; "total_liabilities";
   "equity"]%string.

(** The body of the [try] in [clean_financial_data] with its [except
    (ValueError, TypeError)]: an [OverflowError] is not caught. *)
Definition coerce_monetary (value : str) : exc Any :=
  let cleaned_value := re_sub m_money_punct value in
  let negative :=
    contains_char (chr 40) value && contains_char (chr 41) value in
  match py_float cleaned_value with
  | None => Ok VNone
  | Some f =>
    match int_of_float f with
    | Ok z => Ok (VInt (if negative then - z else z))
    | Raise (ValueError _) => Ok VNone
    | Raise e => Raise e
    end
  end.

(** One iteration of the loop of [clean_financial_data]: the value stored
    under [key]. *)
Definition clean_value (key : string) (v : Any) : exc Any :=
  match v with
  | VNone => Ok VNone
  | VStr s =>
    if str_eqb s (lit "null") || str_eqb s [] then Ok VNone
    else if mem key monetary_keys then coerce_monetary s
    else Ok (VStr (strip s))
  | _ => Ok v
  end.

Fixpoint clean_items (items : dict) (cleaned : dict) : exc dict :=
  match items with
  | [] => Ok cleaned
  | (key, v) :: rest =>
    v' <- clean_value key v ;;
    clean_items rest (set_item key v' cleaned)
  end.

(** [clean_financial_data(raw_data)]. *)
Definition clean_financial_data (raw_data : dict) : exc dict :=
  clean_items raw_data [].

(** ** validators.py: the schema

    The classes derive from the validation library's [BaseModel].  What the
    library does with the declarations is modelled as follows.  Building a
    model from a dict validates every declared field in declaration order:
    a required field must be present, an optional one defaults to [None],
    the value is converted to the declared type, the [Field] constraints
    are tested, and the field's [@validator] runs last.  With
    [extra="forbid"] every key that is not a declared field is an error.
    The errors of all fields are reported together.  Only when there is
    none do the [@model_validator(mode='after')] functions run, those of a
    base class first; a [ValueError] raised there is reported as a single
    error, any other exception leaves the constructor. *)

Inductive error_type :=
| missing
| string_type
| string_too_short
| string_too_long
| string_pattern_mismatch
| int_type
| int_parsing
| int_parsing_size
| int_from_float
| finite_number
| float_type
| float_parsing
| greater_than_equal (bound : Z)
| less_than_equal (bound : Z)
| value_error (msg : str)
| extra_forbidden.

Record field_error := { loc : string; typ : error_type }.

(** The result of validating one field. *)
Inductive checked (A : Type) :=
| Good (a : A)
| Bad (e : error_type).

Arguments Good {A} a.
Arguments Bad {A} e.

Definition and_then {A B} (c : checked A) (f : A -> checked B) : checked B :=
  match c with
  | Good a => f a
  | Bad e => Bad e
  end.

(** The result of validating several fields: all errors are kept. *)
Inductive validated (A : Type) :=
| Pass (a : A)
| Fail (errs : list field_error).

Arguments Pass {A} a.
Arguments Fail {A} errs.

Definition ap {A B} (f : validated (A -> B)) (x : validated A) : validated B :=
  match f, x with
  | Pass g, Pass a => Pass (g a)
  | Pass _, Fail e => Fail e
  | Fail e, Pass _ => Fail e
  | Fail e1, Fail e2 => Fail (e1 ++ e2)
  end.

Infix "<*>" := ap (at level 55, left associativity).

Definition at_loc {A} (l : string) (c : checked A) : validated A :=
  match c with
  | Good a => Pass a
  | Bad e => Fail [{| loc := l; typ := e |}]
  end.

(** The result of building a model. *)
Inductive model_result (A : Type) :=
| Valid (a : A)
| ValidationError (errs : list field_error)
| Crash (e : exception).

Arguments Valid {A} a.
Arguments ValidationError {A} errs.
Arguments Crash {A} e.

Definition run_model_validator {A} (r : exc A) : model_result A :=
  match r with
  | Ok a => Valid a
  | Raise (ValueError msg) =>
    ValidationError [{| loc := ""; typ := value_error msg |}]
  | Raise e => Crash e
  end.

(** [str(z)] for an [int]. *)
Definition str_of_int (z : Z) : str :=
  if z <? 0 then chr 45 :: digits_of (Z.abs_N z) else digits_of (Z.abs_N z).

(** A [float] given for an [int] field: it must be finite, have no
    fractional part and lie strictly between [-2^63] and [2^63]. *)
Definition in_int64 (a : Z) : checked Z :=
  if (- 2 ^ 63 <? a) && (a <? 2 ^ 63) then Good a else Bad int_parsing_size.

Definition float_as_int (f : float) : checked Z :=
  match f with
  | S754_nan | S754_infinity _ => Bad finite_number
  | S754_zero _ => Good 0
  | S754_finite s m e =>
    match e with
    | Zneg p =>
      if Zpos m mod 2 ^ Zpos p =? 0
      then in_int64 (let a := Zpos m / 2 ^ Zpos p in if s then - a else a)
      else Bad int_from_float
    | _ => in_int64 (let a := Zpos m * 2 ^ e in if s then - a else a)
    end
  end.

(** Whether a [float] is a NaN, which compares false with every number. *)
Definition is_nan (f : float) : bool :=
  match f with S754_nan => true | _ => false end.

(** [f >= z] and [f <= z] for a [float] and an [int]. *)
Definition float_ge_int (f : float) (z : Z) : bool :=
  match cmp_int_float z f with Some Lt | Some Eq => true | _ => false end.

Definition float_le_int (f : float) (z : Z) : bool :=
  match cmp_int_float z f with Some Gt | Some Eq => true | _ => false end.

(** The errors carried by a validation result, and whether it failed. *)
Definition errors_of {A} (v : validated A) : list field_error :=
  match v with
  | Pass _ => []
  | Fail errs => errs
  end.

Definition failed {A} (v : validated A) : bool :=
  match v with
  | Pass _ => false
  | Fail _ => true
  end.

Section Schema.

(** How the library reads a [str] given for an [int] or a [float]
    field, and the year of the wall clock, [datetime.now().year]. *)
Variable lax_str_int : str -> option Z.
Variable lax_str_float : str -> option float.
Variable current_year : Z.

Definition as_int (v : Any) : checked Z :=
  match v with
  | VInt z => Good z
  | VFloat f => float_as_int f
  | VStr s =>
    match lax_str_int s with
    | Some z => Good z
    | None => Bad int_parsing
    end
  | VNone => Bad int_type
  end.

Definition as_float (v : Any) : checked float :=
  match v with
  | VFloat f => Good f
  | VInt z =>
    match float_of_int z with
    | Ok f => Good f
    | Raise _ => Bad float_type
    end
  | VStr s =>
    match lax_str_float s with
    | Some f => Good f
    | None => Bad float_parsing
    end
  | VNone => Bad float_type
  end.

(** [Optional[T] = Field(None, ...)]. *)
Definition optional {A} (conv : Any -> checked A) (o : option Any)
  : checked (option A) :=
  match o with
  | None | Some VNone => Good None
  | Some v => and_then (conv v) (fun a => Good (Some a))
  end.

Definition ge_int (bound : Z) (z : Z) : checked Z :=
  if bound <=? z then Good z else Bad (greater_than_equal bound).

Definition ge_float (bound : Z) (f : float) : checked float :=
  if float_ge_int f bound then Good f else Bad (greater_than_equal bound).

Definition le_float (bound : Z) (f : float) : checked float :=
  if float_le_int f bound then Good f else Bad (less_than_equal bound).

(** [@validator('company_name')]. *)
Definition validate_company_name (v : str) : checked str :=
  if negb (nonempty v) || negb (nonempty (strip v))
  then Bad (value_error (lit "Company name cannot be empty"))
  else
    let v := strip v in
    let v := re_sub m_ws v in
    Good v.

(** [@validator('year')]. *)
Definition validate_year (v : str) : checked str :=
  let year_int := int_of_digits v in
  if (year_int <? 1900) || (year_int >? current_year + 1)
  then Bad (value_error (lit "Year must be between 1900 and "
                         ++ str_of_int (current_year + 1)))
  else Good v.

(** [@validator('revenue', 'cogs', 'operating_expenses', 'total_assets',
    'total_liabilities')]. *)
Definition validate_positive_values (v : option Z) : checked (option Z) :=
  match v with
  | Some z =>
    if z <? 0 then Bad (value_error (lit "Field cannot be negative"))
    else Good v
  | None => Good v
  end.

(** [company_name: str = Field(..., min_length=1, max_length=255)]. *)
Definition company_name_field (o : option Any) : checked str :=
  match o with
  | None => Bad missing
  | Some (VStr s) =>
    if len s <? 1 then Bad string_too_short
    else if len s >? 255 then Bad string_too_long
    else validate_company_name s
  | Some _ => Bad string_type
  end.

(** [year: str = Field(..., pattern=r'^\d{4}$')]. *)
Definition year_field (o : option Any) : checked str :=
  match o with
  | None => Bad missing
  | Some (VStr s) =>
    if (List.length s =? 4)%nat && forallb is_digit s
    then validate_year s
    else Bad string_pattern_mismatch
  | Some _ => Bad string_type
  end.

(** [Optional[int] = Field(None)]. *)
Definition int_field (o : option Any) : checked (option Z) :=
  optional as_int o.

(** [Optional[int] = Field(None, ge=0)]. *)
Definition nonneg_int_field (o : option Any) : checked (option Z) :=
  optional (fun v => and_then (as_int v) (ge_int 0)) o.

(** The same with [validate_positive_values] attached. *)
Definition positive_value_field (o : option Any) : checked (option Z) :=
  and_then (nonneg_int_field o) validate_positive_values.

(** [Optional[float] = Field(None, ge=lo, le=hi)]: the library tests the
    upper bound before the lower one. *)
Definition bounded_float_field (lo hi : Z) (o : option Any)
  : checked (option float) :=
  optional (fun v => and_then (and_then (as_float v) (le_float hi))
                              (ge_float lo)) o.

(** [Optional[float] = Field(None, ge=0)]. *)
Definition nonneg_float_field (o : option Any) : checked (option float) :=
  optional (fun v => and_then (as_float v) (ge_float 0)) o.

(** [extra="forbid"]: one error for each key that is not a field. *)
Definition forbid_extra (fields : list string) (data : dict)
  : list field_error :=
  map (fun k => {| loc := k; typ := extra_forbidden |})
      (filter (fun k => negb (mem k fields)) (keys data)).

Definition with_extra {A} (fields : list string) (data : dict)
           (x : validated A) : validated A :=
  match forbid_extra fields data with
  | [] => x
  | errs => match x with
            | Pass _ => Fail errs
            | Fail e => Fail (e ++ errs)
            end
  end.

Definition field {A} (check : option Any -> checked A) (name : string)
           (data : dict) : validated A :=
  at_loc name (check (get name data)).

(** The fourteen fields declared by [FinancialData]. *)
Definition base_field_values (data : dict) : validated FinancialData :=
  Pass Build_FinancialData
  <*> field company_name_field "company_name" data
  <*> field year_field "year" data
  <*> field positive_value_field "revenue" data
  <*> field positive_value_field "cogs" data
  <*> field int_field "gross_profit" data
  <*> field positive_value_field "operating_expenses" data
  <*> field int_field "operating_income" data
  <*> field int_field "net_income" data
  <*> field positive_value_field "total_assets" data
  <*> field positive_value_field "total_liabilities" data
  <*> field int_field "equity" data
  <*> field (bounded_float_field 0 100) "gross_margin" data
  <*> field (bounded_float_field (-100) 100) "operating_margin" data
  <*> field (bounded_float_field (-100) 100) "net_margin" data.

Definition saas_field_values (data : dict) : validated SaaSFinancialData :=
  Pass Build_SaaSFinancialData
  <*> base_field_values data
  <*> field nonneg_int_field "recurring_revenue" data
  <*> field nonneg_int_field "annual_recurring_revenue" data
  <*> field nonneg_int_field "monthly_recurring_revenue" data
  <*> field nonneg_int_field "customer_acquisition_cost" data
  <*> field nonneg_int_field "customer_lifetime_value" data
  <*> field (bounded_float_field 0 100) "churn_rate" data.

Definition retail_field_values (data : dict) : validated RetailFinancialData :=
  Pass Build_RetailFinancialData
  <*> base_field_values data
  <*> field int_field "same_store_sales" data
  <*> field int_field "comparable_store_sales" data
  <*> field nonneg_int_field "inventory" data
  <*> field nonneg_int_field "store_count" data
  <*> field nonneg_float_field "sales_per_square_foot" data
  <*> field nonneg_float_field "inventory_turnover" data.

(** The constructor [FinancialData] applied to the keyword arguments [data]. *)
Definition new_FinancialData (data : dict) : model_result FinancialData :=
  match with_extra base_fields data (base_field_values data) with
  | Fail errs => ValidationError errs
  | Pass self => run_model_validator (validate_financial_logic self)
  end.

(** The constructor [SaaSFinancialData]: the inherited model validator runs
    before the one the class adds. *)
Definition new_SaaSFinancialData (data : dict)
  : model_result SaaSFinancialData :=
  match with_extra saas_fields data (saas_field_values data) with
  | Fail errs => ValidationError errs
  | Pass self =>
    match run_model_validator (validate_financial_logic (saas_base self)) with
    | Valid _ => run_model_validator (validate_saas_metrics self)
    | ValidationError errs => ValidationError errs
    | Crash e => Crash e
    end
  end.

(** The constructor [RetailFinancialData]. *)
Definition new_RetailFinancialData (data : dict)
  : model_result RetailFinancialData :=
  match with_extra retail_fields data (retail_field_values data) with
  | Fail errs => ValidationError errs
  | Pass self =>
    match run_model_validator (validate_financial_logic (retail_base self)) with
    | Valid _ => Valid self
    | ValidationError errs => ValidationError errs
    | Crash e => Crash e
    end
  end.

(** The three schema variants and the record each one yields. *)
Inductive variant := General | SaaS | Retail.

Inductive record :=
| GeneralRecord (r : FinancialData)
| SaaSRecord (r : SaaSFinancialData)
| RetailRecord (r : RetailFinancialData).

Definition select_variant (industry : str) : variant :=
  let tag := lower industry in
  if str_eqb tag (lit "saas") || str_eqb tag (lit "software") then SaaS
  else if str_eqb tag (lit "retail") || str_eqb tag (lit "ecommerce") then Retail
  else General.

Definition declared_fields (v : variant) : list string :=
  match v with
  | General => base_fields
  | SaaS => saas_fields
  | Retail => retail_fields
  end.

Definition map_result {A B} (f : A -> B) (r : model_result A) : model_result B :=
  match r with
  | Valid a => Valid (f a)
  | ValidationError errs => ValidationError errs
  | Crash e => Crash e
  end.

(** [validate_financial_data(data, industry)]. *)
Definition validate_financial_data (data : dict) (industry : str)
  : model_result record :=
  match select_variant industry with
  | SaaS => map_result SaaSRecord (new_SaaSFinancialData data)
  | Retail => map_result RetailRecord (new_RetailFinancialData data)
  | General => map_result GeneralRecord (new_FinancialData data)
  end.

Definition base_of (r : record) : FinancialData :=
  match r with
  | GeneralRecord b => b
  | SaaSRecord s => saas_base s
  | RetailRecord t => retail_base t
  end.


(** The outcome of the field stage of a variant: whether it failed, and
    the errors it reports. *)
Definition field_stage_failed (v : variant) (data : dict) : bool :=
  match v with
  | General => failed (with_extra base_fields data (base_field_values data))
  | SaaS => failed (with_extra saas_fields data (saas_field_values data))
  | Retail => failed (with_extra retail_fields data (retail_field_values data))
  end.

Definition field_stage_errors (v : variant) (data : dict) : list field_error :=
  match v with
  | General => errors_of (with_extra base_fields data (base_field_values data))
  | SaaS => errors_of (with_extra saas_fields data (saas_field_values data))
  | Retail => errors_of (with_extra retail_fields data (retail_field_values data))
  end.

End Schema.

(** ** Sample inputs

    The record of the [__main__] block of [validators.py] and variations
    of it.  [plain_int] and [plain_float] read no string as a number; the
    sample inputs carry numbers, never numeric strings. *)

Definition plain_int : str -> option Z := fun _ => None.
Definition plain_float : str -> option float := fun _ => None.

Definition sample_data : dict :=
  [("company_name", VStr (lit "ACME Corp")); ("year", VStr (lit "2023"));
   ("revenue", VInt 1000000); ("cogs", VInt 600000);
   ("gross_profit", VInt 400000); ("operating_expenses", VInt 200000);
   ("operating_income", VInt 200000); ("net_income", VInt 150000)]%string.

Definition sample_record : FinancialData :=
  {| company_name := lit "ACME Corp"; year := lit "2023";
     revenue := Some 1000000; cogs := Some 600000;
     gross_profit := Some 400000; operating_expenses := Some 200000;
     operating_income := Some 200000; net_income := Some 150000;
     total_assets := None; total_liabilities := None; equity := None;
     gross_margin := None; operating_margin := None; net_margin := None |}.

(** A negative gross profit with matching revenue and costs. *)
Definition loss_data : dict :=
  [("company_name", VStr (lit "ACME Corp")); ("year", VStr (lit "1900"));
   ("revenue", VInt 100000); ("cogs", VInt 200000);
   ("gross_profit", VInt (-100000))]%string.

(** The sample with a gross margin, with a gross profit that breaks two
    identities, and with a year out of range on top of that. *)
Definition margin_data : dict :=
  sample_data ++ [("gross_margin", VInt 40)]%string.

Definition negative_margin_data : dict :=
  sample_data ++ [("gross_margin", VInt (-5))]%string.
Definition nan_margin_data : dict :=
  sample_data ++ [("gross_margin", VFloat S754_nan)]%string.



Definition unknown_key_data : dict :=
  sample_data ++ [("ticker", VStr (lit " ACME "))]%string.

(** A copy of a record under another company name. *)
Definition with_name (name : str) (r : FinancialData) : FinancialData :=
  {| company_name := name; year := year r;
     revenue := revenue r; cogs := cogs r;
     gross_profit := gross_profit r; operating_expenses := operating_expenses r;
     operating_income := operating_income r; net_income := net_income r;
     total_assets := total_assets r; total_liabilities := total_liabilities r;
     equity := equity r; gross_margin := gross_margin r;
     operating_margin := operating_margin r; net_margin := net_margin r |}.

(** ** Notions used in the statements *)

(** Two records of the batch, at different positions, agree on the
    lower-cased company name and on the year. *)
Definition has_duplicate (v : list FinancialData) : Prop :=
  exists i j r1 r2,
    (i < j)%nat /\ nth_error v i = Some r1 /\ nth_error v j = Some r2
    /\ lower (company_name r1) = lower (company_name r2)
    /\ year r1 = year r2.


(** The characters [$] and [,]. *)
Definition is_dollar (c : ascii) : bool := ascii_eqb c (chr 36).
Definition is_comma (c : ascii) : bool := ascii_eqb c (chr 44).

(** [t] starts with digit, comma, digit; with digit, comma, digit, comma,
    digit. *)
Definition dcd_at (t : str) : bool :=
  match t with
  | a :: b :: c :: _ => is_digit a && is_comma b && is_digit c
  | _ => false
  end.

Definition dcdcd_at (t : str) : bool :=
  match t with
  | a :: b :: c :: d :: e :: _ =>
    is_digit a && is_comma b && is_digit c && is_comma d && is_digit e
  | _ => false
  end.

(** Some suffix of [t] satisfies [starts]. *)
Fixpoint has (starts : str -> bool) (t : str) : bool :=
  match t with
  | [] => false
  | _ :: t' => starts t || has starts t'
  end.

Definition has_dcd : str -> bool := has dcd_at.
Definition has_dcdcd : str -> bool := has dcdcd_at.

(** A character of a digit group: a digit or a comma. *)
Definition in_group (c : ascii) : bool := is_digit c || is_comma c.

(** The text on which [clean_text] applies its comma rule. *)
Definition before_comma_rule (text : str) : str :=
  re_sub m_dollar (re_sub m_table (re_sub m_page (re_sub m_ws text))).

(** The matcher matches only characters outside digit groups and replaces
    them by at least one such character. *)
Definition neutral (m : matcher) : Prop :=
  forall c t n r,
    m (c :: t) = Some (n, r) ->
    in_group c = false
    /\ Forall (fun x => in_group x = false) (firstn (pred n) t)
    /\ r <> []
    /\ Forall (fun x => in_group x = false) r.

(** Whether [starts] holds depends on the leading digit group only. *)
Definition group_local (starts : str -> bool) : Prop :=
  starts [] = false
  /\ forall t, starts t = starts (take_while in_group t).

(** A character that is no whitespace, or the space itself. *)
Definition char_ok (c : ascii) : bool :=
  negb (is_space c) || ascii_eqb c SP.

(** Pairs of neighbours that a cleaned text does not hold: two whitespace
    characters; a whitespace character after whitespace or a dollar. *)
Definition bad_ws (a b : ascii) : bool := is_space a && is_space b.

Definition bad_all (a b : ascii) : bool :=
  (is_space a || is_dollar a) && is_space b.

(** The neighbour that follows [a], if any, does not make a bad pair with
    it; no two neighbours of [t] make a bad pair. *)
Definition next_ok (bad : ascii -> ascii -> bool) (a : ascii) (x : str) : bool :=
  match x with
  | b :: _ => negb (bad a b)
  | [] => true
  end.

Fixpoint no_pair (bad : ascii -> ascii -> bool) (t : str) : bool :=
  match t with
  | [] => true
  | a :: x => next_ok bad a x && no_pair bad x
  end.

(** The shape of a cleaned text without markers: its only whitespace
    characters are spaces and no two neighbours make a bad pair. *)
Definition good (bad : ascii -> ascii -> bool) (t : str) : bool :=
  forallb char_ok t && no_pair bad t.

(** ** Page and table markers

    A number as the markers of [clean_text] can come to hold it: digits,
    with single commas between digits, as in [12] or [1,200].  The comma
    rule turns such a number into a run of digits. *)
Fixpoint grouped (t : str) : bool :=
  match t with
  | [] => false
  | a :: t' =>
    is_digit a
    && match t' with
       | [] => true
       | b :: t'' => if is_comma b then grouped t'' else grouped t'
       end
  end.

(** The longest run of characters in [inside] at the start of [t], when
    it is [valid]: the rest of the text after it. *)
Definition match_run (inside : ascii -> bool) (valid : str -> bool) (t : str)
  : option str :=
  if valid (take_while inside t) then Some (drop_while inside t) else None.

(** The next character, if any, does not continue the run. *)
Definition run_ends (inside : ascii -> bool) (r : str) : Prop :=
  match r with c :: _ => inside c = false | [] => True end.

(** [\d+], and a number with commas. *)
Definition match_digits : str -> option str := match_run is_digit nonempty.
Definition match_number : str -> option str := match_run in_group grouped.

(** [--- Page N ---] and [--- Table N (Page M) ---] at the start of [t],
    for numbers read by [num]: the rest of the text after the marker. *)
Definition page_with (num : str -> option str) (t : str) : option str :=
  t1 <-? match_lit (lit "--- Page ") t ;;
  t2 <-? num t1 ;;
  match_lit (lit " ---") t2.

Definition table_with (num : str -> option str) (t : str) : option str :=
  t1 <-? match_lit (lit "--- Table ") t ;;
  t2 <-? num t1 ;;
  t3 <-? match_lit (lit " (Page ") t2 ;;
  t4 <-? num t3 ;;
  match_lit (lit ") ---") t4.

Definition is_some {A} (o : option A) : bool :=
  match o with Some _ => true | None => false end.

(** The matcher matches at the start of [t]. *)
Definition matches (m : matcher) (t : str) : bool := is_some (m t).

(** [t] starts with a page marker, with a table marker, whose numbers may
    be written with commas. *)
Definition page_marker_at (t : str) : bool := is_some (page_with match_number t).
Definition table_marker_at (t : str) : bool := is_some (table_with match_number t).

(** A text holds a marker. *)
Definition has_marker (t : str) : bool :=
  has page_marker_at t || has table_marker_at t.

(** ** Further models, notions and sample inputs *)

(** ** main.py: the record handed back to the caller *)

Definition of_int (o : option Z) : Any :=
  match o with Some z => VInt z | None => VNone end.

Definition of_float (o : option float) : Any :=
  match o with Some f => VFloat f | None => VNone end.

(** [financial_data.dict()] in [ingest_document]: the library's dump of a
    general record, one entry for each declared field, in declaration
    order. *)
Definition model_dict (self : FinancialData) : dict :=
  [("company_name", VStr (company_name self));
   ("year", VStr (year self));
   ("revenue", of_int (revenue self));
   ("cogs", of_int (cogs self));
   ("gross_profit", of_int (gross_profit self));
   ("operating_expenses", of_int (operating_expenses self));
   ("operating_income", of_int (operating_income self));
   ("net_income", of_int (net_income self));
   ("total_assets", of_int (total_assets self));
   ("total_liabilities", of_int (total_liabilities self));
   ("equity", of_int (equity self));
   ("gross_margin", of_float (gross_margin self));
   ("operating_margin", of_float (operating_margin self));
   ("net_margin", of_float (net_margin self))]%string.

(** A SaaS and a retail record that carry only the fields of the general
    schema. *)
Definition saas_only (b : FinancialData) : SaaSFinancialData :=
  {| saas_base := b; recurring_revenue := None;
     annual_recurring_revenue := None; monthly_recurring_revenue := None;
     customer_acquisition_cost := None; customer_lifetime_value := None;
     churn_rate := None |}.

Definition retail_only (b : FinancialData) : RetailFinancialData :=
  {| retail_base := b; same_store_sales := None;
     comparable_store_sales := None; inventory := None; store_count := None;
     sales_per_square_foot := None; inventory_turnover := None |}.

(** When the field is present it is at least [lo]. *)
Definition at_least (lo : Z) (o : option Z) : Prop :=
  forall z, o = Some z -> lo <= z.

(** The sample with blanks around and inside the company name, and with a
    balance sheet. *)
Definition padded_data : dict :=
  set_item "company_name" (VStr (chr 9 :: lit " ACME   Corp  "))
    (sample_data ++ [("total_assets", VInt 2000000);
                     ("total_liabilities", VInt 800000);
                     ("equity", VInt 1200000)]%string).

Definition padded_record : FinancialData :=
  {| company_name := lit "ACME Corp"; year := lit "2023";
     revenue := Some 1000000; cogs := Some 600000;
     gross_profit := Some 400000; operating_expenses := Some 200000;
     operating_income := Some 200000; net_income := Some 150000;
     total_assets := Some 2000000; total_liabilities := Some 800000;
     equity := Some 1200000;
     gross_margin := None; operating_margin := None; net_margin := None |}.

(** The sample under another spelling of the company name. *)
Definition respelled_data : dict :=
  set_item "company_name" (VStr (lit "acme  CORP")) sample_data.

(** A raw dict as the extraction step may produce it: amounts written as
    text, one of them in accounting parentheses, one unreadable, one
    spelled [null]. *)
Definition raw_sample : dict :=
  [("company_name", VStr (lit " ACME Corp ")); ("year", VStr (lit "2023"));
   ("revenue", VStr (lit "$1,000,000")); ("cogs", VStr (lit "600,000"));
   ("operating_income", VStr (lit "(25,000)"));
   ("net_income", VStr (lit "n/a")); ("equity", VStr (lit "null"));
   ("total_assets", VInt 2000000)]%string.

(** The entry stored under [k] holds a text that reads as an infinity once
    the monetary punctuation is removed. *)
Definition reads_as_infinity (k : string) (v : Any) : Prop :=
  exists s sign,
    v = VStr s /\ mem k monetary_keys = true
    /\ s <> lit "null" /\ s <> []
    /\ py_float (re_sub m_money_punct s) = Some (S754_infinity sign).

Definition is_text (v : Any) : bool :=
  match v with VStr _ => true | _ => false end.

(** The characters [(] and [)], and a text between the two. *)
Definition is_open (c : ascii) : bool := ascii_eqb c (chr 40).
Definition is_close (c : ascii) : bool := ascii_eqb c (chr 41).

Definition in_parentheses (s : str) : str := chr 40 :: s ++ [chr 41].

(** Neither a dollar sign nor a comma. *)
Definition not_separator (c : ascii) : bool := negb (is_dollar c || is_comma c).

(** Entry by entry: the same key, the cleaned value. *)
Definition cleaned_entry (raw out : string * Any) : Prop :=
  fst out = fst raw /\ clean_value (fst raw) (snd raw) = Ok (snd out).

(** A record without revenue, and the sample with revenue zero. *)
Definition no_revenue_record : FinancialData :=
  {| company_name := lit "ACME Corp"; year := lit "2023";
     revenue := None; cogs := None;
     gross_profit := Some 400000; operating_expenses := Some 200000;
     operating_income := Some 200000; net_income := Some 150000;
     total_assets := None; total_liabilities := None; equity := None;
     gross_margin := None; operating_margin := None; net_margin := None |}.

Definition zero_revenue_record : FinancialData :=
  {| company_name := lit "ACME Corp"; year := lit "2023";
     revenue := Some 0; cogs := Some 0;
     gross_profit := Some 0; operating_expenses := Some 200000;
     operating_income := Some (-200000); net_income := Some (-200000);
     total_assets := None; total_liabilities := None; equity := None;
     gross_margin := None; operating_margin := None; net_margin := None |}.

(** The revenue is absent or not positive. *)
Definition no_positive_revenue (self : FinancialData) : Prop :=
  forall rev, revenue self = Some rev -> rev <= 0.

(** A SaaS record on top of the sample, with the two recurring revenues. *)
Definition saas_sample (arr mrr : Z) : SaaSFinancialData :=
  {| saas_base := sample_record; recurring_revenue := None;
     annual_recurring_revenue := Some arr;
     monthly_recurring_revenue := Some mrr;
     customer_acquisition_cost := None; customer_lifetime_value := None;
     churn_rate := None |}.

(** An amount that, when present, is below [2^52] in absolute value, and
    a record whose amounts that enter a float computation are such. *)
Definition modest (o : option Z) : Prop :=
  forall z, o = Some z -> Z.abs z < 2 ^ 52.

Definition modest_record (self : FinancialData) : Prop :=
  modest (revenue self) /\ modest (cogs self) /\ modest (gross_profit self)
  /\ modest (operating_expenses self) /\ modest (operating_income self)
  /\ modest (total_assets self) /\ modest (total_liabilities self).

(** A character that is no whitespace, or is a space or a line feed. *)
Definition plain_ws (c : ascii) : bool :=
  negb (is_space c) || ascii_eqb c SP || is_lf c.

(** A dollar sign followed by whitespace. *)
Definition dollar_ws (a b : ascii) : bool := is_dollar a && is_space b.

(** The number of line feeds in the whitespace that [s] starts with, and
    whether there are three of them: where the blank-line rule of
    [clean_text] can match. *)
Definition lf_run (s : str) : nat :=
  List.length (filter is_lf (take_while is_space s)).

Definition blank3 (s : str) : bool := (3 <=? lf_run s)%nat.

Definition no_lf (t : str) : bool := forallb (fun c => negb (is_lf c)) t.

(** The matcher starts a match at a character that is no whitespace and
    replaces it by a non-empty text without whitespace. *)
Definition solid (m : matcher) : Prop :=
  forall c t n r,
    m (c :: t) = Some (n, r) ->
    is_space c = false
    /\ r <> [] /\ forallb (fun x => negb (is_space x)) r = true.

(** The characters of a text that are no whitespace, in order. *)
Definition nonspace (t : str) : str := filter (fun c => negb (is_space c)) t.

(** A paragraph as [chunk_text_for_llm] passes it on: one that is longer
    than the limit is cut into sentences and gets a full stop after the
    last of them. *)
Definition closed (max_chunk_size : Z) (paragraph : str) : str :=
  if len paragraph >? max_chunk_size then paragraph ++ lit "." else paragraph.

(** [s] is a sentence of a paragraph of [text]. *)
Definition sentence_of (text s : str) : Prop :=
  exists p, In p (split [LF; LF] text) /\ In s (split (lit ". ") p).

(** What a chunk can be: a trimmed text of at most [max_chunk_size + 1]
    characters, or one sentence longer than the limit with its full
    stop. *)
Definition chunk_ok (text : str) (max_chunk_size : Z) (c : str) : Prop :=
  len c <= max_chunk_size + 1
  \/ exists s, sentence_of text s /\ max_chunk_size < len s
               /\ c = strip (s ++ lit ". ").

(** A text of two paragraphs. *)
Definition two_paragraphs : str :=
  lit "Revenue grew. Costs fell." ++ [LF; LF] ++ lit "Net income doubled.".

(** ** utils.py: table detection *)

Definition TAB : ascii := chr 9.

(** [\s{3,}] at the start of [t]: the greedy match is the whole run of
    whitespace, and there is one when the run has three characters. *)
Definition wide_gap_at (t : str) : bool :=
  (3 <=? List.length (take_while is_space t))%nat.

(** [re.search(r'\s{3,}', line)] as a truth value. *)
Definition has_wide_gap (line : str) : bool := has wide_gap_at line.

(** [re.split(r'\s{3,}', line)]: the pieces between the matches, found
    from left to right. *)
Fixpoint gap_split_from (skip : nat) (cur : str) (t : str) : list str :=
  match t with
  | [] => [rev cur]
  | c :: t' =>
    match skip with
    | S k => gap_split_from k cur t'
    | O =>
      if wide_gap_at t
      then rev cur
           :: gap_split_from (pred (List.length (take_while is_space t))) [] t'
      else gap_split_from 0 (c :: cur) t'
    end
  end.

Definition gap_split (line : str) : list str := gap_split_from 0 [] line.

(** One detected table. *)
Record table := {
  rows : list (list str);
  row_count : Z;
  column_count : Z
}.

(** [max(xs)] for a non-empty sequence of [int]s. *)
Definition max_of (x : Z) (xs : list Z) : Z := fold_left Z.max xs x.

(** The dict appended to [tables]. *)
Definition new_table (current_table : list (list str)) : table :=
  {| rows := current_table;
     row_count := Z.of_nat (List.length current_table);
     column_count :=
       match current_table with
       | [] => 0
       | row :: rest =>
         max_of (Z.of_nat (List.length row))
                (map (fun r => Z.of_nat (List.length r)) rest)
       end |}.

(** [if '\t' in line or re.search(r'\s{3,}', line)]. *)
Definition looks_like_row (line : str) : bool :=
  contains_char TAB line || has_wide_gap line.

(** The cells of a line that looks like a row: split at tabs when there is
    one, else at wide gaps; blank cells dropped, the others trimmed. *)
Definition row_cells (line : str) : list str :=
  let cells :=
    if contains_char TAB line then split [TAB] line else gap_split line in
  map strip (filter (fun cell => nonempty (strip cell)) cells).

Definition table_state := (list table * list (list str) * bool)%type.

(** The truth value of a list: whether it has an element. *)
Definition truthy {A} (l : list A) : bool :=
  match l with [] => false | _ => true end.

(** One iteration of the loop over the lines. *)
Definition line_step (st : table_state) (line : str) : table_state :=
  let '(tables, current_table, in_table) := st in
  if looks_like_row line then
    let current_table := if in_table then current_table else [] in
    let cells := row_cells line in
    (tables,
     (if truthy cells then current_table ++ [cells] else current_table),
     true)
  else if in_table && truthy current_table
       then (tables ++ [new_table current_table], [], false)
       else (tables, current_table, false).

(** [detect_table_structure(text)]. *)
Definition detect_table_structure (text : str) : list table :=
  let '(tables, current_table, in_table) :=
    fold_left line_step (split [LF] text) ([], [], false) in
  if in_table && truthy current_table
  then tables ++ [new_table current_table]
  else tables.

(** The rows that the lines of a text contribute, in order. *)
Definition rows_of (lines : list str) : list (list str) :=
  filter truthy (map row_cells (filter looks_like_row lines)).

(** A cell is not empty and has no whitespace at either end; a row has a
    cell and all its cells are cells. *)
Definition cell_ok (cell : str) : Prop := cell <> [] /\ strip cell = cell.

Definition row_ok (row : list str) : Prop := row <> [] /\ Forall cell_ok row.

(** A table has a row, its rows are rows, [row_count] is their number and
    [column_count] the length of a longest one. *)
Definition table_ok (tb : table) : Prop :=
  rows tb <> []
  /\ Forall row_ok (rows tb)
  /\ row_count tb = Z.of_nat (List.length (rows tb))
  /\ Forall (fun row => Z.of_nat (List.length row) <= column_count tb) (rows tb)
  /\ Exists (fun row => Z.of_nat (List.length row) = column_count tb) (rows tb).

(** The state of the loop: the tables are tables, the rows gathered so
    far are rows, and outside a table none is gathered. *)
Definition state_fine (st : table_state) : Prop :=
  let '(tables, current_table, in_table) := st in
  Forall table_ok tables /\ Forall row_ok current_table
  /\ (in_table = false -> current_table = []).

(** All rows held by a state, emitted or not. *)
Definition state_rows (st : table_state) : list (list str) :=
  let '(tables, current_table, _) := st in
  List.concat (map rows tables) ++ current_table.

(** Two tables of an income statement, tab-separated and gap-separated,
    with a heading between them. *)
Definition statement_text : str :=
  lit "Item" ++ [TAB] ++ lit "2023" ++ [TAB] ++ lit " 2022 " ++ [LF]
  ++ lit "Revenue" ++ [TAB] ++ [TAB] ++ lit "1000" ++ [LF]
  ++ lit "Balance sheet" ++ [LF]
  ++ lit "Assets     2000" ++ [LF]
  ++ lit "      " ++ [LF]
  ++ lit "Equity   1200   ok".

(** A character of a plain amount: a digit, a dollar sign or a comma. *)
Definition amount_char (c : ascii) : bool :=
  is_digit c || is_dollar c || is_comma c.

(** The digits of a text, in order. *)
Definition digits_in (s : str) : str := filter is_digit s.

(** * Properties *)

(** ** Numbers *)

Example fmt_commas_million : fmt_commas 1000000 = lit "1,000,000".
Proof. reflexivity. Qed.

Example fmt_commas_negative : fmt_commas (-100000) = lit "-100,000".
Proof. reflexivity. Qed.

Example f_0_01_bits : f_0_01 = S754_finite false 5764607523034235 (-59).
Proof. reflexivity. Qed.

(** [400000 * 0.01] is exactly [4000.0]. *)
Lemma tolerance_400000 :
  tolerance 400000 = Ok (NFloat (S754_finite false 8796093022208000 (-41))).
Proof. reflexivity. Qed.

Lemma int_gt_4000 (z : Z) :
  int_gt z (NFloat (S754_finite false 8796093022208000 (-41))) = (4000 <? z).
Proof.
  unfold int_gt, cmp_int_float.
  change (2 ^ Z.pos 41) with 2199023255552.
  destruct (Z.compare_spec (z * 2199023255552) (Z.pos 8796093022208000));
    destruct (Z.ltb_spec 4000 z); try reflexivity; lia.
Qed.

(** ** C6: the gross-profit identity at revenue 1,000,000 and COGS 600,000 *)

(** C6.  With revenue 1000000 and cogs 600000 present, the tolerance of the
    gross-profit identity is [max(1000, 400000 * 0.01) = 4000.0]; the check
    reports nothing exactly for the gross profits of the closed interval
    [396000, 404000], and for gross profit 350000 it reports the
    gross-profit violation, whose text shows the actual value 350,000 and
    the expected value 400,000. *)
Theorem C6_gross_profit_tolerance (self : FinancialData) (gp : Z)
  (Hrev : revenue self = Some 1000000)
  (Hcogs : cogs self = Some 600000)
  (Hgp : gross_profit self = Some gp) :
  tolerance (1000000 - 600000)
  = Ok (NFloat (S754_finite false 8796093022208000 (-41)))
  /\ cmp_int_float 4000 (S754_finite false 8796093022208000 (-41)) = Some Eq
  /\ (gross_profit_check self = Ok [] <-> 396000 <= gp <= 404000)
  /\ (gp = 350000 ->
      gross_profit_check self = Ok [gross_profit_msg 350000 1000000 600000]
      /\ gross_profit_msg 350000 1000000 600000
         = lit "Gross profit (350,000) doesn't match Revenue - COGS (1,000,000 - 600,000 = 400,000)").
Proof.
  split; [reflexivity|]. split; [reflexivity|].
  assert (Hc : gross_profit_check self
               = Ok (if 4000 <? Z.abs (gp - 400000)
                     then [gross_profit_msg gp 1000000 600000] else [])).
  { unfold gross_profit_check. rewrite Hrev, Hcogs, Hgp.
    unfold identity_check.
    change (1000000 - 600000) with 400000.
    rewrite tolerance_400000. cbn [bind_exc].
    rewrite int_gt_4000. reflexivity. }
  split.
  - rewrite Hc. destruct (Z.ltb_spec 4000 (Z.abs (gp - 400000))); split; intro H0.
    + discriminate H0.
    + lia.
    + lia.
    + reflexivity.
  - intros ->. rewrite Hc. split; reflexivity.
Qed.

Lemma C6_gross_profit_tolerance_witness :
  revenue sample_record = Some 1000000
  /\ (gross_profit_check sample_record = Ok [] <-> 396000 <= 400000 <= 404000).
Proof.
  split; [reflexivity|].
  exact (proj1 (proj2 (proj2
    (C6_gross_profit_tolerance sample_record 400000 eq_refl eq_refl eq_refl)))).
Defined.

(** ** C1: the completeness score *)

(** The number of the nine core monetary fields that are present. *)
Lemma completed_fields_range (self : FinancialData) :
  let n := Z.of_nat (List.length (filter (fun b => b) (counted_fields self))) in
  0 <= n <= 9.
Proof.
  cbv zeta. unfold counted_fields.
  destruct (revenue self), (cogs self), (gross_profit self),
    (operating_expenses self), (operating_income self), (net_income self),
    (total_assets self), (total_liabilities self), (equity self);
    cbn; lia.
Qed.

(** The count made by the summary is the number of the nine core monetary
    fields that are present, each counted once. *)
Lemma completed_fields_count (self : FinancialData) :
  Z.of_nat (List.length (filter (fun b => b) (counted_fields self)))
  = present (revenue self) + present (cogs self) + present (gross_profit self)
    + present (operating_expenses self) + present (operating_income self)
    + present (net_income self) + present (total_assets self)
    + present (total_liabilities self) + present (equity self).
Proof.
  unfold counted_fields.
  destruct (revenue self), (cogs self), (gross_profit self),
    (operating_expenses self), (operating_income self), (net_income self),
    (total_assets self), (total_liabilities self), (equity self);
    reflexivity.
Qed.

(** The sample record holds six of the nine core fields, and its score is
    [6 / 12 = 0.5], which is neither [6 / 9] nor [8 / 9]. *)
Lemma C1_score_is_not_ninths :
  exists s,
    get_validation_summary sample_record = Ok s
    /\ completed_fields s = 6
    /\ Ok (completeness_score s) <> int_true_div (completed_fields s) 9
    /\ Ok (completeness_score s) <> int_true_div 8 9.
Proof.
  eexists. split; [reflexivity|].
  split; [reflexivity|].
  split; cbv; discriminate.
Qed.

(** C1 (amended).  Whenever the margins can be computed, the summary
    reports as [completed_fields] the number of the nine core monetary
    fields that are present (revenue, cogs, gross_profit,
    operating_expenses, operating_income, net_income, total_assets,
    total_liabilities and equity, each counted once), as [total_fields]
    the constant 12, and as [completeness_score] the quotient of the two;
    for the sample input, which holds six of the nine fields, the score is
    [6 / 12 = 0.5]. *)
Theorem C1_completeness_score (self : FinancialData) (m : list (string * float))
  (Hm : calculate_margins self = Ok m) :
  (exists s,
      get_validation_summary self = Ok s
      /\ completed_fields s
         = present (revenue self) + present (cogs self)
           + present (gross_profit self) + present (operating_expenses self)
           + present (operating_income self) + present (net_income self)
           + present (total_assets self) + present (total_liabilities self)
           + present (equity self)
      /\ 0 <= completed_fields s <= 9
      /\ total_fields s = 12
      /\ int_true_div (completed_fields s) 12 = Ok (completeness_score s))
  /\ (exists s,
         get_validation_summary sample_record = Ok s
         /\ completed_fields s = 6
         /\ completeness_score s = S754_finite false 4503599627370496 (-53)
         /\ cmp_int_float 1 (SFmul prec emax (completeness_score s)
                                   (S754_finite false 4503599627370496 (-51)))
            = Some Eq).
Proof.
  split.
  - unfold get_validation_summary. rewrite Hm.
    pose proof (completed_fields_range self) as Hr. cbv zeta in Hr.
    set (n := Z.of_nat (List.length (filter (fun b => b) (counted_fields self)))) in *.
    assert (Hd : exists q, int_true_div n 12 = Ok q).
    { assert (Hk : exists k, n = Z.of_nat k /\ (k <= 9)%nat)
        by (exists (Z.to_nat n); lia).
      destruct Hk as [k [-> Hk]].
      do 10 (destruct k as [|k]; [eexists; reflexivity|]). lia. }
    destruct Hd as [q Hq]. rewrite Hq. cbn [bind_exc].
    eexists. split; [reflexivity|].
    cbn [completed_fields total_fields completeness_score].
    split; [apply completed_fields_count|].
    repeat split; try lia. exact Hq.
  - eexists. split; [reflexivity|]. repeat split.
Qed.

Lemma C1_completeness_score_witness :
  exists s, get_validation_summary sample_record = Ok s /\ total_fields s = 12.
Proof.
  destruct (C1_completeness_score sample_record _ eq_refl) as [[s [H1 [_ [_ [H2 _]]]]] _].
  exists s. split; assumption.
Defined.

(** ** C5: coercion of monetary strings *)

(** The only exception that leaves [coerce_monetary] is the
    [OverflowError] of [int] on an infinity. *)
Lemma coerce_monetary_raises (value : str) (e : exception) :
  coerce_monetary value = Raise e ->
  e = OverflowError
  /\ exists s, py_float (re_sub m_money_punct value) = Some (S754_infinity s).
Proof.
  unfold coerce_monetary.
  destruct (py_float (re_sub m_money_punct value)) as [f|]; [|discriminate].
  destruct f as [s|s| |s m x]; cbn [int_of_float]; try discriminate.
  intros [= <-]. split; [reflexivity | exists s; reflexivity].
Qed.

(** C5.  The three sample strings coerce as stated, a string that is not a
    number and one that reads as a NaN become [None]; but a string that
    reads as an infinity makes [int] raise [OverflowError], which the
    handler for [ValueError] and [TypeError] does not catch, so the whole
    call raises. *)
Theorem C5_coercion_and_overflow :
  coerce_monetary (lit "$1,000,000") = Ok (VInt 1000000)
  /\ coerce_monetary (lit "(500,000)") = Ok (VInt (-500000))
  /\ coerce_monetary (lit "abc") = Ok VNone
  /\ coerce_monetary (lit "nan") = Ok VNone
  /\ coerce_monetary (lit "1e999") = Raise OverflowError
  /\ coerce_monetary (lit "inf") = Raise OverflowError
  /\ clean_financial_data
       [("company_name", VStr (lit "ACME Corp")); ("revenue", VStr (lit "1e999"))]%string
     = Raise OverflowError.
Proof. repeat split; vm_compute; reflexivity. Qed.

(** ** C4: the size of a chunk *)

(** C4.  With [max_chunk_size = 7] the text [ab. cde. fg] is one paragraph
    of three sentences, each at most three characters long; the first
    chunk packs two of them and is eight characters long. *)
Theorem C4_chunk_exceeds_limit :
  chunk_text_for_llm (lit "ab. cde. fg") 7 = [lit "ab. cde."; lit "fg."]
  /\ split [LF; LF] (lit "ab. cde. fg") = [lit "ab. cde. fg"]
  /\ split (lit ". ") (lit "ab. cde. fg") = [lit "ab"; lit "cde"; lit "fg"]
  /\ len (lit "ab. cde.") = 8.
Proof. repeat split; vm_compute; reflexivity. Qed.

(** ** C8: duplicates within a batch *)

Lemma ascii_eqb_eq (a b : ascii) : ascii_eqb a b = true <-> a = b.
Proof. unfold ascii_eqb. apply Ascii.eqb_eq. Qed.

Lemma str_eqb_eq (a b : str) : str_eqb a b = true <-> a = b.
Proof.
  revert b. induction a as [|x a IH]; intros [|y b]; cbn.
  - split; reflexivity.
  - split; discriminate.
  - split; discriminate.
  - rewrite andb_true_iff, ascii_eqb_eq, IH.
    split; [intros [-> ->]; reflexivity | intros [= -> ->]; auto].
Qed.

Lemma key_eqb_eq (a b : str * str) : key_eqb a b = true <-> a = b.
Proof.
  destruct a as [a1 a2], b as [b1 b2]. unfold key_eqb. cbn.
  rewrite andb_true_iff, !str_eqb_eq.
  split; [intros [-> ->]; reflexivity | intros [= -> ->]; auto].
Qed.

Lemma seen_spec (key : str * str) (seen : list (str * str)) :
  existsb (key_eqb key) seen = true <-> In key seen.
Proof.
  rewrite existsb_exists. split.
  - intros [k [Hin Hk]]. apply key_eqb_eq in Hk. subst. exact Hin.
  - intros Hin. exists key. split; [exact Hin | apply key_eqb_eq; reflexivity].
Qed.

Lemma record_key_eq (r1 r2 : FinancialData) :
  record_key r1 = record_key r2
  <-> lower (company_name r1) = lower (company_name r2) /\ year r1 = year r2.
Proof.
  unfold record_key. split.
  - intros [= H1 H2]. auto.
  - intros [-> ->]. reflexivity.
Qed.

Lemma has_duplicate_cons (r : FinancialData) (v : list FinancialData) :
  has_duplicate (r :: v)
  <-> (exists r', In r' v /\ record_key r = record_key r') \/ has_duplicate v.
Proof.
  split.
  - intros (i & j & r1 & r2 & Hlt & Hi & Hj & Hk).
    destruct j as [|j]; [lia|]. cbn in Hj.
    destruct i as [|i].
    + cbn in Hi. injection Hi as <-. left. exists r2. split.
      * eapply nth_error_In; eauto.
      * apply record_key_eq. exact Hk.
    + right. exists i, j, r1, r2. cbn in Hi. repeat split; try tauto; lia.
  - intros [(r' & Hin & Hk) | (i & j & r1 & r2 & Hlt & Hi & Hj & Hk)].
    + apply In_nth_error in Hin. destruct Hin as [j Hj].
      exists 0%nat, (S j), r, r'. cbn. apply record_key_eq in Hk.
      repeat split; try tauto; lia.
    + exists (S i), (S j), r1, r2. cbn. repeat split; try tauto; lia.
Qed.

Lemma unique_from_raises (v : list FinancialData) :
  forall seen,
    (exists msg, unique_from seen v = Raise (ValueError msg))
    <-> (exists r, In r v /\ In (record_key r) seen) \/ has_duplicate v.
Proof.
  induction v as [|r v IH]; intros seen; cbn [unique_from].
  - split.
    + intros [msg H]. discriminate H.
    + intros [(r & [] & _) | (i & j & r1 & r2 & _ & Hi & _)].
      destruct i; discriminate Hi.
  - destruct (existsb (key_eqb (record_key r)) seen) eqn:Hseen.
    + split; [|intros _; eexists; reflexivity].
      intros _. left. exists r. split; [left; reflexivity|].
      apply seen_spec. exact Hseen.
    + assert (Hns : ~ In (record_key r) seen).
      { intro Hin. apply seen_spec in Hin. congruence. }
      rewrite IH, has_duplicate_cons. split.
      * intros [(r' & Hin & [Heq | Hs]) | Hd].
        -- right. left. exists r'. split; [exact Hin | exact Heq].
        -- left. exists r'. split; [right; exact Hin | exact Hs].
        -- right. right. exact Hd.
      * intros [(r' & [<- | Hin] & Hs) | [(r' & Hin & Hk) | Hd]].
        -- contradiction.
        -- left. exists r'. split; [exact Hin | right; exact Hs].
        -- left. exists r'. split; [exact Hin | left; exact Hk].
        -- right. exact Hd.
Qed.

Lemma unique_from_total (v : list FinancialData) :
  forall seen,
    unique_from seen v = Ok tt
    \/ exists msg, unique_from seen v = Raise (ValueError msg).
Proof.
  induction v as [|r v IH]; intros seen; cbn [unique_from].
  - left. reflexivity.
  - destruct (existsb (key_eqb (record_key r)) seen).
    + right. eexists. reflexivity.
    + apply IH.
Qed.

(** C8.  [validate_unique_company_years] raises its [ValueError] exactly
    when the batch holds two records with equal lower-cased company names
    and equal years, and returns the batch unchanged otherwise; two records
    named [ACME Corp] and [acme corp] for the same year are rejected. *)
Theorem C8_batch_duplicates (v : list FinancialData) :
  ((exists msg, validate_unique_company_years v = Raise (ValueError msg))
   <-> has_duplicate v)
  /\ (validate_unique_company_years v = Ok v <-> ~ has_duplicate v)
  /\ validate_unique_company_years
       [sample_record; with_name (lit "acme corp") sample_record]
     = Raise (ValueError (lit "Duplicate record found for acme corp - 2023")).
Proof.
  assert (H1 : (exists msg, validate_unique_company_years v = Raise (ValueError msg))
               <-> has_duplicate v).
  { unfold validate_unique_company_years.
    pose proof (unique_from_raises v []) as Hr.
    destruct (unique_from_total v []) as [Hok | [msg Hmsg]].
    - rewrite Hok in *. cbn [bind_exc]. split.
      + intros [msg H]. discriminate H.
      + intros Hd. exfalso.
        destruct (proj2 Hr (or_intror Hd)) as [msg H]. discriminate H.
    - rewrite Hmsg in *. cbn [bind_exc]. split.
      + intros _. destruct (proj1 Hr (ex_intro _ msg eq_refl)) as [(r & _ & []) | Hd].
        exact Hd.
      + intros _. exists msg. reflexivity. }
  split; [exact H1|]. split; [|reflexivity].
  unfold validate_unique_company_years in *.
  destruct (unique_from_total v []) as [Hok | [msg Hmsg]].
  - rewrite Hok in *. cbn [bind_exc] in *. split; [|reflexivity].
    intros _ Hd. apply H1 in Hd. destruct Hd as [msg H]. discriminate H.
  - rewrite Hmsg in *. cbn [bind_exc] in *. split.
    + discriminate.
    + intros Hn. exfalso. apply Hn. apply H1. exists msg. reflexivity.
Qed.

(** ** The schema: how field results combine *)

Lemma errors_of_ap {A B} (f : validated (A -> B)) (x : validated A) :
  errors_of (f <*> x) = errors_of f ++ errors_of x.
Proof.
  destruct f, x; cbn; rewrite ?app_nil_r; reflexivity.
Qed.

Lemma failed_ap {A B} (f : validated (A -> B)) (x : validated A) :
  failed (f <*> x) = failed f || failed x.
Proof. destruct f, x; reflexivity. Qed.

Lemma ap_pass {A B} (f : validated (A -> B)) (x : validated A) (b : B) :
  f <*> x = Pass b -> exists g a, f = Pass g /\ x = Pass a /\ b = g a.
Proof.
  destruct f as [g|], x as [a|]; cbn; intros H; try discriminate H.
  injection H as <-. exists g, a. auto.
Qed.

Lemma failed_errors {A} (v : validated A) :
  failed v = true -> v = Fail (errors_of v).
Proof. destruct v; cbn; [discriminate | reflexivity]. Qed.

Lemma at_loc_pass {A} (l : string) (c : checked A) (a : A) :
  at_loc l c = Pass a -> c = Good a.
Proof. destruct c; cbn; [intros [= ->]; reflexivity | discriminate]. Qed.

Lemma at_loc_bad {A} (l : string) (c : checked A) (e : error_type) :
  c = Bad e -> at_loc l c = Fail [{| loc := l; typ := e |}].
Proof. intros ->. reflexivity. Qed.

Section SchemaProperties.

Variable lax_str_int : str -> option Z.
Variable lax_str_float : str -> option float.
Variable current_year : Z.

Local Abbreviation fields_base :=
  (base_field_values lax_str_int lax_str_float current_year).
Local Abbreviation fields_saas :=
  (saas_field_values lax_str_int lax_str_float current_year).
Local Abbreviation fields_retail :=
  (retail_field_values lax_str_int lax_str_float current_year).
Local Abbreviation new_base :=
  (new_FinancialData lax_str_int lax_str_float current_year).
Local Abbreviation new_saas :=
  (new_SaaSFinancialData lax_str_int lax_str_float current_year).
Local Abbreviation new_retail :=
  (new_RetailFinancialData lax_str_int lax_str_float current_year).
Local Abbreviation validate :=
  (validate_financial_data lax_str_int lax_str_float current_year).

Lemma errors_of_with_extra {A} (fields : list string) (data : dict)
      (x : validated A) :
  errors_of (with_extra fields data x) = errors_of x ++ forbid_extra fields data.
Proof.
  unfold with_extra. destruct (forbid_extra fields data) as [|e es].
  - rewrite app_nil_r. reflexivity.
  - destruct x; reflexivity.
Qed.

Lemma failed_with_extra {A} (fields : list string) (data : dict)
      (x : validated A) :
  failed (with_extra fields data x)
  = failed x || negb (Nat.eqb (List.length (forbid_extra fields data)) 0).
Proof.
  unfold with_extra. destruct (forbid_extra fields data) as [|e es].
  - cbn. rewrite orb_false_r. reflexivity.
  - destruct x; reflexivity.
Qed.

Lemma with_extra_pass {A} (fields : list string) (data : dict)
      (x : validated A) (a : A) :
  with_extra fields data x = Pass a ->
  x = Pass a /\ forbid_extra fields data = [].
Proof.
  unfold with_extra. destruct (forbid_extra fields data) as [|e es].
  - auto.
  - destruct x; discriminate.
Qed.

(** A key outside the declared fields is reported. *)
Lemma forbid_extra_In (fields : list string) (data : dict) (k : string) :
  In k (keys data) -> mem k fields = false ->
  In {| loc := k; typ := extra_forbidden |} (forbid_extra fields data).
Proof.
  intros Hin Hm. unfold forbid_extra.
  apply in_map with (f := fun k => {| loc := k; typ := extra_forbidden |}).
  apply filter_In. split; [exact Hin | rewrite Hm; reflexivity].
Qed.

(** The values of a record that passed the field stage are the values
    its field checks produced. *)
Lemma base_field_values_pass (data : dict) (b : FinancialData) :
  fields_base data = Pass b ->
  bounded_float_field lax_str_float 0 100 (get "gross_margin" data)
  = Good (gross_margin b)
  /\ bounded_float_field lax_str_float (-100) 100 (get "operating_margin" data)
     = Good (operating_margin b)
  /\ bounded_float_field lax_str_float (-100) 100 (get "net_margin" data)
     = Good (net_margin b)
  /\ int_field lax_str_int (get "gross_profit" data) = Good (gross_profit b).
Proof.
  unfold base_field_values. intros H.
  repeat match goal with
         | H : _ <*> _ = Pass _ |- _ =>
           apply ap_pass in H; destruct H as (? & ? & H & ? & ?)
         end.
  injection H as <-. subst. cbn.
  unfold field in *.
  repeat match goal with
         | H : at_loc _ _ = Pass _ |- _ => apply at_loc_pass in H
         end.
  auto.
Qed.

Local Abbreviation stage_failed :=
  (field_stage_failed lax_str_int lax_str_float current_year).
Local Abbreviation stage_errors :=
  (field_stage_errors lax_str_int lax_str_float current_year).

Lemma validate_financial_logic_ok (self r : FinancialData) :
  validate_financial_logic self = Ok r -> r = self /\ logic_errors self = Ok [].
Proof.
  unfold validate_financial_logic.
  destruct (logic_errors self) as [errors|e]; cbn [bind_exc]; [|discriminate].
  destruct errors; [|discriminate]. intros [= <-]. auto.
Qed.

Lemma run_model_validator_valid {A} (r : exc A) (a : A) :
  run_model_validator r = Valid a -> r = Ok a.
Proof.
  destruct r as [a'|[msg| |]]; cbn; intros H; try discriminate H.
  injection H as <-. reflexivity.
Qed.

Lemma validate_saas_metrics_ok (self r : SaaSFinancialData) :
  validate_saas_metrics self = Ok r -> r = self.
Proof.
  unfold validate_saas_metrics.
  destruct (validate_financial_logic (saas_base self)); cbn [bind_exc];
    [|discriminate].
  destruct (annual_recurring_revenue self), (monthly_recurring_revenue self);
    try (intros [= <-]; reflexivity).
  destruct (int_mul_float _ _); cbn [bind_exc]; [|discriminate].
  destruct (int_gt _ _); [discriminate | intros [= <-]; reflexivity].
Qed.

(** A record that is returned passed the field stage of its variant. *)
Lemma validate_valid_fields (data : dict) (industry : str) (r : record) :
  validate data industry = Valid r ->
  fields_base data = Pass (base_of r).
Proof.
  unfold validate_financial_data.
  destruct (select_variant industry).
  - unfold new_FinancialData.
    destruct (with_extra base_fields data (fields_base data)) as [self|errs] eqn:Hf;
      cbn [map_result]; [|discriminate].
    apply with_extra_pass in Hf. destruct Hf as [Hf _].
    destruct (run_model_validator (validate_financial_logic self)) as [a| |] eqn:Hv;
      cbn [map_result]; try discriminate.
    intros [= <-]. cbn [base_of].
    apply run_model_validator_valid, validate_financial_logic_ok in Hv.
    destruct Hv as [-> _]. exact Hf.
  - unfold new_SaaSFinancialData.
    destruct (with_extra saas_fields data (fields_saas data)) as [self|errs] eqn:Hf;
      cbn [map_result]; [|discriminate].
    apply with_extra_pass in Hf. destruct Hf as [Hf _].
    destruct (run_model_validator (validate_financial_logic (saas_base self)));
      cbn [map_result]; try discriminate.
    destruct (run_model_validator (validate_saas_metrics self)) as [b| |] eqn:Hv;
      cbn [map_result]; try discriminate.
    intros [= <-]. cbn [base_of].
    apply run_model_validator_valid, validate_saas_metrics_ok in Hv. subst b.
    unfold saas_field_values in Hf.
    repeat match goal with
           | H : _ <*> _ = Pass _ |- _ =>
             apply ap_pass in H; destruct H as (? & ? & H & ? & ?)
           end.
    injection Hf as <-. subst. cbn. assumption.
  - unfold new_RetailFinancialData.
    destruct (with_extra retail_fields data (fields_retail data)) as [self|errs] eqn:Hf;
      cbn [map_result]; [|discriminate].
    apply with_extra_pass in Hf. destruct Hf as [Hf _].
    destruct (run_model_validator (validate_financial_logic (retail_base self)));
      cbn [map_result]; try discriminate.
    intros [= <-]. cbn [base_of].
    unfold retail_field_values in Hf.
    repeat match goal with
           | H : _ <*> _ = Pass _ |- _ =>
             apply ap_pass in H; destruct H as (? & ? & H & ? & ?)
           end.
    injection Hf as <-. subst. cbn. assumption.
Qed.

(** A failed field stage is the whole outcome: no model validator runs. *)
Lemma validate_field_failure (data : dict) (industry : str) :
  stage_failed (select_variant industry) data = true ->
  validate data industry
  = ValidationError (stage_errors (select_variant industry) data).
Proof.
  unfold validate_financial_data, field_stage_failed, field_stage_errors.
  destruct (select_variant industry); intros Hf; apply failed_errors in Hf.
  - unfold new_FinancialData. rewrite Hf. reflexivity.
  - unfold new_SaaSFinancialData. rewrite Hf. reflexivity.
  - unfold new_RetailFinancialData. rewrite Hf. reflexivity.
Qed.

Lemma stage_failed_base (v : variant) (data : dict) :
  failed (fields_base data) = true -> stage_failed v data = true.
Proof.
  intros Hb. unfold field_stage_failed.
  destruct v; rewrite failed_with_extra.
  - rewrite Hb. reflexivity.
  - unfold saas_field_values. rewrite !failed_ap, Hb. cbn.
    reflexivity.
  - unfold retail_field_values. rewrite !failed_ap, Hb. cbn.
    reflexivity.
Qed.

Lemma stage_errors_base (v : variant) (data : dict) (e : field_error) :
  In e (errors_of (fields_base data)) -> In e (stage_errors v data).
Proof.
  intros Hb. unfold field_stage_errors.
  destruct v; rewrite errors_of_with_extra.
  - apply in_or_app. left. exact Hb.
  - unfold saas_field_values. rewrite !errors_of_ap. cbn [errors_of app].
    rewrite <- !app_assoc. apply in_or_app. left. exact Hb.
  - unfold retail_field_values. rewrite !errors_of_ap. cbn [errors_of app].
    rewrite <- !app_assoc. apply in_or_app. left. exact Hb.
Qed.

Lemma stage_extra (v : variant) (data : dict) (k : string) :
  In k (keys data) -> mem k (declared_fields v) = false ->
  stage_failed v data = true
  /\ In {| loc := k; typ := extra_forbidden |} (stage_errors v data).
Proof.
  intros Hin Hm.
  pose proof (forbid_extra_In (declared_fields v) data k Hin Hm) as He.
  unfold field_stage_failed, field_stage_errors.
  destruct v; cbn [declared_fields] in He;
    rewrite failed_with_extra, errors_of_with_extra;
    (split; [|apply in_or_app; right; exact He]);
    (destruct (forbid_extra _ data); [destruct He|]);
    cbn; apply orb_true_r.
Qed.

Lemma bounded_float_field_range (lo hi : Z) (o : option Any) (g : float) :
  bounded_float_field lax_str_float lo hi o = Good (Some g) ->
  float_ge_int g lo = true /\ float_le_int g hi = true.
Proof.
  unfold bounded_float_field, optional.
  destruct o as [v|]; [|discriminate].
  destruct v; try discriminate;
    (destruct (as_float lax_str_float _) as [x|]; cbn [and_then]; [|discriminate]);
    unfold le_float; destruct (float_le_int x hi) eqn:Hle; cbn [and_then];
      try discriminate;
    unfold ge_float; destruct (float_ge_int x lo) eqn:Hge; cbn [and_then];
      try discriminate;
    intros [= <-]; auto.
Qed.

(** A float that is neither at least [lo] nor at most [hi], for
    [lo <= hi], is no number. *)
Lemma outside_both_bounds (g : float) (lo hi : Z) :
  lo <= hi -> float_ge_int g lo = false -> float_le_int g hi = false ->
  is_nan g = true.
Proof.
  intros Hb. unfold float_ge_int, float_le_int.
  destruct g as [s|s| |s m e]; cbn [cmp_int_float is_nan]; try reflexivity.
  - destruct (Z.compare_spec lo 0), (Z.compare_spec hi 0);
      cbn; try congruence; lia.
  - destruct s; cbn; congruence.
  - cbv zeta. set (v := if s then Z.neg m else Z.pos m). clearbody v.
    destruct e as [|q|q].
    + destruct (Z.compare_spec lo (v * 2 ^ 0)), (Z.compare_spec hi (v * 2 ^ 0));
        cbn; try congruence; lia.
    + destruct (Z.compare_spec lo (v * 2 ^ Z.pos q)),
        (Z.compare_spec hi (v * 2 ^ Z.pos q)); cbn; try congruence; lia.
    + assert (Hp : 0 < 2 ^ Z.pos q) by (apply Z.pow_pos_nonneg; lia).
      set (x := 2 ^ Z.pos q) in *. clearbody x.
      destruct (Z.compare_spec (lo * x) v), (Z.compare_spec (hi * x) v);
        cbn; try congruence; nia.
Qed.

Lemma gross_margin_field_fails (data : dict) (v : Any) (g : float) :
  get "gross_margin" data = Some v ->
  as_float lax_str_float v = Good g ->
  float_ge_int g 0 = false ->
  failed (fields_base data) = true
  /\ In {| loc := "gross_margin";
           typ := if is_nan g then less_than_equal 100
                  else greater_than_equal 0 |}
        (errors_of (fields_base data)).
Proof.
  intros Hget Hf Hneg.
  assert (Hb : bounded_float_field lax_str_float 0 100 (get "gross_margin" data)
               = Bad (if is_nan g then less_than_equal 100
                      else greater_than_equal 0)).
  { rewrite Hget. unfold bounded_float_field, optional.
    destruct v; try (cbn in Hf; discriminate Hf);
      rewrite Hf; cbn [and_then]; unfold le_float;
      destruct (float_le_int g 100) eqn:Hle; cbn [and_then];
      try (rewrite (outside_both_bounds g 0 100) by (lia || assumption);
           reflexivity);
      unfold ge_float; rewrite Hneg;
      (destruct g; [| |discriminate Hle|]; reflexivity). }
  unfold base_field_values.
  rewrite !failed_ap, !errors_of_ap.
  unfold field. rewrite Hb. cbn [at_loc failed errors_of].
  split.
  - rewrite !orb_true_r. reflexivity.
  - apply in_or_app; left. apply in_or_app; left.
    apply in_or_app; right. left. reflexivity.
Qed.

(** C9.  A record that validation returns has its gross margin, when
    present, between 0 and 100, and its operating and net margins, when
    present, between -100 and 100.  An input whose gross margin is not at
    least 0 is rejected, for every variant: with the error of that field's
    lower bound when it is a number, hence below 0, and with the error of
    the upper bound, which is tested first, when it is no number.  A
    negative gross profit is accepted. *)
Theorem C9_margin_bounds (data : dict) (industry : str) :
  (forall r, validate data industry = Valid r ->
     (forall g, gross_margin (base_of r) = Some g ->
        float_ge_int g 0 = true /\ float_le_int g 100 = true)
     /\ (forall g, operating_margin (base_of r) = Some g ->
        float_ge_int g (-100) = true /\ float_le_int g 100 = true)
     /\ (forall g, net_margin (base_of r) = Some g ->
        float_ge_int g (-100) = true /\ float_le_int g 100 = true))
  /\ (forall v g, get "gross_margin" data = Some v ->
        as_float lax_str_float v = Good g -> float_ge_int g 0 = false ->
        exists errs,
          validate data industry = ValidationError errs
          /\ In {| loc := "gross_margin";
                   typ := if is_nan g then less_than_equal 100
                          else greater_than_equal 0 |} errs)
  /\ (1899 <= current_year ->
      exists b, validate loss_data (lit "general") = Valid (GeneralRecord b)
                /\ gross_profit b = Some (-100000)).
Proof.
  split; [|split].
  - intros r Hv. apply validate_valid_fields in Hv.
    apply base_field_values_pass in Hv.
    destruct Hv as (Hg & Ho & Hn & _).
    split; [|split]; intros g Hg'.
    + rewrite Hg' in Hg. apply bounded_float_field_range in Hg. exact Hg.
    + rewrite Hg' in Ho. apply bounded_float_field_range in Ho. exact Ho.
    + rewrite Hg' in Hn. apply bounded_float_field_range in Hn. exact Hn.
  - intros v g Hget Hf Hneg.
    destruct (gross_margin_field_fails data v g Hget Hf Hneg) as [Hfail Hin].
    eexists. split.
    + apply validate_field_failure. apply stage_failed_base. exact Hfail.
    + apply stage_errors_base. exact Hin.
  - intros Hy. eexists. split.
    + unfold validate_financial_data. cbn [select_variant].
      unfold new_FinancialData.
      change (select_variant (lit "general")) with General. cbn iota.
      unfold base_field_values, field. cbn [get loss_data String.eqb Ascii.eqb Bool.eqb].
      cbn [company_name_field year_field positive_value_field nonneg_int_field
           int_field bounded_float_field optional as_int and_then ge_int
           validate_positive_values].
      unfold validate_year.
      replace ((int_of_digits (lit "1900") <? 1900)
               || (int_of_digits (lit "1900") >? current_year + 1)) with false.
      2:{ change (int_of_digits (lit "1900")) with 1900.
          symmetry. apply orb_false_iff. split; [reflexivity|].
          rewrite Z.gtb_ltb. apply Z.ltb_ge. lia. }
      vm_compute. reflexivity.
    + reflexivity.
Qed.

(** ** C10: keys outside the declared fields *)

Lemma mem_In (k : string) (ks : list string) : mem k ks = true <-> In k ks.
Proof.
  unfold mem. rewrite existsb_exists. split.
  - intros [x [Hin Hx]]. apply String.eqb_eq in Hx. subst. exact Hin.
  - intros Hin. exists k. split; [exact Hin | apply String.eqb_refl].
Qed.

Lemma undeclared_not_monetary (v : variant) (k : string) :
  mem k (declared_fields v) = false -> mem k monetary_keys = false.
Proof.
  intros Hd. destruct (mem k monetary_keys) eqn:Hm; [|reflexivity].
  apply mem_In in Hm.
  assert (Hin : In k (declared_fields v)).
  { destruct v; cbn [declared_fields]; unfold saas_fields, retail_fields;
      try (apply in_or_app; left);
      unfold monetary_keys, base_fields in *; cbn in Hm |- *; tauto. }
  apply mem_In in Hin. congruence.
Qed.

Lemma keys_set_item (k k' : string) (v : Any) (d : dict) :
  In k (keys (set_item k' v d)) <-> k = k' \/ In k (keys d).
Proof.
  unfold keys. induction d as [|[k0 v0] d IH]; cbn.
  - intuition congruence.
  - destruct (String.eqb_spec k' k0) as [->|Hne]; cbn.
    + intuition congruence.
    + rewrite IH. intuition congruence.
Qed.

Lemma clean_items_keys (items : dict) :
  forall cleaned out,
    clean_items items cleaned = Ok out ->
    forall k, In k (keys out) <-> In k (keys cleaned) \/ In k (keys items).
Proof.
  induction items as [|[k0 v0] items IH]; intros cleaned out; cbn [clean_items].
  - intros [= <-] k. cbn. tauto.
  - destruct (clean_value k0 v0) as [v'|e]; cbn [bind_exc]; [|discriminate].
    intros H k. rewrite (IH _ _ H k), keys_set_item. cbn. intuition congruence.
Qed.

(** Cleaning a value stored under a key that is not monetary never raises. *)
Lemma clean_value_plain (k : string) (v : Any) :
  mem k monetary_keys = false -> exists v', clean_value k v = Ok v'.
Proof.
  intros Hm. destruct v; cbn [clean_value]; try (eexists; reflexivity).
  rewrite Hm. destruct (str_eqb s (lit "null") || str_eqb s []);
    eexists; reflexivity.
Qed.

(** C10.  When the input holds a key that the selected variant does not
    declare, validation returns a rejection that names that key as a
    forbidden extra field.  Cleaning does not drop such a key: it never
    raises on its value, and when [clean_financial_data] returns, the key
    is among the keys of the cleaned dict, which validation then rejects
    in the same way. *)
Theorem C10_unknown_key_rejected (data : dict) (industry : str) (k : string)
  (Hin : In k (keys data))
  (Hk : mem k (declared_fields (select_variant industry)) = false) :
  (exists errs,
      validate data industry = ValidationError errs
      /\ In {| loc := k; typ := extra_forbidden |} errs)
  /\ (forall v, exists v', clean_value k v = Ok v')
  /\ (forall cleaned,
         clean_financial_data data = Ok cleaned ->
         In k (keys cleaned)
         /\ exists errs,
             validate cleaned industry = ValidationError errs
             /\ In {| loc := k; typ := extra_forbidden |} errs).
Proof.
  assert (Hrej : forall d, In k (keys d) ->
            exists errs, validate d industry = ValidationError errs
                         /\ In {| loc := k; typ := extra_forbidden |} errs).
  { intros d Hd. destruct (stage_extra _ d k Hd Hk) as [Hf He].
    eexists. split; [apply validate_field_failure; exact Hf | exact He]. }
  split; [apply Hrej; exact Hin|]. split.
  - intros v. apply clean_value_plain.
    apply undeclared_not_monetary with (v := select_variant industry). exact Hk.
  - intros cleaned Hc.
    assert (Hkc : In k (keys cleaned)).
    { apply (clean_items_keys _ _ _ Hc k). right. exact Hin. }
    split; [exact Hkc | apply Hrej; exact Hkc].
Qed.

(** ** C2: which violations a rejection carries *)





Lemma logic_errors_parts (self : FinancialData) (errors : list str) :
  logic_errors self = Ok errors ->
  exists e1 e2 e3 e6,
    gross_profit_check self = Ok e1
    /\ operating_income_check self = Ok e2
    /\ equity_check self = Ok e3
    /\ net_income_check self = Ok e6
    /\ errors = e1 ++ e2 ++ e3 ++ gross_order_check self
                ++ operating_order_check self ++ e6.
Proof.
  unfold logic_errors.
  destruct (gross_profit_check self) as [e1|]; cbn [bind_exc]; [|discriminate].
  destruct (operating_income_check self) as [e2|]; cbn [bind_exc]; [|discriminate].
  destruct (equity_check self) as [e3|]; cbn [bind_exc]; [|discriminate].
  destruct (net_income_check self) as [e6|]; cbn [bind_exc]; [|discriminate].
  intros [= <-]. exists e1, e2, e3, e6. auto.
Qed.


End SchemaProperties.

Lemma C9_margin_bounds_witness :
  (exists r g,
      validate_financial_data plain_int plain_float 2025 margin_data (lit "general")
      = Valid r
      /\ gross_margin (base_of r) = Some g
      /\ float_ge_int g 0 = true /\ float_le_int g 100 = true)
  /\ (exists errs,
         validate_financial_data plain_int plain_float 2025 negative_margin_data
           (lit "general") = ValidationError errs
         /\ In {| loc := "gross_margin"; typ := greater_than_equal 0 |} errs)
  /\ (exists errs,
         validate_financial_data plain_int plain_float 2025 nan_margin_data
           (lit "general") = ValidationError errs
         /\ In {| loc := "gross_margin"; typ := less_than_equal 100 |} errs).
Proof.
  split; [|split].
  - eexists. eexists.
    assert (Hv : validate_financial_data plain_int plain_float 2025 margin_data
                   (lit "general")
                 = Valid (GeneralRecord
                     {| company_name := lit "ACME Corp"; year := lit "2023";
                        revenue := Some 1000000; cogs := Some 600000;
                        gross_profit := Some 400000;
                        operating_expenses := Some 200000;
                        operating_income := Some 200000;
                        net_income := Some 150000;
                        total_assets := None; total_liabilities := None;
                        equity := None;
                        gross_margin :=
                          Some (S754_finite false 5629499534213120 (-47));
                        operating_margin := None; net_margin := None |}))
      by (vm_compute; reflexivity).
    split; [exact Hv|]. split; [reflexivity|].
    exact (proj1 (proj1 (C9_margin_bounds plain_int plain_float 2025 margin_data
                           (lit "general")) _ Hv) _ eq_refl).
  - exact (proj1 (proj2 (C9_margin_bounds plain_int plain_float 2025
                           negative_margin_data (lit "general")))
                 (VInt (-5)) (S754_finite true 5629499534213120 (-50))
                 eq_refl eq_refl eq_refl).
  - exact (proj1 (proj2 (C9_margin_bounds plain_int plain_float 2025
                           nan_margin_data (lit "general")))
                 (VFloat S754_nan) S754_nan eq_refl eq_refl eq_refl).
Defined.

Lemma C10_unknown_key_rejected_witness :
  In "ticker"%string (keys unknown_key_data)
  /\ exists errs,
      validate_financial_data plain_int plain_float 2025 unknown_key_data
        (lit "general") = ValidationError errs
      /\ In {| loc := "ticker"; typ := extra_forbidden |} errs.
Proof.
  assert (Hin : In "ticker"%string (keys unknown_key_data))
    by (cbn; repeat ((left; reflexivity) || right)).
  split; [exact Hin|].
  exact (proj1 (C10_unknown_key_rejected plain_int plain_float 2025
                  unknown_key_data (lit "general") "ticker" Hin eq_refl)).
Defined.



(** ** The substitution engine *)

Lemma str_length_ind (P : str -> Prop) :
  (forall t, (forall s, (List.length s < List.length t)%nat -> P s) -> P t) ->
  forall t, P t.
Proof.
  intros H t.
  assert (Hn : forall n s, (List.length s < n)%nat -> P s).
  { induction n as [|n IH]; intros s Hs; [lia|].
    apply H. intros s' Hs'. apply IH. lia. }
  apply (Hn (S (List.length t))). lia.
Qed.

Lemma re_sub_from_skip (m : matcher) (t : str) :
  forall k, re_sub_from m k t = re_sub m (skipn k t).
Proof.
  induction t as [|c t IH]; intros [|k]; try reflexivity.
  cbn [re_sub_from skipn]. apply IH.
Qed.

(** One step of the scan. *)
Lemma re_sub_cons (m : matcher) (c : ascii) (t : str) :
  re_sub m (c :: t)
  = match m (c :: t) with
    | Some (n, r) => r ++ re_sub m (skipn (pred n) t)
    | None => c :: re_sub m t
    end.
Proof.
  unfold re_sub at 1. cbn [re_sub_from].
  destruct (m (c :: t)) as [[n r]|]; [|reflexivity].
  rewrite re_sub_from_skip. reflexivity.
Qed.

Lemma re_sub_nil (m : matcher) : re_sub m [] = [].
Proof. reflexivity. Qed.

(** Induction along the scan. *)
Lemma scan_ind (m : matcher) (P : str -> Prop) :
  P [] ->
  (forall c t n r, m (c :: t) = Some (n, r) ->
                   P (skipn (pred n) t) -> P (c :: t)) ->
  (forall c t, m (c :: t) = None -> P t -> P (c :: t)) ->
  forall t, P t.
Proof.
  intros Hnil Hsome Hnone. apply str_length_ind. intros [|c t] IH.
  - exact Hnil.
  - destruct (m (c :: t)) as [[n r]|] eqn:Hm.
    + apply (Hsome c t n r Hm). apply IH.
      rewrite length_skipn. cbn. lia.
    + apply (Hnone c t Hm). apply IH. cbn. lia.
Qed.

Lemma take_drop_while (p : ascii -> bool) (t : str) :
  take_while p t ++ drop_while p t = t.
Proof.
  induction t as [|c t IH]; [reflexivity|]. cbn.
  destruct (p c); [cbn; rewrite IH|]; reflexivity.
Qed.

Lemma skipn_take_while (p : ascii -> bool) (t : str) :
  skipn (List.length (take_while p t)) t = drop_while p t.
Proof.
  induction t as [|c t IH]; [reflexivity|]. cbn.
  destruct (p c); [cbn; exact IH | reflexivity].
Qed.

Lemma take_while_all (p : ascii -> bool) (t : str) :
  Forall (fun c => p c = true) (take_while p t).
Proof.
  induction t as [|c t IH]; cbn; [constructor|].
  destruct (p c) eqn:Hc; constructor; assumption.
Qed.

Lemma take_while_app (p : ascii -> bool) (w r : str) :
  Forall (fun c => p c = true) w ->
  take_while p (w ++ r) = w ++ take_while p r.
Proof.
  induction 1 as [|c w Hc _ IH]; [reflexivity|].
  cbn. rewrite Hc, IH. reflexivity.
Qed.

Lemma drop_while_head (p : ascii -> bool) (t : str) :
  match drop_while p t with
  | c :: _ => p c = false
  | [] => True
  end.
Proof.
  induction t as [|c t IH]; cbn; [exact I|].
  destruct (p c) eqn:Hc; [exact IH | exact Hc].
Qed.

Lemma drop_while_none (p : ascii -> bool) (t : str) :
  match t with c :: _ => p c = false | [] => True end ->
  drop_while p t = t.
Proof. destruct t as [|c t]; cbn; [reflexivity|]. intros ->. reflexivity. Qed.

Lemma drop_while_length (p : ascii -> bool) (t : str) :
  (List.length (drop_while p t) <= List.length t)%nat.
Proof.
  induction t as [|c t IH]; cbn; [lia|]. destruct (p c); cbn; lia.
Qed.

(** What the matchers of [clean_text] return. *)
Lemma m_ws_cons (c : ascii) (t : str) :
  m_ws (c :: t)
  = if is_space c
    then Some (S (List.length (take_while is_space t)), [SP])
    else None.
Proof. unfold m_ws. cbn. destruct (is_space c); reflexivity. Qed.

Lemma m_dollar_cons (c : ascii) (t : str) :
  m_dollar (c :: t)
  = if is_dollar c
    then Some (S (List.length (take_while is_space t)), [chr 36])
    else None.
Proof.
  unfold m_dollar, match_lit, is_dollar. cbn [lit list_ascii_of_string starts_with].
  change (ascii_eqb "$"%char c) with (ascii_eqb (chr 36) c).
  unfold ascii_eqb. rewrite (Ascii.eqb_sym (chr 36) c).
  destruct (Ascii.eqb c (chr 36)); cbn; [|reflexivity].
  unfold consumed. cbn [List.length].
  pose proof (f_equal (@List.length ascii) (take_drop_while is_space t)) as Hl.
  rewrite length_app in Hl.
  destruct (List.length (drop_while is_space t)); do 2 f_equal; lia.
Qed.

Lemma m_comma_some (t : str) (n : nat) (r : str) :
  m_comma t = Some (n, r) ->
  exists a c t', t = a :: chr 44 :: c :: t' /\ is_digit a = true
                 /\ is_digit c = true /\ n = 3%nat /\ r = [a; c].
Proof.
  unfold m_comma. destruct t as [|a [|b [|c t']]]; try discriminate.
  destruct (is_digit a) eqn:Ha; cbn [andb]; [|discriminate].
  destruct (ascii_eqb b (chr 44)) eqn:Hb; cbn [andb]; [|discriminate].
  destruct (is_digit c) eqn:Hc; [|discriminate].
  intros [= <- <-]. apply ascii_eqb_eq in Hb. subst b.
  exists a, c, t'. auto.
Qed.

Lemma m_page_some (t : str) (n : nat) (r : str) :
  m_page t = Some (n, r) -> exists t', t = chr 45 :: t'.
Proof.
  unfold m_page, match_lit. destruct t as [|c t']; [discriminate|].
  cbn [lit list_ascii_of_string starts_with].
  destruct (ascii_eqb "-"%char c) eqn:Hc; cbn; [|discriminate].
  intros _. apply ascii_eqb_eq in Hc. subst c. exists t'. reflexivity.
Qed.

Lemma m_table_some (t : str) (n : nat) (r : str) :
  m_table t = Some (n, r) -> exists t', t = chr 45 :: t'.
Proof.
  unfold m_table, match_lit. destruct t as [|c t']; [discriminate|].
  cbn [lit list_ascii_of_string starts_with].
  destruct (ascii_eqb "-"%char c) eqn:Hc; cbn; [|discriminate].
  intros _. apply ascii_eqb_eq in Hc. subst c. exists t'. reflexivity.
Qed.

Lemma m_blank_some (t : str) (n : nat) (r : str) :
  m_blank t = Some (n, r) ->
  exists t', t = LF :: t'
             /\ (1 <= n <= List.length (take_while is_space t))%nat
             /\ r = [LF; LF].
Proof.
  unfold m_blank. destruct t as [|c t']; [discriminate|].
  destruct (is_lf c) eqn:Hc; [|discriminate].
  apply ascii_eqb_eq in Hc. subst c.
  remember (take_while is_space (LF :: t')) as run eqn:Hrun.
  destruct (3 <=? List.length (filter is_lf run))%nat eqn:H3; [|discriminate].
  intros [= <- <-]. exists t'. split; [reflexivity|]. split; [|reflexivity].
  rewrite length_rev.
  assert (Hle : forall l, (List.length (drop_while (fun x => negb (is_lf x)) l)
                          <= List.length l)%nat) by (intros; apply drop_while_length).
  specialize (Hle (rev run)). rewrite length_rev in Hle. split; [|exact Hle].
  apply Nat.leb_le in H3.
  assert (Hf : forall l, (List.length (filter is_lf l)
                         <= List.length (drop_while (fun x => negb (is_lf x)) l))%nat).
  { induction l as [|x l IH]; cbn; [lia|].
    destruct (is_lf x); cbn; [|exact IH].
    pose proof (filter_length_le is_lf l). lia. }
  specialize (Hf (rev run)).
  assert (Hr : List.length (filter is_lf (rev run)) = List.length (filter is_lf run)).
  { rewrite filter_rev, length_rev. reflexivity. }
  lia.
Qed.

(** ** Occurrences of digit groups *)

Lemma code_chr_44 (c : ascii) : is_comma c = true -> code c = 44%N.
Proof. unfold is_comma. intros H. apply ascii_eqb_eq in H. subst. reflexivity. Qed.

Lemma comma_not_digit (c : ascii) : is_comma c = true -> is_digit c = false.
Proof.
  intros H. apply code_chr_44 in H. unfold is_digit. rewrite H. reflexivity.
Qed.

Lemma digit_not_comma (c : ascii) : is_digit c = true -> is_comma c = false.
Proof.
  intros H. destruct (is_comma c) eqn:Hc; [|reflexivity].
  apply comma_not_digit in Hc. congruence.
Qed.

Lemma m_comma_dcd (t : str) :
  m_comma t = match t with
              | a :: _ :: c :: _ => if dcd_at t then Some (3%nat, [a; c]) else None
              | _ => None
              end.
Proof.
  destruct t as [|a [|b [|c t]]]; try reflexivity.
Qed.

Lemma re_comma_match (a c : ascii) (t : str) :
  is_digit a = true -> is_digit c = true ->
  re_sub m_comma (a :: chr 44 :: c :: t) = a :: c :: re_sub m_comma t.
Proof.
  intros Ha Hc. rewrite re_sub_cons, m_comma_dcd.
  cbn [dcd_at]. rewrite Ha, Hc. reflexivity.
Qed.

Lemma re_comma_skip (a : ascii) (t : str) :
  dcd_at (a :: t) = false ->
  re_sub m_comma (a :: t) = a :: re_sub m_comma t.
Proof.
  intros H. rewrite re_sub_cons, m_comma_dcd.
  destruct t as [|b [|c t]]; try reflexivity. rewrite H. reflexivity.
Qed.

Lemma re_comma_head (a : ascii) (t : str) :
  exists rest, re_sub m_comma (a :: t) = a :: rest.
Proof.
  destruct (dcd_at (a :: t)) eqn:H.
  - destruct t as [|b [|c t]]; try discriminate H.
    cbn [dcd_at] in H. apply andb_true_iff in H. destruct H as [H Hc].
    apply andb_true_iff in H. destruct H as [Ha Hb].
    apply ascii_eqb_eq in Hb. subst b.
    rewrite re_comma_match by assumption. eexists. reflexivity.
  - rewrite re_comma_skip by assumption. eexists. reflexivity.
Qed.

Lemma dcd_at_not_comma (a b : ascii) (x : str) :
  is_comma b = false -> dcd_at (a :: b :: x) = false.
Proof.
  intros Hb. destruct x; cbn [dcd_at]; [reflexivity|].
  rewrite Hb, andb_false_r. reflexivity.
Qed.

Lemma dcd_at_re_comma (a : ascii) (t : str) :
  dcd_at (a :: re_sub m_comma t) = dcd_at (a :: t).
Proof.
  destruct t as [|b t]; [reflexivity|].
  destruct (is_comma b) eqn:Hb.
  - rewrite re_comma_skip.
    2:{ destruct t as [|c [|d t]]; cbn [dcd_at]; try reflexivity.
        rewrite (comma_not_digit b Hb). reflexivity. }
    destruct t as [|c t]; [reflexivity|].
    destruct (re_comma_head c t) as [rest ->]. reflexivity.
  - destruct (re_comma_head b t) as [rest ->].
    rewrite !dcd_at_not_comma by assumption. reflexivity.
Qed.

Lemma dcdcd_dcd (t : str) : dcdcd_at t = true -> dcd_at t = true.
Proof.
  destruct t as [|a [|b [|c [|d [|e t]]]]]; try discriminate.
  cbn [dcdcd_at dcd_at]. intros H.
  apply andb_true_iff in H. destruct H as [H _].
  apply andb_true_iff in H. destruct H as [H _]. exact H.
Qed.

(** After one pass of the comma rule a digit-comma-digit occurs exactly
    where the input had digit-comma-digit-comma-digit. *)
Lemma has_dcd_re_comma (t : str) :
  has_dcd (re_sub m_comma t) = has_dcdcd t.
Proof.
  unfold has_dcd, has_dcdcd.
  induction t as [|c t n r Hm IH|c t Hm IH] using (scan_ind m_comma).
  - reflexivity.
  - apply m_comma_some in Hm.
    destruct Hm as (a & c' & t3 & Ht & Ha & Hc & -> & ->).
    injection Ht as -> ->. cbn [pred skipn] in IH.
    rewrite re_comma_match by assumption.
    cbn [has]. rewrite IH, dcd_at_re_comma.
    rewrite (dcd_at_not_comma a c') by (apply digit_not_comma; assumption).
    assert (H1 : dcdcd_at (a :: chr 44 :: c' :: t3) = dcd_at (c' :: t3)).
    { destruct t3 as [|d [|e t3]]; cbn [dcdcd_at dcd_at]; try reflexivity.
      rewrite Ha, Hc. change (is_comma (chr 44)) with true. reflexivity. }
    assert (H2 : dcdcd_at (chr 44 :: c' :: t3) = false).
    { destruct t3 as [|d [|e [|f t3]]]; reflexivity. }
    change (ascii_of_pos 44) with (chr 44). rewrite H1, H2. cbn [orb].
    destruct (dcd_at (c' :: t3)) eqn:Hx; [reflexivity|]. cbn [orb].
    destruct (dcdcd_at (c' :: t3)) eqn:Hy; [|reflexivity].
    apply dcdcd_dcd in Hy. congruence.
  - assert (Hd : dcd_at (c :: t) = false).
    { rewrite m_comma_dcd in Hm. destruct t as [|b [|c' t]]; try reflexivity.
      destruct (dcd_at (c :: b :: c' :: t)); [discriminate | reflexivity]. }
    rewrite re_comma_skip by assumption.
    cbn [has]. rewrite IH, dcd_at_re_comma, Hd.
    destruct (dcdcd_at (c :: t)) eqn:Hy; [|reflexivity].
    apply dcdcd_dcd in Hy. congruence.
Qed.

Lemma re_comma_fixed (t : str) :
  has_dcd t = false -> re_sub m_comma t = t.
Proof.
  unfold has_dcd. induction t as [|a t IH]; [reflexivity|].
  cbn [has]. intros H. apply orb_false_iff in H. destruct H as [Ha Ht].
  rewrite re_comma_skip by assumption. rewrite IH by assumption. reflexivity.
Qed.

(** ** Rules that touch no digit group *)

Lemma space_code (c : ascii) :
  is_space c = true ->
  ((9 <= code c <= 13) \/ (28 <= code c <= 32) \/ code c = 133 \/ code c = 160)%N.
Proof.
  unfold is_space. cbv zeta. intros H.
  repeat (apply orb_true_iff in H; destruct H as [H|H]);
    try (apply andb_true_iff in H; destruct H as [H1 H2];
         apply N.leb_le in H1; apply N.leb_le in H2);
    try apply N.eqb_eq in H; lia.
Qed.

Lemma space_neutral (c : ascii) : is_space c = true -> in_group c = false.
Proof.
  intros H. apply space_code in H. unfold in_group.
  apply orb_false_iff. split.
  - unfold is_digit. cbv zeta. apply andb_false_iff.
    destruct (N.leb_spec 48 (code c)); [right; apply N.leb_gt; lia | left; reflexivity].
  - destruct (is_comma c) eqn:Hc; [|reflexivity].
    apply code_chr_44 in Hc. lia.
Qed.

Lemma spaces_neutral (w : str) :
  Forall (fun c => is_space c = true) w ->
  Forall (fun x => in_group x = false) w.
Proof.
  intros H. eapply Forall_impl; [|exact H]. intros c. apply space_neutral.
Qed.

Lemma not_in_group (x : ascii) :
  in_group x = false -> is_digit x = false /\ is_comma x = false.
Proof. unfold in_group. apply orb_false_iff. Qed.

Lemma dcd_local : group_local dcd_at.
Proof.
  split; [reflexivity|]. intros t.
  destruct t as [|a [|b [|c t]]]; cbn [take_while].
  - reflexivity.
  - destruct (in_group a); reflexivity.
  - destruct (in_group a), (in_group b); reflexivity.
  - destruct (in_group a) eqn:Ga.
    2:{ apply not_in_group in Ga. cbn [dcd_at]. rewrite (proj1 Ga). reflexivity. }
    destruct (in_group b) eqn:Gb.
    2:{ apply not_in_group in Gb. cbn [dcd_at]. rewrite (proj2 Gb).
        rewrite andb_false_r. reflexivity. }
    destruct (in_group c) eqn:Gc.
    2:{ apply not_in_group in Gc. cbn [dcd_at]. rewrite (proj1 Gc).
        rewrite andb_false_r. reflexivity. }
    reflexivity.
Qed.

Lemma take_while_twice (p : ascii -> bool) (t : str) :
  take_while p (take_while p t) = take_while p t.
Proof.
  induction t as [|c t IH]; [reflexivity|]. cbn.
  destruct (p c) eqn:Hc; [|reflexivity]. cbn. rewrite Hc, IH. reflexivity.
Qed.

Lemma dcdcd_split (t : str) :
  dcdcd_at t
  = dcd_at t && match t with _ :: _ :: t2 => dcd_at t2 | _ => false end.
Proof.
  destruct t as [|a [|b [|c [|d [|e t]]]]]; cbn [dcdcd_at dcd_at];
    rewrite ?andb_false_r; try reflexivity.
  destruct (is_digit a), (is_comma b), (is_digit c), (is_comma d), (is_digit e);
    reflexivity.
Qed.

Lemma dcdcd_local : group_local dcdcd_at.
Proof.
  split; [reflexivity|]. intros t.
  rewrite !dcdcd_split.
  rewrite (proj2 dcd_local t).
  destruct (dcd_at (take_while in_group t)) eqn:Hd; cbn [andb]; [|reflexivity].
  destruct t as [|a [|b t2]]; cbn [take_while] in *.
  - reflexivity.
  - destruct (in_group a); reflexivity.
  - destruct (in_group a); [|discriminate Hd].
    destruct (in_group b); [|discriminate Hd].
    apply (proj2 dcd_local).
Qed.

Section Neutral.

Variable starts : str -> bool.
Hypothesis starts_local : group_local starts.

Lemma starts_neutral (a : ascii) (x : str) :
  in_group a = false -> starts (a :: x) = false.
Proof.
  intros Ha. rewrite (proj2 starts_local). cbn. rewrite Ha.
  exact (proj1 starts_local).
Qed.

Lemma has_app_neutral_l (u x : str) :
  Forall (fun c => in_group c = false) u ->
  has starts (u ++ x) = has starts x.
Proof.
  induction 1 as [|a u Ha _ IH]; [reflexivity|].
  cbn [app has]. rewrite starts_neutral by assumption. exact IH.
Qed.

Lemma take_while_app_neutral (s u : str) :
  Forall (fun c => in_group c = false) u ->
  take_while in_group (s ++ u) = take_while in_group s.
Proof.
  intros Hu. induction s as [|a s IH]; cbn.
  - destruct Hu as [|b u Hb _]; [reflexivity|]. cbn. rewrite Hb. reflexivity.
  - destruct (in_group a); [rewrite IH|]; reflexivity.
Qed.

Lemma has_app_neutral_r (x u : str) :
  Forall (fun c => in_group c = false) u ->
  has starts (x ++ u) = has starts x.
Proof.
  intros Hu. induction x as [|a x IH].
  - cbn [app]. rewrite <- (app_nil_r u). rewrite has_app_neutral_l by assumption.
    reflexivity.
  - cbn [app has]. rewrite IH. f_equal.
    rewrite (proj2 starts_local), (proj2 starts_local (a :: x)).
    change (a :: x ++ u) with ((a :: x) ++ u).
    rewrite take_while_app_neutral by assumption. reflexivity.
Qed.

Variable m : matcher.
Hypothesis m_neutral : neutral m.

Lemma group_prefix_re_sub (t : str) :
  take_while in_group (re_sub m t) = take_while in_group t.
Proof.
  induction t as [|c t IH]; [reflexivity|].
  rewrite re_sub_cons. destruct (m (c :: t)) as [[n r]|] eqn:Hm.
  - destruct (m_neutral c t n r Hm) as (Hc & _ & Hr & Hall).
    cbn [take_while]. rewrite Hc.
    destruct Hall as [|r0 r' Hr0 _]; [contradiction|].
    cbn. rewrite Hr0. reflexivity.
  - cbn [take_while]. rewrite IH. reflexivity.
Qed.

Lemma has_re_sub (t : str) : has starts (re_sub m t) = has starts t.
Proof.
  induction t as [|c t n r Hm IH|c t Hm IH] using (scan_ind m).
  - reflexivity.
  - rewrite re_sub_cons, Hm.
    destruct (m_neutral c t n r Hm) as (Hc & Hpre & _ & Hall).
    rewrite has_app_neutral_l by assumption. rewrite IH.
    cbn [has]. rewrite starts_neutral by assumption. cbn [orb].
    rewrite <- (firstn_skipn (pred n) t) at 2.
    rewrite has_app_neutral_l by assumption. reflexivity.
  - rewrite re_sub_cons, Hm. cbn [has]. rewrite IH. f_equal.
    rewrite (proj2 starts_local), (proj2 starts_local (c :: t)).
    cbn [take_while]. rewrite group_prefix_re_sub. reflexivity.
Qed.

End Neutral.

Lemma lstrip_split (t : str) :
  exists w, t = w ++ lstrip t /\ Forall (fun c => is_space c = true) w.
Proof.
  induction t as [|c t IH].
  - exists []. split; [reflexivity | constructor].
  - cbn [lstrip]. destruct (is_space c) eqn:Hc.
    + destruct IH as (w & Hw & Hall). exists (c :: w). split.
      * cbn. rewrite <- Hw. reflexivity.
      * constructor; assumption.
    + exists []. split; [reflexivity | constructor].
Qed.

Lemma rstrip_split (t : str) :
  exists w, t = rstrip t ++ w /\ Forall (fun c => is_space c = true) w.
Proof.
  unfold rstrip. destruct (lstrip_split (rev t)) as (w & Hw & Hall).
  exists (rev w). split.
  - rewrite <- rev_app_distr, <- Hw, rev_involutive. reflexivity.
  - apply Forall_rev. exact Hall.
Qed.

Lemma has_strip (starts : str -> bool) (t : str) :
  group_local starts -> has starts (strip t) = has starts t.
Proof.
  intros Hl. unfold strip.
  destruct (lstrip_split t) as (w1 & H1 & Hw1).
  destruct (rstrip_split (lstrip t)) as (w2 & H2 & Hw2).
  rewrite H1 at 2. rewrite (has_app_neutral_l starts Hl)
    by (apply spaces_neutral; assumption).
  rewrite H2 at 2. rewrite (has_app_neutral_r starts Hl)
    by (apply spaces_neutral; assumption).
  reflexivity.
Qed.

Lemma m_ws_neutral : neutral m_ws.
Proof.
  intros c t n r. rewrite m_ws_cons.
  destruct (is_space c) eqn:Hc; [|discriminate].
  intros [= <- <-]. cbn [pred].
  split; [apply space_neutral; exact Hc|]. split; [|split].
  - rewrite <- (take_drop_while is_space t) at 2.
    rewrite firstn_app, Nat.sub_diag, firstn_all. cbn [firstn].
    rewrite app_nil_r. apply spaces_neutral, take_while_all.
  - discriminate.
  - repeat constructor.
Qed.

Lemma m_dollar_neutral : neutral m_dollar.
Proof.
  intros c t n r. rewrite m_dollar_cons.
  destruct (is_dollar c) eqn:Hc; [|discriminate].
  intros [= <- <-]. cbn [pred].
  apply ascii_eqb_eq in Hc. subst c.
  split; [reflexivity|]. split; [|split].
  - rewrite <- (take_drop_while is_space t) at 2.
    rewrite firstn_app, Nat.sub_diag, firstn_all. cbn [firstn].
    rewrite app_nil_r. apply spaces_neutral, take_while_all.
  - discriminate.
  - repeat constructor.
Qed.

Lemma firstn_take_while (p : ascii -> bool) (t : str) :
  forall k, (k <= List.length (take_while p t))%nat ->
            Forall (fun c => p c = true) (firstn k t).
Proof.
  induction t as [|c t IH]; intros [|k] Hk; cbn [firstn]; try constructor.
  - cbn [take_while] in Hk. destruct (p c); [reflexivity | cbn in Hk; lia].
  - apply IH. cbn [take_while] in Hk.
    destruct (p c); cbn [List.length] in Hk; lia.
Qed.

Lemma m_blank_neutral : neutral m_blank.
Proof.
  intros c t n r Hm. apply m_blank_some in Hm.
  destruct Hm as (t' & Ht & Hn & ->). injection Ht as -> ->.
  split; [reflexivity|]. split; [|split].
  - apply spaces_neutral. apply firstn_take_while.
    cbn [take_while] in Hn. change (is_space LF) with true in Hn.
    cbn [List.length] in Hn. lia.
  - discriminate.
  - repeat constructor.
Qed.

(** ** C7: the comma rule is one pass *)

Lemma clean_text_dcd (text : str) :
  has_dcd (clean_text text) = has_dcdcd (before_comma_rule text).
Proof.
  destruct text as [|c t]; [reflexivity|].
  unfold clean_text, before_comma_rule. cbv zeta.
  unfold has_dcd.
  rewrite (has_strip dcd_at _ dcd_local).
  rewrite (has_re_sub dcd_at dcd_local m_blank m_blank_neutral).
  apply has_dcd_re_comma.
Qed.

(** [1,2,3] keeps a comma between digits: the match [1,2] consumes the
    digit that the next comma would need on its left. *)
Lemma C7_overlapping_groups :
  clean_text (lit "1,2,3") = lit "12,3"
  /\ has_dcd (clean_text (lit "1,2,3")) = true.
Proof. split; reflexivity. Qed.

(** C7 (amended).  The comma rule is applied in a single left-to-right
    pass over non-overlapping matches.  The cleaned text therefore holds a
    digit, comma, digit exactly when the text that reaches the rule (the
    input after whitespace collapse, marker substitution and dollar fix)
    holds digit, comma, digit, comma, digit; an ordinary grouped number
    loses all its commas and a comma after a word is left alone. *)
Theorem C7_comma_rule_single_pass (text : str) :
  has_dcd (clean_text text) = has_dcdcd (before_comma_rule text)
  /\ clean_text (lit "Revenue $ 1,000,000, net") = lit "Revenue $1000000, net".
Proof.
  split; [apply clean_text_dcd | reflexivity].
Qed.

(** ** C3: the shape that each rule leaves *)

Lemma good_cons (bad : ascii -> ascii -> bool) (a : ascii) (x : str) :
  good bad (a :: x) = true
  <-> char_ok a = true /\ next_ok bad a x = true /\ good bad x = true.
Proof.
  unfold good. cbn [forallb no_pair].
  rewrite !andb_true_iff. tauto.
Qed.

Lemma good_nil (bad : ascii -> ascii -> bool) : good bad [] = true.
Proof. reflexivity. Qed.

Lemma good_app_r (bad : ascii -> ascii -> bool) (w x : str) :
  good bad (w ++ x) = true -> good bad x = true.
Proof.
  induction w as [|a w IH]; [auto|].
  cbn [app]. rewrite good_cons. intros (_ & _ & H). auto.
Qed.

Lemma good_app_l (bad : ascii -> ascii -> bool) (x w : str) :
  good bad (x ++ w) = true -> good bad x = true.
Proof.
  induction x as [|a x IH]; [reflexivity|].
  cbn [app]. rewrite !good_cons. intros (Ha & Hn & H).
  split; [exact Ha|]. split; [|auto].
  destruct x; [reflexivity | exact Hn].
Qed.

Lemma good_drop_while (bad : ascii -> ascii -> bool) (p : ascii -> bool) (t : str) :
  good bad t = true -> good bad (drop_while p t) = true.
Proof.
  intros H. rewrite <- (take_drop_while p t) in H.
  apply good_app_r in H. exact H.
Qed.

Lemma good_strip (bad : ascii -> ascii -> bool) (t : str) :
  good bad t = true -> good bad (strip t) = true.
Proof.
  intros H. unfold strip.
  destruct (lstrip_split t) as (w1 & H1 & _).
  destruct (rstrip_split (lstrip t)) as (w2 & H2 & _).
  rewrite H1 in H. apply good_app_r in H.
  rewrite H2 in H. apply good_app_l in H. exact H.
Qed.

Lemma good_all_ws (t : str) : good bad_all t = true -> good bad_ws t = true.
Proof.
  induction t as [|a x IH]; [reflexivity|].
  rewrite !good_cons. intros (Ha & Hn & H).
  split; [exact Ha|]. split; [|auto].
  destruct x as [|b x]; [reflexivity|].
  cbn [next_ok] in *. unfold bad_all, bad_ws in *.
  destruct (is_space a); [exact Hn | reflexivity].
Qed.

Lemma next_ok_head (bad : ascii -> ascii -> bool) (a : ascii) (x y : str) :
  hd_error x = hd_error y -> next_ok bad a x = next_ok bad a y.
Proof.
  destruct x, y; cbn; intros H; try discriminate H; try reflexivity.
  injection H as ->. reflexivity.
Qed.

(** The three rewriting rules, one step at a time. *)
Lemma re_ws_cons (c : ascii) (t : str) :
  re_sub m_ws (c :: t)
  = if is_space c then SP :: re_sub m_ws (drop_while is_space t)
    else c :: re_sub m_ws t.
Proof.
  rewrite re_sub_cons, m_ws_cons. destruct (is_space c); [|reflexivity].
  cbn [pred app]. rewrite skipn_take_while. reflexivity.
Qed.

Lemma re_dollar_cons (c : ascii) (t : str) :
  re_sub m_dollar (c :: t)
  = if is_dollar c then c :: re_sub m_dollar (drop_while is_space t)
    else c :: re_sub m_dollar t.
Proof.
  rewrite re_sub_cons, m_dollar_cons. destruct (is_dollar c) eqn:Hc; [|reflexivity].
  cbn [pred app]. rewrite skipn_take_while.
  apply ascii_eqb_eq in Hc. subst c. reflexivity.
Qed.

Lemma re_dollar_head (t : str) : hd_error (re_sub m_dollar t) = hd_error t.
Proof.
  destruct t as [|c t]; [reflexivity|].
  rewrite re_dollar_cons. destruct (is_dollar c); reflexivity.
Qed.

Lemma re_comma_hd (t : str) : hd_error (re_sub m_comma t) = hd_error t.
Proof.
  destruct t as [|c t]; [reflexivity|].
  destruct (re_comma_head c t) as [rest ->]. reflexivity.
Qed.

Lemma digit_code (c : ascii) : is_digit c = true -> (48 <= code c <= 57)%N.
Proof.
  unfold is_digit. cbv zeta. intros H. apply andb_true_iff in H.
  destruct H as [H1 H2]. apply N.leb_le in H1. apply N.leb_le in H2. lia.
Qed.

Lemma digit_not_space (c : ascii) : is_digit c = true -> is_space c = false.
Proof.
  intros H. destruct (is_space c) eqn:Hs; [|reflexivity].
  apply space_neutral in Hs. unfold in_group in Hs. rewrite H in Hs.
  discriminate Hs.
Qed.

Lemma head_not_space (t : str) :
  match t with c :: _ => is_space c = false | [] => True end ->
  forall a bad, (forall b, is_space b = false -> bad a b = false) ->
                next_ok bad a t = true.
Proof.
  destruct t as [|c t]; [reflexivity|].
  intros Hc a bad Hbad. cbn [next_ok]. rewrite Hbad by assumption. reflexivity.
Qed.

(** What each rule guarantees about its result. *)
Lemma good_re_ws (t : str) : good bad_ws (re_sub m_ws t) = true.
Proof.
  induction t as [t IH] using str_length_ind.
  destruct t as [|c t]; [reflexivity|].
  rewrite re_ws_cons. destruct (is_space c) eqn:Hs.
  - apply good_cons. split; [reflexivity|]. split.
    + pose proof (drop_while_head is_space t) as Hd.
      destruct (drop_while is_space t) as [|c' x]; [reflexivity|].
      rewrite re_ws_cons, Hd. cbn [next_ok]. unfold bad_ws.
      rewrite Hd, andb_false_r. reflexivity.
    + apply IH. pose proof (drop_while_length is_space t). cbn. lia.
  - apply good_cons. split; [|split].
    + unfold char_ok. rewrite Hs. reflexivity.
    + destruct (re_sub m_ws t); [reflexivity|]. cbn [next_ok]. unfold bad_ws.
      rewrite Hs. reflexivity.
    + apply IH. cbn. lia.
Qed.

Lemma good_re_dollar (t : str) :
  good bad_ws t = true -> good bad_all (re_sub m_dollar t) = true.
Proof.
  induction t as [t IH] using str_length_ind.
  destruct t as [|c t]; [reflexivity|].
  rewrite good_cons. intros (Hc & Hn & Ht).
  rewrite re_dollar_cons. destruct (is_dollar c) eqn:Hd.
  - apply good_cons. split; [exact Hc|]. split.
    + apply head_not_space.
      * pose proof (drop_while_head is_space t) as Hh.
        pose proof (re_dollar_head (drop_while is_space t)) as Hhd.
        destruct (drop_while is_space t) as [|c' x];
          destruct (re_sub m_dollar _) as [|d y]; try discriminate Hhd;
          try exact I.
        injection Hhd as ->. exact Hh.
      * intros b Hb. unfold bad_all. rewrite Hb. apply andb_false_r.
    + apply IH.
      * pose proof (drop_while_length is_space t). cbn. lia.
      * apply good_drop_while. exact Ht.
  - apply good_cons. split; [exact Hc|]. split.
    + rewrite (next_ok_head _ _ _ t) by apply re_dollar_head.
      destruct t as [|b t]; [reflexivity|]. cbn [next_ok] in *.
      unfold bad_all, bad_ws in *. rewrite Hd, orb_false_r. exact Hn.
    + apply IH; [cbn; lia | exact Ht].
Qed.

Lemma good_re_comma (t : str) :
  good bad_all t = true -> good bad_all (re_sub m_comma t) = true.
Proof.
  induction t as [t IH] using str_length_ind.
  destruct t as [|a t]; [reflexivity|].
  destruct (dcd_at (a :: t)) eqn:Hd.
  - destruct t as [|b [|c t]]; try discriminate Hd.
    cbn [dcd_at] in Hd. apply andb_true_iff in Hd. destruct Hd as [Hd Hc].
    apply andb_true_iff in Hd. destruct Hd as [Ha Hb].
    apply ascii_eqb_eq in Hb. subst b.
    rewrite re_comma_match by assumption.
    rewrite !good_cons. intros (Hca & _ & _ & _ & Hcc & Hn & Ht).
    split; [exact Hca|]. split; [|split; [exact Hcc|split]].
    + cbn [next_ok]. unfold bad_all.
      rewrite (digit_not_space c Hc), andb_false_r. reflexivity.
    + rewrite (next_ok_head _ _ _ t) by apply re_comma_hd. exact Hn.
    + apply IH; [cbn; lia | exact Ht].
  - rewrite re_comma_skip by assumption.
    rewrite !good_cons. intros (Hca & Hn & Ht).
    split; [exact Hca|]. split.
    + rewrite (next_ok_head _ _ _ t) by apply re_comma_hd. exact Hn.
    + apply IH; [cbn; lia | exact Ht].
Qed.

(** Texts that each rule leaves alone. *)
Lemma re_sub_first_char (m : matcher) (p : ascii -> bool) :
  (forall c t n r, m (c :: t) = Some (n, r) -> p c = true) ->
  forall t, forallb (fun c => negb (p c)) t = true -> re_sub m t = t.
Proof.
  intros Hm. induction t as [|c t IH]; [reflexivity|].
  cbn [forallb]. intros H. apply andb_true_iff in H. destruct H as [Hc Ht].
  rewrite re_sub_cons. destruct (m (c :: t)) as [[n r]|] eqn:E.
  - apply Hm in E. rewrite E in Hc. discriminate Hc.
  - rewrite IH by assumption. reflexivity.
Qed.

Lemma forallb_impl (p q : ascii -> bool) (t : str) :
  (forall c, p c = true -> q c = true) ->
  forallb p t = true -> forallb q t = true.
Proof.
  intros Hpq. induction t as [|c t IH]; [reflexivity|].
  cbn [forallb]. rewrite !andb_true_iff. intros [Hc Ht]. auto.
Qed.

Lemma char_ok_not_lf (c : ascii) : char_ok c = true -> negb (is_lf c) = true.
Proof.
  unfold char_ok. intros H.
  destruct (is_lf c) eqn:Hl; [|reflexivity].
  apply ascii_eqb_eq in Hl. subst c. discriminate H.
Qed.

Lemma good_chars (bad : ascii -> ascii -> bool) (t : str) :
  good bad t = true -> forallb char_ok t = true.
Proof. unfold good. rewrite andb_true_iff. tauto. Qed.

Lemma re_blank_fixed (bad : ascii -> ascii -> bool) (t : str) :
  good bad t = true -> re_sub m_blank t = t.
Proof.
  intros H. apply (re_sub_first_char m_blank is_lf).
  - intros c t' n r Hm. apply m_blank_some in Hm.
    destruct Hm as (x & Hx & _). injection Hx as -> _. reflexivity.
  - apply (forallb_impl char_ok); [apply char_ok_not_lf|].
    apply (good_chars bad). exact H.
Qed.

Lemma next_ok_all_space (a : ascii) (t : str) :
  (is_space a || is_dollar a) = true ->
  next_ok bad_all a t = true ->
  drop_while is_space t = t.
Proof.
  intros Ha Hn. apply drop_while_none.
  destruct t as [|b t]; [exact I|].
  cbn [next_ok] in Hn. unfold bad_all in Hn. rewrite Ha in Hn.
  cbn [andb] in Hn. destruct (is_space b); [discriminate Hn | reflexivity].
Qed.

Lemma re_ws_fixed (t : str) : good bad_all t = true -> re_sub m_ws t = t.
Proof.
  induction t as [|c t IH]; [reflexivity|].
  rewrite good_cons. intros (Hc & Hn & Ht).
  rewrite re_ws_cons. destruct (is_space c) eqn:Hs.
  - rewrite (next_ok_all_space c t) by (rewrite ?Hs; auto).
    rewrite IH by assumption.
    unfold char_ok in Hc. rewrite Hs in Hc. cbn [negb orb] in Hc.
    apply ascii_eqb_eq in Hc. subst c. reflexivity.
  - rewrite IH by assumption. reflexivity.
Qed.

Lemma re_dollar_fixed (t : str) : good bad_all t = true -> re_sub m_dollar t = t.
Proof.
  induction t as [|c t IH]; [reflexivity|].
  rewrite good_cons. intros (Hc & Hn & Ht).
  rewrite re_dollar_cons. destruct (is_dollar c) eqn:Hd.
  - rewrite (next_ok_all_space c t) by (rewrite ?Hd, ?orb_true_r; auto).
    rewrite IH by assumption. reflexivity.
  - rewrite IH by assumption. reflexivity.
Qed.

Lemma lstrip_fixed (t : str) :
  match t with c :: _ => is_space c = false | [] => True end -> lstrip t = t.
Proof. destruct t as [|c t]; cbn; [reflexivity|]. intros ->. reflexivity. Qed.

Lemma lstrip_head (t : str) :
  match lstrip t with c :: _ => is_space c = false | [] => True end.
Proof.
  induction t as [|c t IH]; cbn; [exact I|].
  destruct (is_space c) eqn:Hc; [exact IH | exact Hc].
Qed.

Lemma lstrip_twice (t : str) : lstrip (lstrip t) = lstrip t.
Proof. apply lstrip_fixed, lstrip_head. Qed.

Lemma rstrip_twice (t : str) : rstrip (rstrip t) = rstrip t.
Proof. unfold rstrip. rewrite rev_involutive, lstrip_twice. reflexivity. Qed.

Lemma lstrip_rstrip (t : str) :
  match t with c :: _ => is_space c = false | [] => True end ->
  lstrip (rstrip t) = rstrip t.
Proof.
  intros Hh. apply lstrip_fixed.
  destruct (rstrip_split t) as (w & Hw & _).
  destruct (rstrip t) as [|c x]; [exact I|].
  rewrite Hw in Hh. exact Hh.
Qed.

Lemma strip_twice (t : str) : strip (strip t) = strip t.
Proof.
  unfold strip. rewrite (lstrip_rstrip (lstrip t)) by apply lstrip_head.
  apply rstrip_twice.
Qed.

Lemma lstrip_length (t : str) : (List.length (lstrip t) <= List.length t)%nat.
Proof.
  induction t as [|c t IH]; cbn; [lia|]. destruct (is_space c); cbn; lia.
Qed.

Lemma strip_length (t : str) : (List.length (strip t) <= List.length t)%nat.
Proof.
  unfold strip, rstrip. rewrite length_rev.
  pose proof (lstrip_length (rev (lstrip t))) as H1.
  rewrite length_rev in H1. pose proof (lstrip_length t). lia.
Qed.

(** ** Markers *)

Lemma match_lit_some (p t r : str) : match_lit p t = Some r -> t = p ++ r.
Proof.
  unfold match_lit. destruct (starts_with p t) eqn:Hs; [|discriminate].
  intros [= <-]. revert t Hs. induction p as [|x p IH]; intros t Hs.
  - reflexivity.
  - destruct t as [|y t]; [discriminate Hs|]. cbn [starts_with] in Hs.
    apply andb_true_iff in Hs. destruct Hs as [Hx Hp].
    apply ascii_eqb_eq in Hx. subst y. cbn [List.length skipn app].
    f_equal. apply IH. exact Hp.
Qed.

Lemma match_lit_app (p r : str) : match_lit p (p ++ r) = Some r.
Proof.
  unfold match_lit.
  assert (H : starts_with p (p ++ r) = true
              /\ skipn (List.length p) (p ++ r) = r).
  { induction p as [|x p IH]; [split; reflexivity|].
    cbn [app starts_with List.length skipn]. destruct IH as [-> ->].
    split; [|reflexivity]. rewrite andb_true_r.
    unfold ascii_eqb. apply Ascii.eqb_refl. }
  destruct H as [-> ->]. reflexivity.
Qed.

Section Runs.

Variable inside : ascii -> bool.
Variable valid : str -> bool.

Lemma match_run_some (t r : str) :
  match_run inside valid t = Some r ->
  exists n, valid n = true /\ Forall (fun c => inside c = true) n
            /\ t = n ++ r /\ run_ends inside r.
Proof.
  unfold match_run. destruct (valid (take_while inside t)) eqn:Hv; [|discriminate].
  intros [= <-]. exists (take_while inside t).
  split; [exact Hv|]. split; [apply take_while_all|].
  split; [symmetry; apply take_drop_while | apply drop_while_head].
Qed.

Lemma match_run_app (n r : str) :
  valid n = true -> Forall (fun c => inside c = true) n ->
  run_ends inside r ->
  match_run inside valid (n ++ r) = Some r.
Proof.
  intros Hv Hn Hr. unfold match_run.
  assert (Ht : take_while inside (n ++ r) = n
               /\ drop_while inside (n ++ r) = r).
  { clear Hv. induction Hn as [|c n Hc _ IH].
    - cbn [app]. destruct r as [|c r]; [split; reflexivity|].
      unfold run_ends in Hr. cbn [take_while drop_while].
      rewrite Hr. split; reflexivity.
    - cbn [app take_while drop_while]. rewrite Hc.
      destruct IH as [-> ->]. split; reflexivity. }
  destruct Ht as [-> ->]. rewrite Hv. reflexivity.
Qed.

Local Abbreviation num := (match_run inside valid).

(** The space and the closing parenthesis end a run. *)
Hypothesis space_ends : inside SP = false.
Hypothesis paren_ends : inside (chr 41) = false.

Lemma page_with_some (t r : str) :
  page_with num t = Some r ->
  exists n, valid n = true /\ Forall (fun c => inside c = true) n
            /\ t = lit "--- Page " ++ n ++ lit " ---" ++ r.
Proof.
  unfold page_with.
  destruct (match_lit _ t) as [t1|] eqn:H1; cbn [bind_opt]; [|discriminate].
  destruct (num t1) as [t2|] eqn:H2; cbn [bind_opt]; [|discriminate].
  intros H3.
  apply match_lit_some in H1, H3. apply match_run_some in H2.
  destruct H2 as (n & Hv & Hn & H2 & _). exists n.
  split; [exact Hv|]. split; [exact Hn|]. subst. reflexivity.
Qed.

Lemma page_with_app (n r : str) :
  valid n = true -> Forall (fun c => inside c = true) n ->
  page_with num (lit "--- Page " ++ n ++ lit " ---" ++ r) = Some r.
Proof.
  intros Hv Hn. unfold page_with.
  rewrite match_lit_app. cbn [bind_opt].
  rewrite (match_run_app n _ Hv Hn) by exact space_ends. cbn [bind_opt].
  apply match_lit_app.
Qed.

Lemma table_with_some (t r : str) :
  table_with num t = Some r ->
  exists n k, valid n = true /\ Forall (fun c => inside c = true) n
              /\ valid k = true /\ Forall (fun c => inside c = true) k
              /\ t = lit "--- Table " ++ n ++ lit " (Page " ++ k
                     ++ lit ") ---" ++ r.
Proof.
  unfold table_with.
  destruct (match_lit _ t) as [t1|] eqn:H1; cbn [bind_opt]; [|discriminate].
  destruct (num t1) as [t2|] eqn:H2; cbn [bind_opt]; [|discriminate].
  destruct (match_lit _ t2) as [t3|] eqn:H3; cbn [bind_opt]; [|discriminate].
  destruct (num t3) as [t4|] eqn:H4; cbn [bind_opt]; [|discriminate].
  intros H5.
  apply match_lit_some in H1, H3, H5. apply match_run_some in H2, H4.
  destruct H2 as (n & Hvn & Hn & H2 & _). destruct H4 as (k & Hvk & Hk & H4 & _).
  exists n, k. repeat (split; [assumption|]). subst. reflexivity.
Qed.

Lemma table_with_app (n k r : str) :
  valid n = true -> Forall (fun c => inside c = true) n ->
  valid k = true -> Forall (fun c => inside c = true) k ->
  table_with num (lit "--- Table " ++ n ++ lit " (Page " ++ k
                  ++ lit ") ---" ++ r) = Some r.
Proof.
  intros Hvn Hn Hvk Hk. unfold table_with.
  rewrite match_lit_app. cbn [bind_opt].
  rewrite (match_run_app n _ Hvn Hn) by exact space_ends. cbn [bind_opt].
  rewrite match_lit_app. cbn [bind_opt].
  rewrite (match_run_app k _ Hvk Hk) by exact paren_ends. cbn [bind_opt].
  apply match_lit_app.
Qed.

End Runs.

(** The matchers of [clean_text] recognise the markers whose numbers are
    runs of digits. *)
Lemma match_digits_eq (t : str) : match_digits1 t = match_digits t.
Proof.
  unfold match_digits1, match_digits, match_run.
  destruct t as [|c t]; [reflexivity|]. cbn [take_while].
  destruct (is_digit c); reflexivity.
Qed.

Lemma matches_page (t : str) :
  matches m_page t = is_some (page_with match_digits t).
Proof.
  unfold matches, m_page, page_with.
  destruct (match_lit _ t) as [t1|]; cbn [bind_opt]; [|reflexivity].
  rewrite match_digits_eq.
  destruct (match_digits t1) as [t2|]; cbn [bind_opt]; [|reflexivity].
  destruct (match_lit _ t2) as [t3|]; reflexivity.
Qed.

Lemma matches_table (t : str) :
  matches m_table t = is_some (table_with match_digits t).
Proof.
  unfold matches, m_table, table_with.
  destruct (match_lit _ t) as [t1|]; cbn [bind_opt]; [|reflexivity].
  rewrite match_digits_eq.
  destruct (match_digits t1) as [t2|]; cbn [bind_opt]; [|reflexivity].
  destruct (match_lit _ t2) as [t3|]; cbn [bind_opt]; [|reflexivity].
  rewrite match_digits_eq.
  destruct (match_digits t3) as [t4|]; cbn [bind_opt]; [|reflexivity].
  destruct (match_lit _ t4) as [t5|]; reflexivity.
Qed.

Lemma is_some_true {A} (o : option A) : is_some o = true -> exists a, o = Some a.
Proof. destruct o as [a|]; [exists a; reflexivity | discriminate]. Qed.

(** ** Numbers with commas *)

Lemma digits_in_group (n : str) :
  Forall (fun c => is_digit c = true) n -> Forall (fun c => in_group c = true) n.
Proof.
  apply Forall_impl. intros c H. unfold in_group. rewrite H. reflexivity.
Qed.

Lemma grouped_cons (a : ascii) (g : str) :
  is_digit a = true -> g = [] \/ grouped g = true -> grouped (a :: g) = true.
Proof.
  intros Ha [->|Hg]; cbn [grouped]; rewrite Ha; [reflexivity|].
  destruct g as [|b g']; [reflexivity|]. cbn [andb].
  assert (Hb : is_digit b = true).
  { cbn [grouped] in Hg. apply andb_true_iff in Hg. tauto. }
  rewrite (digit_not_comma b Hb). exact Hg.
Qed.

Lemma grouped_digits (n : str) :
  nonempty n = true -> Forall (fun c => is_digit c = true) n -> grouped n = true.
Proof.
  intros Hne Hn. induction Hn as [|c n Hc Hn IH]; [discriminate Hne|].
  apply grouped_cons; [exact Hc|].
  destruct n as [|d n]; [left; reflexivity | right; apply IH; reflexivity].
Qed.

Lemma grouped_in_group (g : str) :
  grouped g = true -> Forall (fun c => in_group c = true) g.
Proof.
  induction g as [g IH] using str_length_ind.
  destruct g as [|a g]; [discriminate|]. cbn [grouped].
  intros H. apply andb_true_iff in H. destruct H as [Ha H].
  constructor; [unfold in_group; rewrite Ha; reflexivity|].
  destruct g as [|b g']; [constructor|].
  destruct (is_comma b) eqn:Hb.
  - constructor; [unfold in_group; rewrite Hb; apply orb_true_r|].
    apply IH; [cbn; lia | exact H].
  - apply IH; [cbn; lia | exact H].
Qed.

(** A marker of the matchers is a marker. *)
Lemma page_marker_of_match (t : str) :
  matches m_page t = true -> page_marker_at t = true.
Proof.
  rewrite matches_page. intros H. apply is_some_true in H. destruct H as [r H].
  apply page_with_some in H. destruct H as (n & Hv & Hn & ->).
  unfold page_marker_at, match_number.
  rewrite page_with_app; [reflexivity | reflexivity | |].
  - apply grouped_digits; assumption.
  - apply digits_in_group. exact Hn.
Qed.

Lemma table_marker_of_match (t : str) :
  matches m_table t = true -> table_marker_at t = true.
Proof.
  rewrite matches_table. intros H. apply is_some_true in H. destruct H as [r H].
  apply table_with_some in H.
  destruct H as (n & k & Hvn & Hn & Hvk & Hk & ->).
  unfold table_marker_at, match_number.
  rewrite table_with_app; try reflexivity.
  - apply grouped_digits; assumption.
  - apply digits_in_group. exact Hn.
  - apply grouped_digits; assumption.
  - apply digits_in_group. exact Hk.
Qed.

(** ** Occurrences *)

Lemma has_app_r (starts : str -> bool) (u v : str) :
  has starts v = true -> has starts (u ++ v) = true.
Proof.
  intros H. induction u as [|c u IH]; [exact H|].
  cbn [app has]. rewrite IH. apply orb_true_r.
Qed.

Lemma has_app_l (starts : str -> bool) (u w : str) :
  (forall v, starts v = true -> starts (v ++ w) = true) ->
  has starts u = true -> has starts (u ++ w) = true.
Proof.
  intros Hext. induction u as [|c u IH]; [discriminate|].
  cbn [app has]. intros H. apply orb_true_iff in H. destruct H as [H|H].
  - apply (Hext (c :: u)) in H. cbn [app] in H. rewrite H. reflexivity.
  - rewrite IH by exact H. apply orb_true_r.
Qed.

Lemma has_impl (p q : str -> bool) (t : str) :
  (forall s, p s = true -> q s = true) -> has p t = true -> has q t = true.
Proof.
  intros Hpq. induction t as [|c t IH]; [discriminate|].
  cbn [has]. intros H. apply orb_true_iff in H. destruct H as [H|H].
  - rewrite (Hpq _ H). reflexivity.
  - rewrite IH by exact H. apply orb_true_r.
Qed.

Lemma has_strip_back (starts : str -> bool) (t : str) :
  (forall v w, starts v = true -> starts (v ++ w) = true) ->
  has starts (strip t) = true -> has starts t = true.
Proof.
  intros Hext H. unfold strip in H.
  destruct (lstrip_split t) as (w1 & H1 & _).
  destruct (rstrip_split (lstrip t)) as (w2 & H2 & _).
  rewrite H1. apply has_app_r. rewrite H2. apply has_app_l; [|exact H].
  intros v. apply Hext.
Qed.

(** Where a matcher finds nothing, the substitution changes nothing. *)
Lemma re_sub_idle (m : matcher) (t : str) :
  has (matches m) t = false -> re_sub m t = t.
Proof.
  induction t as [|c t IH]; [reflexivity|].
  cbn [has]. intros H. apply orb_false_iff in H. destruct H as [H1 H2].
  rewrite re_sub_cons. unfold matches in H1.
  destruct (m (c :: t)) as [[n r]|]; [discriminate H1|].
  rewrite IH by exact H2. reflexivity.
Qed.

Lemma page_match_ext (v w : str) :
  matches m_page v = true -> matches m_page (v ++ w) = true.
Proof.
  rewrite !matches_page. intros H. apply is_some_true in H. destruct H as [r H].
  apply page_with_some in H. destruct H as (n & Hv & Hn & ->).
  rewrite <- !app_assoc. unfold match_digits.
  rewrite page_with_app; auto.
Qed.

Lemma table_match_ext (v w : str) :
  matches m_table v = true -> matches m_table (v ++ w) = true.
Proof.
  rewrite !matches_table. intros H. apply is_some_true in H. destruct H as [r H].
  apply table_with_some in H.
  destruct H as (n & k & Hvn & Hn & Hvk & Hk & ->).
  rewrite <- !app_assoc. unfold match_digits.
  rewrite table_with_app; auto.
Qed.

(** ** Markers and the dollar rule *)

Lemma re_dollar_prefix (u : str) :
  Forall (fun c => is_dollar c = false) u ->
  forall s r, re_sub m_dollar s = u ++ r -> exists s', s = u ++ s'.
Proof.
  induction 1 as [|c u Hc _ IH]; intros s r Hs.
  - exists s. reflexivity.
  - destruct s as [|a s]; [discriminate Hs|].
    rewrite re_dollar_cons in Hs. cbn [app] in Hs.
    destruct (is_dollar a) eqn:Ha.
    + injection Hs as -> _. rewrite Hc in Ha. discriminate Ha.
    + injection Hs as -> Hs. destruct (IH _ _ Hs) as [s' ->].
      exists s'. reflexivity.
Qed.

Lemma group_not_dollar (n : str) :
  Forall (fun c => in_group c = true) n -> Forall (fun c => is_dollar c = false) n.
Proof.
  apply Forall_impl. intros c H. unfold in_group in H.
  destruct (is_dollar c) eqn:Hd; [|reflexivity].
  apply ascii_eqb_eq in Hd. subst c. discriminate H.
Qed.

Lemma lit_not_dollar (p : str) :
  forallb (fun c => negb (is_dollar c)) p = true ->
  Forall (fun c => is_dollar c = false) p.
Proof.
  intros H. apply Forall_forall. intros c Hc.
  rewrite forallb_forall in H. apply H in Hc.
  destruct (is_dollar c); [discriminate Hc | reflexivity].
Qed.

Lemma page_marker_re_dollar (s : str) :
  page_marker_at (re_sub m_dollar s) = true -> page_marker_at s = true.
Proof.
  unfold page_marker_at, match_number. intros H.
  apply is_some_true in H. destruct H as [r H].
  apply page_with_some in H. destruct H as (n & Hv & Hn & H).
  rewrite !app_assoc in H. apply re_dollar_prefix in H.
  - destruct H as [s' ->]. rewrite <- !app_assoc.
    rewrite page_with_app; auto.
  - apply Forall_app. split; [apply Forall_app; split|].
    + apply lit_not_dollar. reflexivity.
    + apply group_not_dollar. exact Hn.
    + apply lit_not_dollar. reflexivity.
Qed.

Lemma table_marker_re_dollar (s : str) :
  table_marker_at (re_sub m_dollar s) = true -> table_marker_at s = true.
Proof.
  unfold table_marker_at, match_number. intros H.
  apply is_some_true in H. destruct H as [r H].
  apply table_with_some in H.
  destruct H as (n & k & Hvn & Hn & Hvk & Hk & H).
  rewrite !app_assoc in H. apply re_dollar_prefix in H.
  - destruct H as [s' ->]. rewrite <- !app_assoc.
    rewrite table_with_app; auto.
  - apply Forall_app. split; [apply Forall_app; split|].
    + apply Forall_app. split; [apply Forall_app; split|].
      * apply lit_not_dollar. reflexivity.
      * apply group_not_dollar. exact Hn.
      * apply lit_not_dollar. reflexivity.
    + apply group_not_dollar. exact Hk.
    + apply lit_not_dollar. reflexivity.
Qed.

Section DollarRule.

Variable marker_at : str -> bool.
Hypothesis marker_re_dollar :
  forall s, marker_at (re_sub m_dollar s) = true -> marker_at s = true.
Hypothesis marker_head :
  forall c t, marker_at (c :: t) = true -> is_dollar c = false.

Lemma has_marker_re_dollar (t : str) :
  has marker_at (re_sub m_dollar t) = true -> has marker_at t = true.
Proof.
  induction t as [t IH] using str_length_ind.
  destruct t as [|c t]; [discriminate|].
  intros H. pose proof H as H0. rewrite re_dollar_cons in H.
  destruct (is_dollar c) eqn:Hc; cbn [has] in H;
    apply orb_true_iff in H; destruct H as [H|H].
  - apply marker_head in H. rewrite Hc in H. discriminate H.
  - cbn [has]. rewrite <- (take_drop_while is_space t).
    rewrite has_app_r; [apply orb_true_r|].
    apply IH; [|exact H].
    pose proof (drop_while_length is_space t). cbn. lia.
  - cbn [has]. rewrite marker_re_dollar; [reflexivity|].
    rewrite re_dollar_cons, Hc. exact H.
  - cbn [has]. rewrite IH; [apply orb_true_r | cbn; lia | exact H].
Qed.

End DollarRule.

(** ** Markers and the comma rule *)

Lemma dcd_at_digit (a : ascii) (t : str) :
  dcd_at (a :: t) = true ->
  exists c t', t = chr 44 :: c :: t' /\ is_digit a = true /\ is_digit c = true.
Proof.
  destruct t as [|b [|c t']]; try discriminate. cbn [dcd_at].
  intros H. apply andb_true_iff in H. destruct H as [H Hc].
  apply andb_true_iff in H. destruct H as [Ha Hb].
  apply ascii_eqb_eq in Hb. subst b. exists c, t'. auto.
Qed.

Lemma dcd_at_head (a : ascii) (t : str) :
  is_digit a = false -> dcd_at (a :: t) = false.
Proof.
  intros Ha. destruct (dcd_at (a :: t)) eqn:H; [|reflexivity].
  apply dcd_at_digit in H. destruct H as (c & t' & _ & H & _).
  rewrite H in Ha. discriminate Ha.
Qed.

(** Where the result of the comma rule starts with characters that are no
    digits, so does its argument. *)
Lemma re_comma_lit (u : str) :
  Forall (fun c => is_digit c = false) u ->
  forall s r, re_sub m_comma s = u ++ r ->
              exists s', s = u ++ s' /\ re_sub m_comma s' = r.
Proof.
  induction 1 as [|c u Hc _ IH]; intros s r Hs.
  - exists s. split; [reflexivity | exact Hs].
  - destruct s as [|a s]; [discriminate Hs|].
    destruct (re_comma_head a s) as [rest Hrest].
    assert (Hac : a = c) by (rewrite Hrest in Hs; injection Hs; auto).
    subst a. rewrite re_comma_skip in Hs by (apply dcd_at_head; exact Hc).
    injection Hs as Hs. destruct (IH _ _ Hs) as (s' & -> & Hs').
    exists s'. split; [reflexivity | exact Hs'].
Qed.

(** Where it starts with digits followed by a character that is neither a
    digit nor a comma, its argument starts with a number. *)
Lemma re_comma_digits (c : ascii) (r : str) :
  in_group c = false ->
  forall s d,
    Forall (fun x => is_digit x = true) d ->
    re_sub m_comma s = d ++ c :: r ->
    exists g s',
      s = g ++ c :: s' /\ re_sub m_comma s' = r
      /\ (g = [] \/ grouped g = true) /\ (d <> [] -> g <> []).
Proof.
  intros Hc. induction s as [s IH] using str_length_ind.
  intros d Hd Hs. destruct Hd as [|x d Hx Hd].
  - apply (re_comma_lit [c]) in Hs.
    + destruct Hs as (s' & -> & Hs'). exists [], s'.
      split; [reflexivity|]. split; [exact Hs'|]. split; [left; reflexivity|].
      congruence.
    + constructor; [|constructor]. unfold in_group in Hc.
      apply orb_false_iff in Hc. tauto.
  - destruct s as [|a s]; [discriminate Hs|].
    destruct (re_comma_head a s) as [rest Hrest].
    assert (Hax : a = x) by (rewrite Hrest in Hs; injection Hs; auto).
    subst a. destruct (dcd_at (x :: s)) eqn:Hdcd.
    + apply dcd_at_digit in Hdcd. destruct Hdcd as (y & s2 & -> & _ & Hy).
      rewrite re_comma_match in Hs by assumption.
      cbn [app] in Hs. injection Hs as Hs.
      destruct Hd as [|z d Hz Hd].
      * cbn [app] in Hs. injection Hs as -> _.
        unfold in_group in Hc. rewrite Hy in Hc. discriminate Hc.
      * cbn [app] in Hs. injection Hs as -> Hs.
        destruct (IH s2 ltac:(cbn; lia) d Hd Hs) as (g & s' & -> & Hs' & Hg & _).
        exists (x :: chr 44 :: z :: g), s'.
        split; [reflexivity|]. split; [exact Hs'|].
        split; [|discriminate]. right.
        change (grouped (x :: chr 44 :: z :: g))
          with (is_digit x && grouped (z :: g)).
        rewrite Hx. apply grouped_cons; assumption.
    + rewrite re_comma_skip in Hs by exact Hdcd.
      cbn [app] in Hs. injection Hs as Hs.
      destruct (IH s ltac:(cbn; lia) d Hd Hs) as (g & s' & -> & Hs' & Hg & _).
      exists (x :: g), s'.
      split; [reflexivity|]. split; [exact Hs'|].
      split; [|discriminate]. right. apply grouped_cons; assumption.
Qed.

Lemma re_comma_number (c : ascii) (r : str) (s d : str) :
  in_group c = false -> nonempty d = true ->
  Forall (fun x => is_digit x = true) d ->
  re_sub m_comma s = d ++ c :: r ->
  exists g s', s = g ++ c :: s' /\ re_sub m_comma s' = r /\ grouped g = true.
Proof.
  intros Hc Hne Hd Hs.
  destruct (re_comma_digits c r Hc s d Hd Hs) as (g & s' & H1 & H2 & Hg & Hgne).
  exists g, s'. split; [exact H1|]. split; [exact H2|].
  destruct Hg as [->|Hg]; [|exact Hg].
  exfalso. apply Hgne; [|reflexivity]. intros ->. discriminate Hne.
Qed.

Lemma lit_not_digit (p : str) :
  forallb (fun c => negb (is_digit c)) p = true ->
  Forall (fun c => is_digit c = false) p.
Proof.
  intros H. apply Forall_forall. intros c Hc.
  rewrite forallb_forall in H. apply H in Hc.
  destruct (is_digit c); [discriminate Hc | reflexivity].
Qed.

Lemma page_marker_re_comma (s : str) :
  matches m_page (re_sub m_comma s) = true -> page_marker_at s = true.
Proof.
  rewrite matches_page. intros H. apply is_some_true in H. destruct H as [r H].
  apply page_with_some in H. destruct H as (d & Hne & Hd & H).
  apply re_comma_lit in H; [|apply lit_not_digit; reflexivity].
  destruct H as (s1 & -> & H).
  apply (re_comma_number SP) in H; [|reflexivity|assumption|assumption].
  destruct H as (g & s2 & -> & H & Hg).
  apply (re_comma_lit (lit "---")) in H; [|apply lit_not_digit; reflexivity].
  destruct H as (s3 & -> & _).
  unfold page_marker_at, match_number.
  change (SP :: lit "---" ++ s3) with (lit " ---" ++ s3).
  rewrite page_with_app; auto using grouped_in_group.
Qed.

Lemma table_marker_re_comma (s : str) :
  matches m_table (re_sub m_comma s) = true -> table_marker_at s = true.
Proof.
  rewrite matches_table. intros H. apply is_some_true in H. destruct H as [r H].
  apply table_with_some in H.
  destruct H as (d & e & Hdne & Hd & Hene & He & H).
  apply re_comma_lit in H; [|apply lit_not_digit; reflexivity].
  destruct H as (s1 & -> & H).
  apply (re_comma_number SP) in H; [|reflexivity|assumption|assumption].
  destruct H as (g & s2 & -> & H & Hg).
  apply (re_comma_lit (lit "(Page ")) in H; [|apply lit_not_digit; reflexivity].
  destruct H as (s3 & -> & H).
  apply (re_comma_number (chr 41)) in H; [|reflexivity|assumption|assumption].
  destruct H as (k & s4 & -> & H & Hk).
  apply (re_comma_lit (lit " ---")) in H; [|apply lit_not_digit; reflexivity].
  destruct H as (s5 & -> & _).
  unfold table_marker_at, match_number.
  change (SP :: lit "(Page " ++ k ++ chr 41 :: lit " ---" ++ s5)
    with (lit " (Page " ++ k ++ lit ") ---" ++ s5).
  rewrite table_with_app; auto using grouped_in_group.
Qed.

Section CommaRule.

Variable m : matcher.
Variable marker_at : str -> bool.
Hypothesis marker_re_comma :
  forall s, matches m (re_sub m_comma s) = true -> marker_at s = true.
Hypothesis match_head :
  forall c t, matches m (c :: t) = true -> is_digit c = false.

Lemma has_marker_re_comma (t : str) :
  has (matches m) (re_sub m_comma t) = true -> has marker_at t = true.
Proof.
  induction t as [t IH] using str_length_ind.
  destruct t as [|a t]; [discriminate|].
  destruct (dcd_at (a :: t)) eqn:Hd.
  - apply dcd_at_digit in Hd. destruct Hd as (c & t' & -> & Ha & Hc).
    rewrite re_comma_match by assumption. cbn [has]. intros H.
    apply orb_true_iff in H. destruct H as [H|H].
    { apply match_head in H. rewrite Ha in H. discriminate H. }
    apply orb_true_iff in H. destruct H as [H|H].
    { apply match_head in H. rewrite Hc in H. discriminate H. }
    rewrite IH; [rewrite !orb_true_r; reflexivity | cbn; lia | exact H].
  - intros H. pose proof H as H0. rewrite re_comma_skip in H by exact Hd.
    cbn [has] in *. apply orb_true_iff in H. destruct H as [H|H].
    + rewrite marker_re_comma; [reflexivity|].
      rewrite re_comma_skip by exact Hd. exact H.
    + rewrite IH; [apply orb_true_r | cbn; lia | exact H].
Qed.

End CommaRule.

Lemma page_match_head (c : ascii) (t : str) :
  matches m_page (c :: t) = true -> is_digit c = false.
Proof.
  unfold matches. destruct (m_page (c :: t)) as [[n r]|] eqn:H; [|discriminate].
  intros _. apply m_page_some in H. destruct H as [t' [= -> _]]. reflexivity.
Qed.

Lemma table_match_head (c : ascii) (t : str) :
  matches m_table (c :: t) = true -> is_digit c = false.
Proof.
  unfold matches. destruct (m_table (c :: t)) as [[n r]|] eqn:H; [|discriminate].
  intros _. apply m_table_some in H. destruct H as [t' [= -> _]]. reflexivity.
Qed.

Lemma page_marker_head (c : ascii) (t : str) :
  page_marker_at (c :: t) = true -> is_dollar c = false.
Proof.
  unfold page_marker_at. intros H. apply is_some_true in H. destruct H as [r H].
  apply page_with_some in H.
  destruct H as (n & _ & _ & [= -> _]). reflexivity.
Qed.

Lemma table_marker_head (c : ascii) (t : str) :
  table_marker_at (c :: t) = true -> is_dollar c = false.
Proof.
  unfold table_marker_at. intros H. apply is_some_true in H. destruct H as [r H].
  apply table_with_some in H.
  destruct H as (n & k & _ & _ & _ & _ & [= -> _]). reflexivity.
Qed.

(** ** C3: the second cleaning *)

(** The markers that the second cleaning could find are markers of the
    text that the first cleaning began with. *)
Lemma clean_text_markers (a : str) :
  has_marker a = false ->
  has (matches m_page) a = false
  /\ has (matches m_table) a = false
  /\ has (matches m_page) (strip (re_sub m_comma (re_sub m_dollar a))) = false
  /\ has (matches m_table) (strip (re_sub m_comma (re_sub m_dollar a))) = false.
Proof.
  unfold has_marker. intros H. apply orb_false_iff in H. destruct H as [Hp Ht].
  repeat split.
  - destruct (has (matches m_page) a) eqn:E; [|reflexivity].
    apply (has_impl _ page_marker_at) in E; [|apply page_marker_of_match].
    congruence.
  - destruct (has (matches m_table) a) eqn:E; [|reflexivity].
    apply (has_impl _ table_marker_at) in E; [|apply table_marker_of_match].
    congruence.
  - destruct (has (matches m_page) (strip _)) eqn:E; [|reflexivity].
    apply has_strip_back in E; [|apply page_match_ext].
    apply (has_marker_re_comma m_page page_marker_at) in E;
      [|apply page_marker_re_comma | apply page_match_head].
    apply has_marker_re_dollar in E;
      [|apply page_marker_re_dollar | apply page_marker_head].
    congruence.
  - destruct (has (matches m_table) (strip _)) eqn:E; [|reflexivity].
    apply has_strip_back in E; [|apply table_match_ext].
    apply (has_marker_re_comma m_table table_marker_at) in E;
      [|apply table_marker_re_comma | apply table_match_head].
    apply has_marker_re_dollar in E;
      [|apply table_marker_re_dollar | apply table_marker_head].
    congruence.
Qed.

(** A text of the shape that [clean_text] gives, without marker and
    without digit, comma, digit, is left alone by every rule. *)
Lemma clean_text_fixed (y : str) :
  good bad_all y = true -> has_dcd y = false -> strip y = y ->
  has (matches m_page) y = false -> has (matches m_table) y = false ->
  clean_text y = y.
Proof.
  intros Hg Hd Hs Hp Ht. destruct y as [|c y]; [reflexivity|].
  unfold clean_text. cbv zeta.
  rewrite re_ws_fixed by assumption.
  rewrite (re_sub_idle m_page) by assumption.
  rewrite (re_sub_idle m_table) by assumption.
  rewrite re_dollar_fixed by assumption.
  rewrite re_comma_fixed by assumption.
  rewrite (re_blank_fixed bad_all) by assumption.
  exact Hs.
Qed.

(** Without marker, cleaning is the whitespace rule, the dollar rule, the
    comma rule and trimming. *)
Lemma clean_text_plain (text : str) :
  has_marker (re_sub m_ws text) = false ->
  clean_text text
  = strip (re_sub m_comma (re_sub m_dollar (re_sub m_ws text)))
  /\ good bad_all (re_sub m_comma (re_sub m_dollar (re_sub m_ws text))) = true.
Proof.
  intros Hm. destruct (clean_text_markers _ Hm) as (Hp & Ht & _).
  pose proof (good_re_comma _ (good_re_dollar _ (good_re_ws text))) as Hg.
  split; [|exact Hg].
  destruct text as [|c t]; [reflexivity|].
  unfold clean_text. cbv zeta.
  rewrite (re_sub_idle m_page) by assumption.
  rewrite (re_sub_idle m_table) by assumption.
  rewrite (re_blank_fixed bad_all) by assumption.
  reflexivity.
Qed.

Lemma clean_text_image (text : str) :
  has_marker (re_sub m_ws text) = false ->
  good bad_all (clean_text text) = true
  /\ strip (clean_text text) = clean_text text
  /\ has (matches m_page) (clean_text text) = false
  /\ has (matches m_table) (clean_text text) = false
  /\ has_dcd (clean_text text) = has_dcdcd text.
Proof.
  intros Hm.
  destruct (clean_text_markers _ Hm) as (Hp & Ht & Hp' & Ht').
  destruct (clean_text_plain text Hm) as [Heq Hg].
  split; [|split; [|split; [|split]]].
  - rewrite Heq. apply good_strip. exact Hg.
  - rewrite Heq. apply strip_twice.
  - rewrite Heq. exact Hp'.
  - rewrite Heq. exact Ht'.
  - rewrite clean_text_dcd. unfold before_comma_rule.
    rewrite (re_sub_idle m_page) by assumption.
    rewrite (re_sub_idle m_table) by assumption.
    unfold has_dcdcd.
    rewrite (has_re_sub dcdcd_at dcdcd_local m_dollar m_dollar_neutral).
    apply (has_re_sub dcdcd_at dcdcd_local m_ws m_ws_neutral).
Qed.

(** The comma rule shortens a text that holds digit, comma, digit. *)
Lemma re_comma_length (t : str) :
  (List.length (re_sub m_comma t) <= List.length t)%nat.
Proof.
  induction t as [t IH] using str_length_ind.
  destruct t as [|a t]; [cbn; lia|].
  destruct (dcd_at (a :: t)) eqn:Hd.
  - apply dcd_at_digit in Hd. destruct Hd as (c & t' & -> & Ha & Hc).
    rewrite re_comma_match by assumption.
    pose proof (IH t' ltac:(cbn; lia)). cbn [List.length]. lia.
  - rewrite re_comma_skip by exact Hd.
    pose proof (IH t ltac:(cbn; lia)). cbn [List.length]. lia.
Qed.

Lemma re_comma_shorter (t : str) :
  has_dcd t = true -> (List.length (re_sub m_comma t) < List.length t)%nat.
Proof.
  unfold has_dcd. induction t as [|a t IH]; [discriminate|].
  cbn [has]. destruct (dcd_at (a :: t)) eqn:Hd; cbn [orb].
  - intros _. apply dcd_at_digit in Hd. destruct Hd as (c & t' & -> & Ha & Hc).
    rewrite re_comma_match by assumption.
    pose proof (re_comma_length t'). cbn [List.length]. lia.
  - intros H. rewrite re_comma_skip by exact Hd.
    apply IH in H. cbn [List.length]. lia.
Qed.

(** On a text of the shape that [clean_text] gives, without marker but
    with digit, comma, digit, the result of cleaning is shorter. *)
Lemma clean_text_shorter (y : str) :
  good bad_all y = true ->
  has (matches m_page) y = false -> has (matches m_table) y = false ->
  has_dcd y = true ->
  (List.length (clean_text y) < List.length y)%nat.
Proof.
  intros Hg Hp Ht Hd. destruct y as [|c y]; [discriminate Hd|].
  unfold clean_text. cbv zeta.
  rewrite re_ws_fixed by assumption.
  rewrite (re_sub_idle m_page) by assumption.
  rewrite (re_sub_idle m_table) by assumption.
  rewrite re_dollar_fixed by assumption.
  rewrite (re_blank_fixed bad_all) by (apply good_re_comma; exact Hg).
  pose proof (strip_length (re_sub m_comma (c :: y))).
  pose proof (re_comma_shorter (c :: y) Hd). lia.
Qed.

(** Four texts on which a second cleaning changes the result: the comma
    rule meets a comma it left behind, the line feeds of a table marker
    are collapsed, the two spaces around a removed page marker are
    collapsed, and a page marker whose number was written with a comma is
    removed. *)
Lemma C3_second_pass_differs :
  clean_text (clean_text (lit "1,2,3")) <> clean_text (lit "1,2,3")
  /\ clean_text (lit "a --- Table 1 (Page 2) --- b")
     = lit "a " ++ [LF] ++ lit "TABLE:" ++ [LF] ++ lit " b"
  /\ clean_text (clean_text (lit "a --- Table 1 (Page 2) --- b"))
     = lit "a TABLE: b"
  /\ clean_text (lit "a --- Page 1 --- b") = lit "a  b"
  /\ clean_text (clean_text (lit "a --- Page 1 --- b")) = lit "a b"
  /\ clean_text (lit "a --- Page 1,2 --- b") = lit "a --- Page 12 --- b"
  /\ clean_text (clean_text (lit "a --- Page 1,2 --- b")) = lit "a  b".
Proof.
  split; [vm_compute; discriminate|].
  repeat split; vm_compute; reflexivity.
Qed.

(** C3 (amended).  Take a text that, once its runs of whitespace are
    collapsed, holds no page marker [--- Page N ---] and no table marker
    [--- Table N (Page M) ---], where [N] and [M] are digits with single
    commas allowed between them.  Cleaning the cleaned text changes
    nothing exactly when the text holds no digit, comma, digit, comma,
    digit. *)
Theorem C3_clean_idempotent (text : str)
  (Hmarkers : has_marker (re_sub m_ws text) = false) :
  clean_text (clean_text text) = clean_text text <-> has_dcdcd text = false.
Proof.
  destruct (clean_text_image text Hmarkers) as (Hg & Hs & Hp & Ht & Hd).
  split.
  - intros Heq. destruct (has_dcdcd text); [|reflexivity].
    pose proof (clean_text_shorter _ Hg Hp Ht Hd) as Hlt.
    rewrite Heq in Hlt. lia.
  - intros Hnone. rewrite Hnone in Hd. apply clean_text_fixed; assumption.
Qed.

Lemma C3_clean_idempotent_witness :
  has_marker
    (re_sub m_ws (lit "Non-operating income: $ -5,000 (2022-2023), see 10-K"))
  = false
  /\ clean_text (lit "Non-operating income: $ -5,000 (2022-2023), see 10-K")
     = lit "Non-operating income: $-5000 (2022-2023), see 10-K"
  /\ clean_text
       (clean_text (lit "Non-operating income: $ -5,000 (2022-2023), see 10-K"))
     = clean_text (lit "Non-operating income: $ -5,000 (2022-2023), see 10-K").
Proof.
  split; [reflexivity|]. split; [reflexivity|].
  apply (C3_clean_idempotent
           (lit "Non-operating income: $ -5,000 (2022-2023), see 10-K"));
    reflexivity.
Defined.

(** * Further properties *)

(** ** Trimming and whitespace normalisation *)

Lemma re_ws_length (t : str) :
  (List.length (re_sub m_ws t) <= List.length t)%nat.
Proof.
  induction t as [t IH] using str_length_ind.
  destruct t as [|c t]; [cbn; lia|].
  rewrite re_ws_cons. destruct (is_space c).
  - pose proof (drop_while_length is_space t) as Hd.
    assert (Hlt : (List.length (drop_while is_space t) < List.length (c :: t))%nat)
      by (cbn; lia).
    specialize (IH _ Hlt). cbn [List.length]. lia.
  - assert (Hlt : (List.length t < List.length (c :: t))%nat) by (cbn; lia).
    specialize (IH _ Hlt). cbn [List.length]. lia.
Qed.

Lemma re_ws_head (c : ascii) (t : str) :
  is_space c = false -> exists x, re_sub m_ws (c :: t) = c :: x.
Proof. intros Hc. rewrite re_ws_cons, Hc. eexists. reflexivity. Qed.

Lemma drop_while_snoc (p : ascii -> bool) (t : str) (c : ascii) :
  p c = false -> drop_while p (t ++ [c]) = drop_while p t ++ [c].
Proof.
  intros Hc. induction t as [|a t IH]; cbn.
  - rewrite Hc. reflexivity.
  - destruct (p a); [exact IH | reflexivity].
Qed.

(** A last character that is no whitespace stays where it is. *)
Lemma re_ws_snoc (t : str) (c : ascii) :
  is_space c = false -> re_sub m_ws (t ++ [c]) = re_sub m_ws t ++ [c].
Proof.
  intros Hc. induction t as [t IH] using str_length_ind.
  destruct t as [|a t].
  - cbn [app]. rewrite re_ws_cons, Hc. reflexivity.
  - cbn [app]. rewrite !re_ws_cons. destruct (is_space a).
    + rewrite drop_while_snoc by exact Hc. rewrite IH; [reflexivity|].
      pose proof (drop_while_length is_space t). cbn. lia.
    + rewrite IH by (cbn; lia). reflexivity.
Qed.

Lemma rstrip_snoc (t : str) (c : ascii) :
  is_space c = false -> rstrip (t ++ [c]) = t ++ [c].
Proof.
  intros Hc. unfold rstrip. rewrite rev_app_distr. cbn [rev app lstrip].
  rewrite Hc. cbn [rev]. rewrite rev_involutive. reflexivity.
Qed.

Lemma rstrip_last (t : str) :
  rstrip t = [] \/ exists u c, rstrip t = u ++ [c] /\ is_space c = false.
Proof.
  unfold rstrip. pose proof (lstrip_head (rev t)) as Hh.
  destruct (lstrip (rev t)) as [|c x]; [left; reflexivity|].
  right. exists (rev x), c. split; [reflexivity | exact Hh].
Qed.

(** The two ends of a trimmed text. *)
Lemma strip_ends (s : str) :
  strip s = []
  \/ (exists a x, strip s = a :: x /\ is_space a = false)
     /\ (exists u c, strip s = u ++ [c] /\ is_space c = false).
Proof.
  unfold strip. destruct (rstrip_last (lstrip s)) as [He|Hl]; [left; exact He|].
  right. split; [|exact Hl].
  pose proof (lstrip_head s) as Hh.
  destruct (rstrip_split (lstrip s)) as (w & Hw & _).
  destruct (rstrip (lstrip s)) as [|a x].
  - destruct Hl as (u & c & Hu & _). destruct u; discriminate Hu.
  - exists a, x. split; [reflexivity|]. rewrite Hw in Hh. exact Hh.
Qed.

Lemma strip_fixed (t : str) :
  (exists a x, t = a :: x /\ is_space a = false) ->
  (exists u c, t = u ++ [c] /\ is_space c = false) ->
  strip t = t.
Proof.
  intros (a & x & Ha & Hsa) (u & c & Hu & Hsc). unfold strip.
  rewrite lstrip_fixed by (rewrite Ha; exact Hsa).
  rewrite Hu. apply rstrip_snoc. exact Hsc.
Qed.

Lemma re_ws_twice (t : str) : re_sub m_ws (re_sub m_ws t) = re_sub m_ws t.
Proof.
  induction t as [t IH] using str_length_ind.
  destruct t as [|c t]; [reflexivity|].
  rewrite re_ws_cons. destruct (is_space c) eqn:Hc.
  - rewrite re_ws_cons. change (is_space SP) with true. cbv iota.
    pose proof (drop_while_head is_space t) as Hh.
    assert (Hd : drop_while is_space (re_sub m_ws (drop_while is_space t))
                 = re_sub m_ws (drop_while is_space t)).
    { apply drop_while_none. destruct (drop_while is_space t) as [|a x]; [exact I|].
      destruct (re_ws_head a x Hh) as [y ->]. exact Hh. }
    rewrite Hd, IH; [reflexivity|].
    pose proof (drop_while_length is_space t). cbn. lia.
  - rewrite re_ws_cons, Hc, IH by (cbn; lia). reflexivity.
Qed.

(** Normalising a trimmed text gives a trimmed text. *)
Lemma strip_re_ws (s : str) :
  strip (re_sub m_ws (strip s)) = re_sub m_ws (strip s).
Proof.
  destruct (strip_ends s) as [->|[(a & x & Ha & Hsa) (u & c & Hu & Hsc)]];
    [reflexivity|].
  apply strip_fixed.
  - rewrite Ha. destruct (re_ws_head a x Hsa) as [y ->]. eauto.
  - rewrite Hu, re_ws_snoc by exact Hsc. eauto.
Qed.

Lemma nonempty_true (t : str) : nonempty t = true <-> t <> [].
Proof. destruct t; cbn; split; congruence. Qed.

Lemma re_ws_nonempty (t : str) : t <> [] -> re_sub m_ws t <> [].
Proof.
  destruct t as [|c t]; [congruence|]. intros _.
  rewrite re_ws_cons. destruct (is_space c); discriminate.
Qed.

(** ** What the field checks let through *)

Lemma validate_company_name_good (v n : str) :
  validate_company_name v = Good n ->
  strip v <> [] /\ n = re_sub m_ws (strip v).
Proof.
  unfold validate_company_name.
  destruct (nonempty v); cbn [negb orb]; [|discriminate].
  destruct (nonempty (strip v)) eqn:Hs; cbn [negb]; [|discriminate].
  intros [= <-]. split; [apply nonempty_true; exact Hs | reflexivity].
Qed.

(** The name validator leaves its own results alone. *)
Lemma validate_company_name_fixed (v n : str) :
  validate_company_name v = Good n -> validate_company_name n = Good n.
Proof.
  intros H. apply validate_company_name_good in H. destruct H as [Hne ->].
  assert (Hn : re_sub m_ws (strip v) <> []) by (apply re_ws_nonempty; exact Hne).
  unfold validate_company_name.
  rewrite strip_re_ws, re_ws_twice.
  apply nonempty_true in Hn. rewrite Hn. reflexivity.
Qed.

Lemma company_name_field_good (o : option Any) (n : str) :
  company_name_field o = Good n ->
  exists s, o = Some (VStr s) /\ 1 <= len s <= 255
            /\ validate_company_name s = Good n.
Proof.
  unfold company_name_field. destruct o as [[| s | |]|]; try discriminate.
  destruct (len s <? 1) eqn:H1; [discriminate|].
  destruct (len s >? 255) eqn:H2; [discriminate|].
  intros H. exists s. split; [reflexivity|]. split; [|exact H].
  apply Z.ltb_ge in H1. rewrite Z.gtb_ltb in H2. apply Z.ltb_ge in H2. lia.
Qed.

Lemma company_name_length (s n : str) :
  validate_company_name s = Good n -> 1 <= len n <= len s.
Proof.
  intros H. apply validate_company_name_good in H. destruct H as [Hne ->].
  apply re_ws_nonempty in Hne.
  pose proof (re_ws_length (strip s)). pose proof (strip_length s).
  unfold len. destruct (re_sub m_ws (strip s)); [congruence|].
  cbn [List.length] in *. lia.
Qed.

Section SchemaInvariants.

Variable lax_str_int : str -> option Z.
Variable lax_str_float : str -> option float.
Variable current_year : Z.

Lemma year_field_good (o : option Any) (y : str) :
  year_field current_year o = Good y ->
  o = Some (VStr y) /\ List.length y = 4%nat /\ forallb is_digit y = true
  /\ 1900 <= int_of_digits y <= current_year + 1.
Proof.
  unfold year_field. destruct o as [[| s | |]|]; try discriminate.
  destruct (List.length s =? 4)%nat eqn:Hl; cbn [andb]; [|discriminate].
  destruct (forallb is_digit s) eqn:Hd; [|discriminate].
  unfold validate_year.
  destruct (int_of_digits s <? 1900) eqn:H1; cbn [orb]; [discriminate|].
  destruct (int_of_digits s >? current_year + 1) eqn:H2; [discriminate|].
  intros [= <-]. apply Nat.eqb_eq in Hl. apply Z.ltb_ge in H1.
  rewrite Z.gtb_ltb in H2. apply Z.ltb_ge in H2. auto.
Qed.

Lemma nonneg_int_field_good (o : option Any) (z : Z) :
  nonneg_int_field lax_str_int o = Good (Some z) -> 0 <= z.
Proof.
  unfold nonneg_int_field, optional.
  destruct o as [v|]; [|discriminate].
  destruct v; try discriminate;
    (destruct (as_int lax_str_int _) as [x|]; cbn [and_then]; [|discriminate]);
    unfold ge_int; destruct (0 <=? x) eqn:Hx; cbn [and_then]; try discriminate;
    intros [= <-]; apply Z.leb_le; exact Hx.
Qed.

Lemma positive_value_field_good (o : option Any) (z : Z) :
  positive_value_field lax_str_int o = Good (Some z) -> 0 <= z.
Proof.
  unfold positive_value_field.
  destruct (nonneg_int_field lax_str_int o) as [[x|]|] eqn:Hn; cbn [and_then];
    try discriminate.
  unfold validate_positive_values. destruct (x <? 0); [discriminate|].
  intros [= <-]. apply (nonneg_int_field_good o). exact Hn.
Qed.

(** The values of a record that passed the field stage, field by field. *)
Lemma base_field_values_all (data : dict) (b : FinancialData) :
  base_field_values lax_str_int lax_str_float current_year data = Pass b ->
  (company_name_field (get "company_name" data) = Good (company_name b)
   /\ year_field current_year (get "year" data) = Good (year b))
  /\ (positive_value_field lax_str_int (get "revenue" data) = Good (revenue b)
      /\ positive_value_field lax_str_int (get "cogs" data) = Good (cogs b)
      /\ positive_value_field lax_str_int (get "operating_expenses" data)
         = Good (operating_expenses b)
      /\ positive_value_field lax_str_int (get "total_assets" data)
         = Good (total_assets b)
      /\ positive_value_field lax_str_int (get "total_liabilities" data)
         = Good (total_liabilities b))
  /\ (bounded_float_field lax_str_float 0 100 (get "gross_margin" data)
      = Good (gross_margin b)
      /\ bounded_float_field lax_str_float (-100) 100 (get "operating_margin" data)
         = Good (operating_margin b)
      /\ bounded_float_field lax_str_float (-100) 100 (get "net_margin" data)
         = Good (net_margin b)).
Proof.
  unfold base_field_values. intros H.
  repeat match goal with
         | H : _ <*> _ = Pass _ |- _ =>
           apply ap_pass in H; destruct H as (? & ? & H & ? & ?)
         end.
  injection H as <-. subst. cbn.
  unfold field in *.
  repeat match goal with
         | H : at_loc _ _ = Pass _ |- _ => apply at_loc_pass in H
         end.
  repeat split; assumption.
Qed.

(** A record that is returned passed the cross-field rules. *)
Lemma validate_valid_logic (data : dict) (industry : str) (r : record) :
  validate_financial_data lax_str_int lax_str_float current_year data industry
  = Valid r ->
  logic_errors (base_of r) = Ok [].
Proof.
  unfold validate_financial_data.
  destruct (select_variant industry).
  - unfold new_FinancialData.
    destruct (with_extra base_fields data _) as [self|errs];
      cbn [map_result]; [|discriminate].
    destruct (run_model_validator (validate_financial_logic self)) as [a| |] eqn:Hv;
      cbn [map_result]; try discriminate.
    intros [= <-]. cbn [base_of].
    apply run_model_validator_valid, validate_financial_logic_ok in Hv.
    destruct Hv as [-> Hv]. exact Hv.
  - unfold new_SaaSFinancialData.
    destruct (with_extra saas_fields data _) as [self|errs];
      cbn [map_result]; [|discriminate].
    destruct (run_model_validator (validate_financial_logic (saas_base self)))
      as [a| |] eqn:Hl; cbn [map_result]; try discriminate.
    destruct (run_model_validator (validate_saas_metrics self)) as [b| |] eqn:Hv;
      cbn [map_result]; try discriminate.
    intros [= <-]. cbn [base_of].
    apply run_model_validator_valid, validate_saas_metrics_ok in Hv. subst b.
    apply run_model_validator_valid, validate_financial_logic_ok in Hl.
    destruct Hl as [_ Hl]. exact Hl.
  - unfold new_RetailFinancialData.
    destruct (with_extra retail_fields data _) as [self|errs];
      cbn [map_result]; [|discriminate].
    destruct (run_model_validator (validate_financial_logic (retail_base self)))
      as [a| |] eqn:Hl; cbn [map_result]; try discriminate.
    intros [= <-]. cbn [base_of].
    apply run_model_validator_valid, validate_financial_logic_ok in Hl.
    destruct Hl as [_ Hl]. exact Hl.
Qed.

Local Abbreviation validate :=
  (validate_financial_data lax_str_int lax_str_float current_year).
Local Abbreviation new_general :=
  (new_FinancialData lax_str_int lax_str_float current_year).

Lemma validate_valid_base (data : dict) (industry : str) (r : record) :
  validate data industry = Valid r ->
  base_field_values lax_str_int lax_str_float current_year data
  = Pass (base_of r).
Proof. apply validate_valid_fields. Qed.

(** X1.  The company name of a record that validation returns is the name of
    the input, trimmed and with every run of whitespace turned into one
    space.  It has between 1 and 255 characters, no whitespace at either
    end, no run of whitespace left to collapse, and the name validator
    returns it unchanged. *)
Theorem X1_accepted_company_name (data : dict) (industry : str) (r : record)
  (Hvalid : validate data industry = Valid r) :
  exists s,
    get "company_name" data = Some (VStr s)
    /\ company_name (base_of r) = re_sub m_ws (strip s)
    /\ 1 <= len (company_name (base_of r)) <= 255
    /\ strip (company_name (base_of r)) = company_name (base_of r)
    /\ re_sub m_ws (company_name (base_of r)) = company_name (base_of r)
    /\ validate_company_name (company_name (base_of r))
       = Good (company_name (base_of r)).
Proof.
  apply validate_valid_base, base_field_values_all in Hvalid.
  destruct Hvalid as ((Hname & _) & _).
  apply company_name_field_good in Hname.
  destruct Hname as (s & Hget & Hlen & Hv).
  exists s. split; [exact Hget|].
  pose proof (company_name_length _ _ Hv) as Hl.
  pose proof (validate_company_name_fixed _ _ Hv) as Hfix.
  apply validate_company_name_good in Hv. destruct Hv as [_ Hn].
  split; [exact Hn|]. split; [lia|]. split; [|split; [|exact Hfix]].
  - rewrite Hn. apply strip_re_ws.
  - rewrite Hn. apply re_ws_twice.
Qed.

(** X2.  The year of a record that validation returns is the year of the
    input, unchanged: four decimal digits that read as a number between
    1900 and the year after the current one. *)
Theorem X2_accepted_year (data : dict) (industry : str) (r : record)
  (Hvalid : validate data industry = Valid r) :
  get "year" data = Some (VStr (year (base_of r)))
  /\ List.length (year (base_of r)) = 4%nat
  /\ forallb is_digit (year (base_of r)) = true
  /\ 1900 <= int_of_digits (year (base_of r)) <= current_year + 1.
Proof.
  apply validate_valid_base, base_field_values_all in Hvalid.
  destruct Hvalid as ((_ & Hyear) & _).
  apply year_field_good in Hyear. exact Hyear.
Qed.

(** X3.  In a record that validation returns, revenue, cost of goods sold,
    operating expenses, total assets and total liabilities are not
    negative when present. *)
Theorem X3_accepted_amounts_not_negative (data : dict) (industry : str) (r : record)
  (Hvalid : validate data industry = Valid r) :
  at_least 0 (revenue (base_of r))
  /\ at_least 0 (cogs (base_of r))
  /\ at_least 0 (operating_expenses (base_of r))
  /\ at_least 0 (total_assets (base_of r))
  /\ at_least 0 (total_liabilities (base_of r)).
Proof.
  apply validate_valid_base, base_field_values_all in Hvalid.
  destruct Hvalid as (_ & (H1 & H2 & H3 & H4 & H5) & _).
  unfold at_least.
  repeat split; intros z Hz;
    match goal with
    | H : positive_value_field _ ?o = Good ?f, Hz : ?f = Some _ |- _ =>
      rewrite Hz in H; apply positive_value_field_good in H; exact H
    end.
Qed.

(** X4.  In a record that validation returns, gross profit does not exceed
    revenue and operating income does not exceed gross profit, whenever
    both amounts are present. *)
Theorem X4_accepted_profit_order (data : dict) (industry : str) (r : record)
  (Hvalid : validate data industry = Valid r) :
  (forall rev gp, revenue (base_of r) = Some rev ->
                  gross_profit (base_of r) = Some gp -> gp <= rev)
  /\ (forall gp oi, gross_profit (base_of r) = Some gp ->
                    operating_income (base_of r) = Some oi -> oi <= gp).
Proof.
  apply validate_valid_logic in Hvalid.
  apply logic_errors_parts in Hvalid.
  destruct Hvalid as (e1 & e2 & e3 & e6 & _ & _ & _ & _ & Hnil).
  symmetry in Hnil.
  apply app_eq_nil in Hnil. destruct Hnil as [_ Hnil].
  apply app_eq_nil in Hnil. destruct Hnil as [_ Hnil].
  apply app_eq_nil in Hnil. destruct Hnil as [_ Hnil].
  apply app_eq_nil in Hnil. destruct Hnil as [H4 Hnil].
  apply app_eq_nil in Hnil. destruct Hnil as [H5 _].
  split.
  - intros rev gp Hr Hg. unfold gross_order_check in H4. rewrite Hr, Hg in H4.
    destruct (gp >? rev) eqn:E; [discriminate H4|].
    rewrite Z.gtb_ltb in E. apply Z.ltb_ge in E. exact E.
  - intros gp oi Hg Ho. unfold operating_order_check in H5. rewrite Hg, Ho in H5.
    destruct (oi >? gp) eqn:E; [discriminate H5|].
    rewrite Z.gtb_ltb in E. apply Z.ltb_ge in E. exact E.
Qed.

Lemma accepted_key (data : dict) (industry : str) (r : record) (s : str) :
  validate data industry = Valid r ->
  get "company_name" data = Some (VStr s) ->
  company_name (base_of r) = re_sub m_ws (strip s)
  /\ get "year" data = Some (VStr (year (base_of r))).
Proof.
  intros Hvalid Hget.
  apply validate_valid_base, base_field_values_all in Hvalid.
  destruct Hvalid as ((Hname & Hyear) & _).
  apply year_field_good in Hyear. destruct Hyear as [Hyear _].
  split; [|exact Hyear].
  rewrite Hget in Hname. apply company_name_field_good in Hname.
  destruct Hname as (s' & [= <-] & _ & Hv).
  apply validate_company_name_good in Hv. tauto.
Qed.

(** X5.  Two returned records whose input names differ only in letter case and
    in the amount of whitespace, and whose years agree, are duplicates
    for the batch: the uniqueness check raises on the second. *)
Theorem X5_batch_names_are_normalised (d1 d2 : dict) (i1 i2 s1 s2 : str)
  (r1 r2 : record)
  (Hfirst : validate d1 i1 = Valid r1)
  (Hsecond : validate d2 i2 = Valid r2)
  (Hname1 : get "company_name" d1 = Some (VStr s1))
  (Hname2 : get "company_name" d2 = Some (VStr s2))
  (Hsame : lower (re_sub m_ws (strip s1)) = lower (re_sub m_ws (strip s2)))
  (Hyear : get "year" d1 = get "year" d2) :
  validate_unique_company_years [base_of r1; base_of r2]
  = Raise (ValueError (duplicate_msg (base_of r2))).
Proof.
  destruct (accepted_key d1 i1 r1 s1 Hfirst Hname1) as [Hn1 Hy1].
  destruct (accepted_key d2 i2 r2 s2 Hsecond Hname2) as [Hn2 Hy2].
  assert (Hkey : record_key (base_of r2) = record_key (base_of r1)).
  { unfold record_key. rewrite Hn1, Hn2, Hsame. f_equal. congruence. }
  unfold validate_unique_company_years. cbn [unique_from existsb].
  apply key_eqb_eq in Hkey. rewrite Hkey. reflexivity.
Qed.

(** ** Validating a returned record again *)

Lemma positive_value_field_of_int (o : option Any) (x : option Z) :
  positive_value_field lax_str_int o = Good x ->
  positive_value_field lax_str_int (Some (of_int x)) = Good x.
Proof.
  destruct x as [z|]; [|reflexivity].
  intros H. apply positive_value_field_good in H.
  unfold positive_value_field, nonneg_int_field, optional, of_int, as_int.
  cbn [and_then]. unfold ge_int.
  replace (0 <=? z) with true by (symmetry; apply Z.leb_le; exact H).
  cbn [and_then validate_positive_values].
  replace (z <? 0) with false by (symmetry; apply Z.ltb_ge; exact H).
  reflexivity.
Qed.

Lemma int_field_of_int (x : option Z) :
  int_field lax_str_int (Some (of_int x)) = Good x.
Proof. destruct x; reflexivity. Qed.

Lemma bounded_float_field_of_float (lo hi : Z) (o : option Any) (x : option float) :
  bounded_float_field lax_str_float lo hi o = Good x ->
  bounded_float_field lax_str_float lo hi (Some (of_float x)) = Good x.
Proof.
  destruct x as [f|]; [|reflexivity].
  intros H. apply bounded_float_field_range in H. destruct H as [Hge Hle].
  unfold bounded_float_field, optional, of_float, as_float.
  cbn [and_then]. unfold le_float. rewrite Hle. cbn [and_then].
  unfold ge_float. rewrite Hge. reflexivity.
Qed.

Lemma company_name_field_fixed (o : option Any) (n : str) :
  company_name_field o = Good n ->
  company_name_field (Some (VStr n)) = Good n.
Proof.
  intros H. apply company_name_field_good in H.
  destruct H as (s & _ & Hlen & Hv).
  pose proof (company_name_length _ _ Hv) as Hl.
  apply validate_company_name_fixed in Hv.
  unfold company_name_field.
  replace (len n <? 1) with false by (symmetry; apply Z.ltb_ge; lia).
  replace (len n >? 255) with false
    by (symmetry; rewrite Z.gtb_ltb; apply Z.ltb_ge; lia).
  exact Hv.
Qed.

Lemma year_field_fixed (o : option Any) (y : str) :
  year_field current_year o = Good y ->
  year_field current_year (Some (VStr y)) = Good y.
Proof.
  intros H. pose proof (year_field_good _ _ H) as (-> & _). exact H.
Qed.

Lemma get_model_dict (b : FinancialData) :
  (get "company_name" (model_dict b) = Some (VStr (company_name b))
   /\ get "year" (model_dict b) = Some (VStr (year b)))
  /\ (get "revenue" (model_dict b) = Some (of_int (revenue b))
      /\ get "cogs" (model_dict b) = Some (of_int (cogs b))
      /\ get "gross_profit" (model_dict b) = Some (of_int (gross_profit b))
      /\ get "operating_expenses" (model_dict b)
         = Some (of_int (operating_expenses b))
      /\ get "operating_income" (model_dict b)
         = Some (of_int (operating_income b))
      /\ get "net_income" (model_dict b) = Some (of_int (net_income b)))
  /\ (get "total_assets" (model_dict b) = Some (of_int (total_assets b))
      /\ get "total_liabilities" (model_dict b)
         = Some (of_int (total_liabilities b))
      /\ get "equity" (model_dict b) = Some (of_int (equity b)))
  /\ (get "gross_margin" (model_dict b) = Some (of_float (gross_margin b))
      /\ get "operating_margin" (model_dict b)
         = Some (of_float (operating_margin b))
      /\ get "net_margin" (model_dict b) = Some (of_float (net_margin b))).
Proof. repeat split; reflexivity. Qed.

Lemma base_field_values_model_dict (data : dict) (b : FinancialData) :
  base_field_values lax_str_int lax_str_float current_year data = Pass b ->
  base_field_values lax_str_int lax_str_float current_year (model_dict b)
  = Pass b.
Proof.
  intros H. apply base_field_values_all in H.
  destruct H as ((Hn & Hy) & (H1 & H2 & H3 & H4 & H5) & (F1 & F2 & F3)).
  destruct (get_model_dict b)
    as ((G1 & G2) & (G3 & G4 & G5 & G6 & G7 & G8) & (G9 & G10 & G11)
        & (G12 & G13 & G14)).
  unfold base_field_values, field.
  rewrite G1, G2, G3, G4, G5, G6, G7, G8, G9, G10, G11, G12, G13, G14.
  rewrite (company_name_field_fixed _ _ Hn), (year_field_fixed _ _ Hy).
  rewrite (positive_value_field_of_int _ _ H1), (positive_value_field_of_int _ _ H2),
    (positive_value_field_of_int _ _ H3), (positive_value_field_of_int _ _ H4),
    (positive_value_field_of_int _ _ H5).
  rewrite !int_field_of_int.
  rewrite (bounded_float_field_of_float _ _ _ _ F1),
    (bounded_float_field_of_float _ _ _ _ F2),
    (bounded_float_field_of_float _ _ _ _ F3).
  destruct b; reflexivity.
Qed.

Lemma new_general_valid (data : dict) (r : FinancialData) :
  new_general data = Valid r ->
  base_field_values lax_str_int lax_str_float current_year data = Pass r
  /\ forbid_extra base_fields data = []
  /\ validate_financial_logic r = Ok r.
Proof.
  unfold new_FinancialData.
  destruct (with_extra base_fields data _) as [self|errs] eqn:Hf; [|discriminate].
  apply with_extra_pass in Hf. destruct Hf as [Hf He].
  intros Hv. apply run_model_validator_valid in Hv.
  pose proof (validate_financial_logic_ok _ _ Hv) as [-> _]. auto.
Qed.

(** X6.  The record that [ingest_document] hands back as a dict is accepted
    again: building a general record from the dump of a returned record
    returns that same record. *)
Theorem X6_returned_record_validates_again (data : dict) (r : FinancialData)
  (Hvalid : new_general data = Valid r) :
  new_general (model_dict r) = Valid r.
Proof.
  apply new_general_valid in Hvalid. destruct Hvalid as (Hf & _ & Hl).
  unfold new_FinancialData, with_extra.
  change (forbid_extra base_fields (model_dict r)) with (@nil field_error).
  rewrite (base_field_values_model_dict _ _ Hf), Hl. reflexivity.
Qed.

(** ** The three variants *)

Lemma forbid_extra_nil (fields : list string) (data : dict) :
  forbid_extra fields data = []
  <-> forall k, In k (keys data) -> mem k fields = true.
Proof.
  unfold forbid_extra. generalize (keys data) as ks.
  induction ks as [|k ks IH]; cbn [filter map].
  - split; [intros _ k [] | reflexivity].
  - destruct (mem k fields) eqn:Hk; cbn [negb map].
    + rewrite IH. split.
      * intros H k' [<-|Hin]; [exact Hk | apply H; exact Hin].
      * intros H k' Hin. apply H. right. exact Hin.
    + split; [discriminate|]. intros H.
      rewrite (H k) in Hk by (left; reflexivity). discriminate Hk.
Qed.

Lemma get_absent (k : string) (d : dict) :
  ~ In k (keys d) -> get k d = None.
Proof.
  induction d as [|[k' v] d IH]; [reflexivity|].
  cbn. intros H. destruct (String.eqb_spec k k') as [->|Hne].
  - exfalso. apply H. left. reflexivity.
  - apply IH. intros Hin. apply H. right. exact Hin.
Qed.

Lemma undeclared_absent (fields : list string) (data : dict) (k : string) :
  forbid_extra fields data = [] -> mem k fields = false -> get k data = None.
Proof.
  intros He Hk. apply get_absent. intros Hin.
  rewrite (proj1 (forbid_extra_nil fields data) He k Hin) in Hk.
  discriminate Hk.
Qed.

Lemma forbid_extra_more (fields more : list string) (data : dict) :
  forbid_extra fields data = [] -> forbid_extra (fields ++ more) data = [].
Proof.
  rewrite !forbid_extra_nil. intros H k Hin.
  specialize (H k Hin). apply mem_In. apply in_or_app. left.
  apply mem_In. exact H.
Qed.

(** X7.  A dict that the general schema accepts is accepted by the SaaS and the
    retail schema as well, and hence under every industry tag; the record
    holds the same fourteen values and none of the additional fields. *)
Theorem X7_general_record_fits_every_variant (data : dict) (r : FinancialData)
  (Hvalid : new_general data = Valid r) :
  new_SaaSFinancialData lax_str_int lax_str_float current_year data
  = Valid (saas_only r)
  /\ new_RetailFinancialData lax_str_int lax_str_float current_year data
     = Valid (retail_only r)
  /\ forall industry,
      exists r', validate data industry = Valid r' /\ base_of r' = r.
Proof.
  apply new_general_valid in Hvalid. destruct Hvalid as (Hf & He & Hl).
  assert (Hs : new_SaaSFinancialData lax_str_int lax_str_float current_year data
               = Valid (saas_only r)).
  { unfold new_SaaSFinancialData, with_extra, saas_fields.
    rewrite (forbid_extra_more _ _ _ He).
    unfold saas_field_values, field. rewrite Hf.
    rewrite !(undeclared_absent base_fields data _ He) by reflexivity.
    cbn [nonneg_int_field bounded_float_field optional at_loc ap].
    change (saas_base _) with r. rewrite Hl. cbn [run_model_validator].
    unfold validate_saas_metrics. change (saas_base _) with r. rewrite Hl.
    reflexivity. }
  assert (Ht : new_RetailFinancialData lax_str_int lax_str_float current_year data
               = Valid (retail_only r)).
  { unfold new_RetailFinancialData, with_extra, retail_fields.
    rewrite (forbid_extra_more _ _ _ He).
    unfold retail_field_values, field. rewrite Hf.
    rewrite !(undeclared_absent base_fields data _ He) by reflexivity.
    cbn [nonneg_int_field int_field nonneg_float_field optional at_loc ap].
    change (retail_base _) with r. rewrite Hl. reflexivity. }
  split; [exact Hs|]. split; [exact Ht|].
  intros industry. unfold validate_financial_data.
  destruct (select_variant industry).
  - exists (GeneralRecord r). split; [|reflexivity].
    unfold new_FinancialData, with_extra. rewrite He, Hf, Hl. reflexivity.
  - exists (SaaSRecord (saas_only r)). rewrite Hs. split; reflexivity.
  - exists (RetailRecord (retail_only r)). rewrite Ht. split; reflexivity.
Qed.

End SchemaInvariants.

Lemma padded_data_valid :
  validate_financial_data plain_int plain_float 2025 padded_data (lit "general")
  = Valid (GeneralRecord padded_record).
Proof. vm_compute. reflexivity. Qed.

Lemma padded_data_general :
  new_FinancialData plain_int plain_float 2025 padded_data = Valid padded_record.
Proof. vm_compute. reflexivity. Qed.

Lemma respelled_data_valid :
  validate_financial_data plain_int plain_float 2025 respelled_data (lit "saas")
  = Valid (SaaSRecord (saas_only (with_name (lit "acme CORP") sample_record))).
Proof. vm_compute. reflexivity. Qed.

Lemma X5_batch_names_are_normalised_witness :
  validate_unique_company_years
    [padded_record; with_name (lit "acme CORP") sample_record]
  = Raise (ValueError (lit "Duplicate record found for acme CORP - 2023")).
Proof.
  exact (X5_batch_names_are_normalised plain_int plain_float 2025
           padded_data respelled_data (lit "general") (lit "saas")
           (chr 9 :: lit " ACME   Corp  ") (lit "acme  CORP")
           (GeneralRecord padded_record)
           (SaaSRecord (saas_only (with_name (lit "acme CORP") sample_record)))
           padded_data_valid respelled_data_valid
           eq_refl eq_refl eq_refl eq_refl).
Defined.

Lemma X1_accepted_company_name_witness :
  exists s,
    get "company_name" padded_data = Some (VStr s)
    /\ company_name padded_record = re_sub m_ws (strip s)
    /\ 1 <= len (company_name padded_record) <= 255
    /\ strip (company_name padded_record) = company_name padded_record
    /\ re_sub m_ws (company_name padded_record) = company_name padded_record
    /\ validate_company_name (company_name padded_record)
       = Good (company_name padded_record).
Proof.
  exact (X1_accepted_company_name plain_int plain_float 2025 padded_data
           (lit "general") (GeneralRecord padded_record) padded_data_valid).
Defined.

Lemma X2_accepted_year_witness :
  get "year" padded_data = Some (VStr (lit "2023"))
  /\ List.length (lit "2023") = 4%nat
  /\ forallb is_digit (lit "2023") = true
  /\ 1900 <= int_of_digits (lit "2023") <= 2025 + 1.
Proof.
  exact (X2_accepted_year plain_int plain_float 2025 padded_data
           (lit "general") (GeneralRecord padded_record) padded_data_valid).
Defined.

Lemma X3_accepted_amounts_not_negative_witness :
  at_least 0 (Some 1000000) /\ at_least 0 (Some 600000)
  /\ at_least 0 (Some 200000) /\ at_least 0 (Some 2000000)
  /\ at_least 0 (Some 800000).
Proof.
  exact (X3_accepted_amounts_not_negative plain_int plain_float 2025 padded_data
           (lit "general") (GeneralRecord padded_record) padded_data_valid).
Defined.

Lemma X4_accepted_profit_order_witness : 400000 <= 1000000 /\ 200000 <= 400000.
Proof.
  pose proof (X4_accepted_profit_order plain_int plain_float 2025 padded_data
                (lit "general") (GeneralRecord padded_record) padded_data_valid)
    as [H1 H2].
  split; [apply (H1 1000000 400000) | apply (H2 400000 200000)]; reflexivity.
Defined.

Lemma X6_returned_record_validates_again_witness :
  new_FinancialData plain_int plain_float 2025 (model_dict padded_record)
  = Valid padded_record.
Proof.
  exact (X6_returned_record_validates_again plain_int plain_float 2025 padded_data
           padded_record padded_data_general).
Defined.

Lemma X7_general_record_fits_every_variant_witness :
  validate_financial_data plain_int plain_float 2025 padded_data (lit "SaaS")
  = Valid (SaaSRecord (saas_only padded_record))
  /\ validate_financial_data plain_int plain_float 2025 padded_data
       (lit "ecommerce")
     = Valid (RetailRecord (retail_only padded_record)).
Proof.
  pose proof (X7_general_record_fits_every_variant plain_int plain_float 2025
                padded_data padded_record padded_data_general) as (Hs & Ht & _).
  unfold validate_financial_data.
  change (select_variant (lit "SaaS")) with SaaS.
  change (select_variant (lit "ecommerce")) with Retail.
  cbv iota. rewrite Hs, Ht. split; reflexivity.
Defined.

(** ** Cleaning a raw dict *)

Lemma str_eqb_neq (a b : str) : str_eqb a b = false <-> a <> b.
Proof.
  destruct (str_eqb a b) eqn:E.
  - apply str_eqb_eq in E. split; [discriminate | congruence].
  - split; [|reflexivity]. intros _ H. apply str_eqb_eq in H. congruence.
Qed.

Lemma clean_value_raises (k : string) (v : Any) (e : exception) :
  clean_value k v = Raise e <-> e = OverflowError /\ reads_as_infinity k v.
Proof.
  unfold reads_as_infinity. split.
  - destruct v as [|s|z|f]; cbn [clean_value]; try discriminate.
    destruct (str_eqb s (lit "null")) eqn:E1; cbn [orb]; [discriminate|].
    destruct (str_eqb s []) eqn:E2; [discriminate|].
    destruct (mem k monetary_keys) eqn:Hm; [|discriminate].
    intros H. apply coerce_monetary_raises in H. destruct H as [-> [sign Hs]].
    split; [reflexivity|]. exists s, sign.
    apply str_eqb_neq in E1. apply str_eqb_neq in E2. auto.
  - intros [-> (s & sign & -> & Hm & H1 & H2 & Hf)].
    apply str_eqb_neq in H1. apply str_eqb_neq in H2.
    cbn [clean_value]. rewrite H1, H2, Hm. cbn [orb].
    unfold coerce_monetary. rewrite Hf. reflexivity.
Qed.

Lemma clean_items_raises (items : dict) :
  forall cleaned e,
    clean_items items cleaned = Raise e <->
    exists k v, In (k, v) items /\ clean_value k v = Raise e
                /\ e = OverflowError.
Proof.
  induction items as [|[k v] items IH]; intros cleaned e; cbn [clean_items].
  - split; [discriminate | intros (k & v & [] & _)].
  - destruct (clean_value k v) as [v'|e'] eqn:Hv; cbn [bind_exc].
    + rewrite IH. split.
      * intros (k0 & v0 & Hin & H). exists k0, v0. split; [right; exact Hin | exact H].
      * intros (k0 & v0 & [Heq|Hin] & H & He).
        -- injection Heq as <- <-. rewrite Hv in H. discriminate H.
        -- exists k0, v0. auto.
    + pose proof (proj1 (clean_value_raises k v e') Hv) as [-> _]. split.
      * intros [= <-]. exists k, v. split; [left; reflexivity | auto].
      * intros (_ & _ & _ & _ & ->). reflexivity.
Qed.

(** X8.  [clean_financial_data] raises exactly when some monetary entry holds a
    text that reads as an infinity, and then it raises [OverflowError]; on
    every other input it returns a dict. *)
Theorem X8_clean_financial_data_failure (raw_data : dict) :
  (forall e, clean_financial_data raw_data = Raise e -> e = OverflowError)
  /\ (clean_financial_data raw_data = Raise OverflowError
      <-> exists k v, In (k, v) raw_data /\ reads_as_infinity k v)
  /\ ((forall k v, In (k, v) raw_data -> ~ reads_as_infinity k v)
      -> exists cleaned, clean_financial_data raw_data = Ok cleaned).
Proof.
  unfold clean_financial_data.
  assert (Hiff : clean_items raw_data [] = Raise OverflowError
                 <-> exists k v, In (k, v) raw_data /\ reads_as_infinity k v).
  { rewrite clean_items_raises. split.
    - intros (k & v & Hin & Hv & _). exists k, v. split; [exact Hin|].
      apply clean_value_raises in Hv. tauto.
    - intros (k & v & Hin & Hr). exists k, v. split; [exact Hin|].
      split; [|reflexivity]. apply clean_value_raises. auto. }
  assert (Hov : forall e, clean_items raw_data [] = Raise e -> e = OverflowError).
  { intros e He. apply clean_items_raises in He.
    destruct He as (_ & _ & _ & _ & ->). reflexivity. }
  split; [exact Hov|]. split; [exact Hiff|].
  intros Hnone. destruct (clean_items raw_data []) as [cleaned|e] eqn:Hc.
  - exists cleaned. reflexivity.
  - exfalso. pose proof (Hov e eq_refl) as ->.
    destruct (proj1 Hiff eq_refl) as (k & v & Hin & Hr).
    exact (Hnone k v Hin Hr).
Qed.

Lemma set_item_fresh (k : string) (v : Any) (d : dict) :
  ~ In k (keys d) -> set_item k v d = d ++ [(k, v)].
Proof.
  induction d as [|[k' v'] d IH]; [reflexivity|].
  cbn. intros H. destruct (String.eqb_spec k k') as [->|Hne].
  - exfalso. apply H. left. reflexivity.
  - rewrite IH; [reflexivity|]. intros Hin. apply H. right. exact Hin.
Qed.


Lemma clean_items_entries (items : dict) :
  forall cleaned out,
    NoDup (keys items) ->
    (forall k, In k (keys items) -> ~ In k (keys cleaned)) ->
    clean_items items cleaned = Ok out ->
    exists vs, out = cleaned ++ vs /\ Forall2 cleaned_entry items vs.
Proof.
  induction items as [|[k v] items IH]; intros cleaned out Hnd Hfresh;
    cbn [clean_items].
  - intros [= <-]. exists []. rewrite app_nil_r. split; [reflexivity | constructor].
  - destruct (clean_value k v) as [v'|e] eqn:Hv; cbn [bind_exc]; [|discriminate].
    cbn [keys map fst] in Hnd, Hfresh. inversion Hnd as [|? ? Hk Hnd']; subst.
    rewrite set_item_fresh by (apply Hfresh; left; reflexivity).
    intros Hc. apply IH in Hc; [|exact Hnd'|].
    + destruct Hc as (vs & -> & Hall). exists ((k, v') :: vs). split.
      * rewrite <- app_assoc. reflexivity.
      * constructor; [split; [reflexivity | exact Hv] | exact Hall].
    + intros k0 Hin. unfold keys. rewrite map_app, in_app_iff. cbn.
      intros [Hold|[->|[]]].
      * apply (Hfresh k0); [right; exact Hin | exact Hold].
      * apply Hk. exact Hin.
Qed.

Lemma cleaned_entries_keys (items vs : dict) :
  Forall2 cleaned_entry items vs -> keys vs = keys items.
Proof.
  induction 1 as [|[k v] [k' v'] items vs [Hk _] _ IH]; [reflexivity|].
  unfold keys in *. cbn in *. subst k'. f_equal. exact IH.
Qed.

Lemma cleaned_entries_get (items vs : dict) (k : string) :
  Forall2 cleaned_entry items vs ->
  match get k items, get k vs with
  | Some v, Some v' => clean_value k v = Ok v'
  | None, None => True
  | _, _ => False
  end.
Proof.
  induction 1 as [|[k0 v] [k1 v'] items vs [Hk Hv] _ IH]; [exact I|].
  cbn in Hk, Hv. subst k1. cbn [get].
  destruct (String.eqb_spec k k0) as [->|Hne]; [exact Hv | exact IH].
Qed.

Lemma clean_value_not_text (k : string) (v v' : Any) :
  mem k monetary_keys = true -> clean_value k v = Ok v' -> is_text v' = false.
Proof.
  intros Hm. destruct v as [|s|z|f]; cbn [clean_value];
    try (intros [= <-]; reflexivity).
  rewrite Hm. destruct (str_eqb s (lit "null") || str_eqb s []);
    [intros [= <-]; reflexivity|].
  unfold coerce_monetary. destruct (py_float _) as [x|]; [|intros [= <-]; reflexivity].
  destruct (int_of_float x) as [z|[msg| |]]; try discriminate;
    intros [= <-]; reflexivity.
Qed.

(** X9.  When [clean_financial_data] returns, the cleaned dict has the keys of
    the raw dict in the same order, the value under each key is the
    cleaned value of the raw entry, and no monetary key holds a text any
    more.  The keys of a dict are distinct. *)
Theorem X9_clean_financial_data_entries (raw_data cleaned : dict)
  (Hkeys : NoDup (keys raw_data))
  (Hclean : clean_financial_data raw_data = Ok cleaned) :
  keys cleaned = keys raw_data
  /\ (forall k v, get k raw_data = Some v ->
        exists v', clean_value k v = Ok v' /\ get k cleaned = Some v')
  /\ (forall k, get k raw_data = None -> get k cleaned = None)
  /\ (forall k v', mem k monetary_keys = true -> get k cleaned = Some v' ->
        is_text v' = false).
Proof.
  unfold clean_financial_data in Hclean.
  apply clean_items_entries in Hclean; [|exact Hkeys | intros k _ []].
  destruct Hclean as (vs & -> & Hall). cbn [app].
  split; [apply cleaned_entries_keys; exact Hall|].
  split; [|split].
  - intros k v Hget. pose proof (cleaned_entries_get _ _ k Hall) as H.
    rewrite Hget in H. destruct (get k vs) as [v'|]; [|destruct H].
    exists v'. auto.
  - intros k Hget. pose proof (cleaned_entries_get _ _ k Hall) as H.
    rewrite Hget in H. destruct (get k vs); [destruct H | reflexivity].
  - intros k v' Hm Hget. pose proof (cleaned_entries_get _ _ k Hall) as H.
    rewrite Hget in H. destruct (get k raw_data) as [v|]; [|destruct H].
    apply (clean_value_not_text k v v' Hm H).
Qed.

Lemma X9_clean_financial_data_entries_witness :
  exists cleaned,
    clean_financial_data raw_sample = Ok cleaned
    /\ keys cleaned = keys raw_sample
    /\ get "revenue" cleaned = Some (VInt 1000000)
    /\ get "operating_income" cleaned = Some (VInt (-25000))
    /\ get "net_income" cleaned = Some VNone
    /\ get "company_name" cleaned = Some (VStr (lit "ACME Corp")).
Proof.
  assert (Hnd : NoDup (keys raw_sample)).
  { repeat constructor; cbn; intuition discriminate. }
  destruct (clean_financial_data raw_sample) as [cleaned|e] eqn:Hc;
    [|vm_compute in Hc; discriminate Hc].
  pose proof (X9_clean_financial_data_entries raw_sample cleaned Hnd Hc)
    as (Hk & Hget & _).
  exists cleaned. split; [reflexivity|]. split; [exact Hk|].
  repeat split;
    match goal with
    | |- get ?k cleaned = _ =>
      destruct (Hget k _ eq_refl) as (v' & Hv & ->);
        vm_compute in Hv; injection Hv as <-; reflexivity
    end.
Defined.

(** ** Coercion of a monetary text *)

Lemma re_money_filter (s : str) :
  re_sub m_money_punct s = filter (fun c => negb (is_money_punct c)) s.
Proof.
  induction s as [|c s IH]; [reflexivity|].
  rewrite re_sub_cons.
  change (m_money_punct (c :: s))
    with (if is_money_punct c then Some (1%nat, @nil ascii) else None).
  cbn [filter].
  destruct (is_money_punct c); cbn [negb pred skipn app]; rewrite IH; reflexivity.
Qed.

Lemma filter_twice (p q : ascii -> bool) (s : str) :
  (forall c, p c = true -> q c = true) ->
  filter p (filter q s) = filter p s.
Proof.
  intros Hpq. induction s as [|c s IH]; [reflexivity|].
  cbn [filter]. destruct (q c) eqn:Hq; cbn [filter].
  - rewrite IH. reflexivity.
  - destruct (p c) eqn:Hp; [|exact IH].
    rewrite (Hpq c Hp) in Hq. discriminate Hq.
Qed.

Lemma existsb_filter (f q : ascii -> bool) (s : str) :
  (forall c, f c = true -> q c = true) ->
  existsb f (filter q s) = existsb f s.
Proof.
  intros Hfq. induction s as [|c s IH]; [reflexivity|].
  cbn [filter existsb]. destruct (q c) eqn:Hq; cbn [existsb].
  - rewrite IH. reflexivity.
  - destruct (f c) eqn:Hf; [|exact IH].
    rewrite (Hfq c Hf) in Hq. discriminate Hq.
Qed.

Lemma punct_cases (c : ascii) :
  is_money_punct c = is_dollar c || is_comma c || is_open c || is_close c.
Proof. reflexivity. Qed.

(** X10.  Dollar signs and commas do not count, wherever they stand: the text
    without them coerces to the same value. *)
Theorem X10_coerce_monetary_ignores_separators (value : str) :
  coerce_monetary (filter not_separator value) = coerce_monetary value.
Proof.
  unfold coerce_monetary. rewrite !re_money_filter.
  rewrite filter_twice.
  2:{ intros c. unfold not_separator. rewrite punct_cases.
      destruct (is_dollar c), (is_comma c); cbn; congruence. }
  unfold contains_char.
  rewrite !existsb_filter; [reflexivity| |];
    intros c Hc; apply ascii_eqb_eq in Hc; subst c; reflexivity.
Qed.

Lemma existsb_false_filter (f : ascii -> bool) (s : str) :
  existsb f s = false -> filter (fun c => negb (f c)) s = s.
Proof.
  induction s as [|c s IH]; [reflexivity|].
  cbn [existsb filter]. intros H. apply orb_false_iff in H. destruct H as [Hc Hs].
  rewrite Hc. cbn [negb]. rewrite IH by exact Hs. reflexivity.
Qed.

Lemma filter_app_last (p : ascii -> bool) (s : str) (c : ascii) :
  p c = false -> filter p (s ++ [c]) = filter p s.
Proof.
  intros Hc. rewrite filter_app. cbn [filter]. rewrite Hc. apply app_nil_r.
Qed.

(** X11.  Accounting parentheses negate: when a text without parentheses
    coerces to an integer, the text between parentheses coerces to the
    opposite integer. *)
Theorem X11_coerce_monetary_parentheses (value : str) (z : Z)
  (Hopen : contains_char (chr 40) value = false)
  (Hclose : contains_char (chr 41) value = false)
  (Hvalue : coerce_monetary value = Ok (VInt z)) :
  coerce_monetary (in_parentheses value) = Ok (VInt (- z)).
Proof.
  unfold coerce_monetary in *. rewrite re_money_filter in *.
  unfold in_parentheses.
  assert (Hf : filter (fun c => negb (is_money_punct c)) (chr 40 :: value ++ [chr 41])
               = filter (fun c => negb (is_money_punct c)) value).
  { cbn [filter]. change (is_money_punct (chr 40)) with true. cbn [negb].
    apply filter_app_last. reflexivity. }
  rewrite Hf. rewrite Hopen in Hvalue. cbn [andb] in Hvalue.
  assert (Hp : contains_char (chr 40) (chr 40 :: value ++ [chr 41])
               && contains_char (chr 41) (chr 40 :: value ++ [chr 41]) = true).
  { unfold contains_char. cbn [existsb]. rewrite !existsb_app. cbn [existsb].
    change (ascii_eqb (chr 40) (chr 40)) with true.
    change (ascii_eqb (chr 41) (chr 41)) with true.
    cbn [orb andb]. rewrite !orb_true_r. reflexivity. }
  rewrite Hp.
  destruct (py_float _) as [x|]; [|discriminate Hvalue].
  destruct (int_of_float x) as [y|[msg| |]]; try discriminate Hvalue.
  injection Hvalue as ->. reflexivity.
Qed.

Lemma X11_coerce_monetary_parentheses_witness :
  coerce_monetary (lit "$25,000") = Ok (VInt 25000)
  /\ coerce_monetary (in_parentheses (lit "$25,000")) = Ok (VInt (- 25000)).
Proof.
  split; [reflexivity|].
  apply (X11_coerce_monetary_parentheses (lit "$25,000") 25000); reflexivity.
Defined.

(** ** Integers that a float holds exactly *)

Lemma digits2_lower (m : positive) : 2 ^ (Zpos (digits2_pos m) - 1) <= Zpos m.
Proof.
  induction m as [m IH|m IH|]; cbn [digits2_pos].
  - rewrite Pos2Z.inj_succ, (Pos2Z.inj_xI m).
    replace (Z.succ (Zpos (digits2_pos m)) - 1)
      with (Z.succ (Zpos (digits2_pos m) - 1)) by lia.
    rewrite Z.pow_succ_r by lia.
    set (x := 2 ^ (Zpos (digits2_pos m) - 1)) in *. clearbody x. lia.
  - rewrite Pos2Z.inj_succ, (Pos2Z.inj_xO m).
    replace (Z.succ (Zpos (digits2_pos m)) - 1)
      with (Z.succ (Zpos (digits2_pos m) - 1)) by lia.
    rewrite Z.pow_succ_r by lia.
    set (x := 2 ^ (Zpos (digits2_pos m) - 1)) in *. clearbody x. lia.
  - reflexivity.
Qed.

Lemma digits2_small (m : positive) :
  Zpos m < 2 ^ 53 -> Zpos (digits2_pos m) <= 53.
Proof.
  intros Hm. pose proof (digits2_lower m) as Hl.
  destruct (Z_le_gt_dec (Zpos (digits2_pos m)) 53) as [H|H]; [exact H|].
  exfalso.
  assert (Hp : 2 ^ 53 <= 2 ^ (Zpos (digits2_pos m) - 1))
    by (apply Z.pow_le_mono_r; lia).
  lia.
Qed.

Lemma iter_xO_Z (m k : positive) :
  Zpos (Pos.iter xO m k) = Zpos m * 2 ^ Zpos k.
Proof.
  induction k as [|k IH] using Pos.peano_ind.
  - cbn [Pos.iter]. rewrite (Pos2Z.inj_xO m). change (2 ^ 1) with 2. lia.
  - rewrite Pos.iter_succ, (Pos2Z.inj_xO (Pos.iter xO m k)), IH, Pos2Z.inj_succ.
    rewrite Z.pow_succ_r by lia.
    set (x := 2 ^ Zpos k) in *. clearbody x. lia.
Qed.

Lemma iter_xO_digits (m k : positive) :
  digits2_pos (Pos.iter xO m k) = (digits2_pos m + k)%positive.
Proof.
  induction k as [|k IH] using Pos.peano_ind.
  - cbn [Pos.iter digits2_pos]. rewrite Pos.add_1_r. reflexivity.
  - rewrite Pos.iter_succ. cbn [digits2_pos]. rewrite IH, Pos.add_succ_r.
    reflexivity.
Qed.

Lemma shr_fexp_exact (mz : positive) (ez : Z) :
  fexp prec emax (Zpos (digits2_pos mz) + ez) = ez ->
  shr_fexp prec emax (Zpos mz) ez loc_Exact
  = ({| shr_m := Zpos mz; shr_r := false; shr_s := false |}, ez).
Proof.
  intros H. unfold shr_fexp. cbn [Zdigits2]. rewrite H, Z.sub_diag. reflexivity.
Qed.

(** A mantissa of 53 bits with its exponent in range is not rounded. *)
Lemma binary_round_aux_exact (sx : bool) (mz : positive) (ez : Z) :
  fexp prec emax (Zpos (digits2_pos mz) + ez) = ez ->
  ez <= emax - prec ->
  binary_round_aux prec emax sx (Zpos mz) ez loc_Exact = S754_finite sx mz ez.
Proof.
  intros H He. unfold binary_round_aux.
  rewrite (shr_fexp_exact mz ez H).
  cbn [shr_m loc_of_shr_record round_nearest_even].
  rewrite (shr_fexp_exact mz ez H). cbn [shr_m].
  replace (ez <=? emax - prec) with true by (symmetry; apply Z.leb_le; exact He).
  reflexivity.
Qed.

(** An integer below [2^53] is a float: the mantissa is the integer
    shifted to 53 bits. *)
Lemma binary_round_small (sx : bool) (m : positive) :
  Zpos m < 2 ^ 53 ->
  exists mz ez,
    binary_round prec emax sx m 0 = S754_finite sx mz ez
    /\ -52 <= ez <= 0 /\ Zpos mz = Zpos m * 2 ^ (- ez).
Proof.
  intros Hm. pose proof (digits2_small m Hm) as Hd.
  unfold binary_round.
  assert (Hf : fexp prec emax (Zpos (digits2_pos m) + 0)
               = Zpos (digits2_pos m) - 53)
    by (unfold fexp, emin, prec, emax; lia).
  rewrite Hf. unfold shl_align. rewrite Z.sub_0_r.
  destruct (Zpos (digits2_pos m) - 53) as [|p|p] eqn:He.
  - exists m, 0. split; [|split; [lia | cbn; lia]].
    apply binary_round_aux_exact.
    + exact Hf.
    + unfold emax, prec. lia.
  - lia.
  - exists (Pos.iter xO m p), (Zneg p).
    split; [|split; [lia | rewrite iter_xO_Z; reflexivity]].
    apply binary_round_aux_exact.
    + rewrite iter_xO_digits, Pos2Z.inj_add.
      unfold fexp, emin, prec, emax. lia.
    + unfold emax, prec. lia.
Qed.

Lemma float_of_int_small (z : Z) :
  Z.abs z < 2 ^ 53 -> exists f, float_of_int z = Ok f.
Proof.
  intros Hz. unfold float_of_int. destruct z as [|m|m]; cbn [binary_normalize].
  - eexists. reflexivity.
  - destruct (binary_round_small false m Hz) as (mz & ez & -> & _).
    eexists. reflexivity.
  - destruct (binary_round_small true m Hz) as (mz & ez & -> & _).
    eexists. reflexivity.
Qed.

(** Reading the float of such an integer back gives the integer. *)
Lemma int_of_float_small (m : positive) :
  Zpos m < 2 ^ 53 ->
  int_of_float (binary_normalize prec emax (Zpos m) 0 false) = Ok (Zpos m).
Proof.
  intros Hm. cbn [binary_normalize].
  destruct (binary_round_small false m Hm) as (mz & ez & -> & He & Hmz).
  unfold int_of_float. f_equal. rewrite Hmz.
  destruct ez as [|p|p]; [cbn; lia | lia |].
  change (- Zneg p) with (Zpos p).
  apply Z.div_mul. apply Z.pow_nonzero; lia.
Qed.

(** ** The floor of the tolerance *)

Lemma cmp_int_float_below (d z : Z) (f : float) :
  d <= z -> cmp_int_float z f = Some Lt -> cmp_int_float d f = Some Lt.
Proof.
  intros Hd. destruct f as [s|s| |s m e]; cbn [cmp_int_float].
  - intros [= H]. f_equal. apply (proj1 (Z.compare_lt_iff _ _)) in H.
    apply Z.compare_lt_iff. lia.
  - auto.
  - discriminate.
  - intros [= H]. f_equal. destruct e as [|p|p].
    + apply (proj1 (Z.compare_lt_iff _ _)) in H. apply Z.compare_lt_iff. lia.
    + apply (proj1 (Z.compare_lt_iff _ _)) in H. apply Z.compare_lt_iff. lia.
    + apply (proj1 (Z.compare_lt_iff _ _)) in H. apply Z.compare_lt_iff.
      assert (0 < 2 ^ Z.pos p) by (apply Z.pow_pos_nonneg; lia). nia.
Qed.

(** A deviation of at most 1000 is never above [max(1000, x)]. *)
Lemma int_gt_max_1000 (d : Z) (t : float) :
  d <= 1000 -> int_gt d (max_1000 t) = false.
Proof.
  intros Hd. unfold max_1000, float_gt_int.
  destruct (cmp_int_float 1000 t) as [[| |]|] eqn:Hc; cbn [int_gt];
    try (apply Z.ltb_ge; exact Hd).
  rewrite (cmp_int_float_below d 1000 t Hd Hc). reflexivity.
Qed.

Lemma float_of_int_raises (z : Z) (e : exception) :
  float_of_int z = Raise e -> e = OverflowError.
Proof.
  unfold float_of_int. destruct (binary_normalize prec emax z 0 false);
    try discriminate. intros [= <-]. reflexivity.
Qed.

Lemma int_mul_float_raises (z : Z) (f : float) (e : exception) :
  int_mul_float z f = Raise e -> e = OverflowError.
Proof.
  unfold int_mul_float. destruct (float_of_int z) eqn:Hz; cbn [bind_exc];
    [discriminate|]. intros [= <-]. apply (float_of_int_raises z). exact Hz.
Qed.

Lemma int_mul_float_small (z : Z) (f : float) :
  Z.abs z < 2 ^ 53 -> exists t, int_mul_float z f = Ok t.
Proof.
  intros Hz. unfold int_mul_float.
  destruct (float_of_int_small z Hz) as [x ->]. cbn [bind_exc].
  eexists. reflexivity.
Qed.

(** X12.  The three accounting identities have an absolute floor: a value that
    is within 1000 of the expected difference is never reported, whatever
    the size of the amounts.  The check returns no message when the
    expected difference is below [2^53] in absolute value; beyond that it
    returns no message or fails on the conversion to a float. *)
Theorem X12_identity_within_1000 (actual a b : Z) (msg : str)
  (Hclose : Z.abs (actual - (a - b)) <= 1000) :
  (identity_check actual a b msg = Ok []
   \/ identity_check actual a b msg = Raise OverflowError)
  /\ (Z.abs (a - b) < 2 ^ 53 -> identity_check actual a b msg = Ok []).
Proof.
  unfold identity_check, tolerance. cbv zeta.
  destruct (int_mul_float (Z.abs (a - b)) f_0_01) as [t|e] eqn:Ht;
    cbn [bind_exc].
  - rewrite int_gt_max_1000 by exact Hclose. auto.
  - split.
    + right. apply int_mul_float_raises in Ht. subst e. reflexivity.
    + intros Hsize.
      destruct (int_mul_float_small (Z.abs (a - b)) f_0_01) as [t Ht'];
        [lia | congruence].
Qed.

Lemma X12_identity_within_1000_witness :
  identity_check 10900 50000 40000 (gross_profit_msg 10900 50000 40000)
  = Ok [].
Proof.
  assert (Hclose : Z.abs (10900 - (50000 - 40000)) <= 1000) by lia.
  apply (X12_identity_within_1000 10900 50000 40000
           (gross_profit_msg 10900 50000 40000) Hclose).
  vm_compute. reflexivity.
Defined.

(** X13.  The same floor holds for the rule on recurring revenue: when the
    base rules pass and the annual figure is within 1000 of twelve times
    the monthly one, the SaaS validator returns the record, provided the
    product is below [2^53] in absolute value. *)
Theorem X13_recurring_revenue_within_1000 (self : SaaSFinancialData) (arr mrr : Z)
  (Hbase : validate_financial_logic (saas_base self) = Ok (saas_base self))
  (Harr : annual_recurring_revenue self = Some arr)
  (Hmrr : monthly_recurring_revenue self = Some mrr)
  (Hclose : Z.abs (arr - mrr * 12) <= 1000)
  (Hsize : Z.abs (mrr * 12) < 2 ^ 53) :
  validate_saas_metrics self = Ok self.
Proof.
  unfold validate_saas_metrics. rewrite Hbase, Harr, Hmrr. cbn [bind_exc].
  cbv zeta.
  destruct (int_mul_float_small (mrr * 12) f_0_05 Hsize) as [t ->].
  cbn [bind_exc]. rewrite int_gt_max_1000 by exact Hclose. reflexivity.
Qed.

Lemma X13_recurring_revenue_within_1000_witness :
  validate_saas_metrics (saas_sample 12900 1000) = Ok (saas_sample 12900 1000).
Proof.
  assert (Hclose : Z.abs (12900 - 1000 * 12) <= 1000) by lia.
  apply (X13_recurring_revenue_within_1000 (saas_sample 12900 1000) 12900 1000
           eq_refl eq_refl eq_refl Hclose).
  vm_compute. reflexivity.
Defined.

(** ** The cross-field rules always give a verdict *)

Lemma identity_check_total (actual a b : Z) (msg : str) :
  Z.abs a < 2 ^ 52 -> Z.abs b < 2 ^ 52 ->
  exists errs, identity_check actual a b msg = Ok errs.
Proof.
  intros Ha Hb. unfold identity_check, tolerance. cbv zeta.
  destruct (int_mul_float_small (Z.abs (a - b)) f_0_01) as [t ->].
  { change (2 ^ 53) with (2 * 2 ^ 52). lia. }
  cbn [bind_exc]. eexists. reflexivity.
Qed.

Lemma logic_errors_total (self : FinancialData) :
  modest_record self -> exists errors, logic_errors self = Ok errors.
Proof.
  intros (Hrev & Hcg & Hgp & Hoe & Hoi & Hta & Htl).
  unfold modest in *.
  assert (H1 : exists e1, gross_profit_check self = Ok e1).
  { unfold gross_profit_check.
    destruct (revenue self) as [rev|]; [|eexists; reflexivity].
    destruct (cogs self) as [cg|]; [|eexists; reflexivity].
    destruct (gross_profit self) as [gp|]; [|eexists; reflexivity].
    apply identity_check_total; auto. }
  assert (H2 : exists e2, operating_income_check self = Ok e2).
  { unfold operating_income_check.
    destruct (gross_profit self) as [gp|]; [|eexists; reflexivity].
    destruct (operating_expenses self) as [oe|]; [|eexists; reflexivity].
    destruct (operating_income self) as [oi|]; [|eexists; reflexivity].
    apply identity_check_total; auto. }
  assert (H3 : exists e3, equity_check self = Ok e3).
  { unfold equity_check.
    destruct (total_assets self) as [ta|]; [|eexists; reflexivity].
    destruct (total_liabilities self) as [tl|]; [|eexists; reflexivity].
    destruct (equity self) as [eq|]; [|eexists; reflexivity].
    apply identity_check_total; auto. }
  assert (H6 : exists e6, net_income_check self = Ok e6).
  { unfold net_income_check.
    destruct (operating_income self) as [oi|]; [|eexists; reflexivity].
    destruct (net_income self) as [ni|]; [|eexists; reflexivity].
    destruct (int_mul_float_small oi f_1_5) as [t ->].
    { specialize (Hoi oi eq_refl). change (2 ^ 53) with (2 * 2 ^ 52). lia. }
    cbn [bind_exc]. eexists. reflexivity. }
  destruct H1 as [e1 H1], H2 as [e2 H2], H3 as [e3 H3], H6 as [e6 H6].
  unfold logic_errors. rewrite H1, H2, H3, H6. cbn [bind_exc].
  eexists. reflexivity.
Qed.

(** X14.  On a record whose amounts are below [2^52] in absolute value the
    cross-field validator never fails on a conversion: it returns the
    record, or raises the [ValueError] that carries the list of
    violations. *)
Theorem X14_validate_financial_logic_verdict (self : FinancialData)
  (Hsize : modest_record self) :
  validate_financial_logic self = Ok self
  \/ exists errors,
      errors <> []
      /\ logic_errors self = Ok errors
      /\ validate_financial_logic self
         = Raise (ValueError (logic_failure_msg errors)).
Proof.
  destruct (logic_errors_total self Hsize) as [errors He].
  unfold validate_financial_logic. rewrite He. cbn [bind_exc].
  destruct errors as [|e errors]; [left; reflexivity|].
  right. exists (e :: errors). split; [discriminate|]. split; reflexivity.
Qed.

Lemma X14_validate_financial_logic_verdict_witness :
  validate_financial_logic sample_record = Ok sample_record
  \/ exists errors,
      errors <> []
      /\ logic_errors sample_record = Ok errors
      /\ validate_financial_logic sample_record
         = Raise (ValueError (logic_failure_msg errors)).
Proof.
  apply (X14_validate_financial_logic_verdict sample_record).
  unfold modest_record, modest.
  repeat split; intros z H; vm_compute in H; try discriminate H;
    injection H as <-; vm_compute; reflexivity.
Defined.

(** ** Margins and the summary without revenue *)

Lemma int_true_div_raises (a b : Z) (e : exception) :
  b <> 0 -> int_true_div a b = Raise e -> e = OverflowError.
Proof.
  intros Hb. unfold int_true_div. destruct b as [|b|b]; [congruence| |];
    (destruct a as [|a|a]; [discriminate| |]);
    destruct (round_ratio _ _ _); try discriminate; intros [= <-]; reflexivity.
Qed.

Lemma float_mul_int_100 (q : float) :
  float_mul_int q 100 = Ok (SFmul prec emax q (S754_finite false 7036874417766400 (-46))).
Proof. reflexivity. Qed.

Lemma margin_entry_raises (name : string) (numerator : option Z) (rev : Z)
      (e : exception) :
  rev <> 0 -> margin_entry name numerator rev = Raise e -> e = OverflowError.
Proof.
  intros Hr. unfold margin_entry. destruct numerator as [n|]; [|discriminate].
  destruct (int_true_div n rev) as [q|e'] eqn:Hq; cbn [bind_exc].
  - rewrite float_mul_int_100. discriminate.
  - intros [= <-]. apply (int_true_div_raises n rev); assumption.
Qed.

Lemma calculate_margins_raises (self : FinancialData) (e : exception) :
  calculate_margins self = Raise e -> e = OverflowError.
Proof.
  unfold calculate_margins. destruct (revenue self) as [rev|]; [|discriminate].
  destruct (rev =? 0) eqn:Hz; cbn [negb andb]; [discriminate|].
  apply Z.eqb_neq in Hz. destruct (rev >? 0); [|discriminate].
  destruct (margin_entry _ (gross_profit self) rev) as [g|e1] eqn:H1;
    cbn [bind_exc];
    [|intros [= <-]; apply (margin_entry_raises _ _ _ _ Hz H1)].
  destruct (margin_entry _ (operating_income self) rev) as [o|e2] eqn:H2;
    cbn [bind_exc];
    [|intros [= <-]; apply (margin_entry_raises _ _ _ _ Hz H2)].
  destruct (margin_entry _ (net_income self) rev) as [n|e3] eqn:H3;
    cbn [bind_exc];
    [discriminate|intros [= <-]; apply (margin_entry_raises _ _ _ _ Hz H3)].
Qed.

Lemma score_defined (self : FinancialData) :
  exists q,
    int_true_div
      (Z.of_nat (List.length (filter (fun b => b) (counted_fields self)))) 12
    = Ok q.
Proof.
  pose proof (completed_fields_range self) as Hr. cbv zeta in Hr.
  remember (List.length (filter (fun b => b) (counted_fields self))) as k eqn:Hk.
  clear Hk. assert (Hle : (k <= 9)%nat) by lia. clear Hr.
  do 10 (destruct k as [|k]; [eexists; reflexivity|]). lia.
Qed.

(** X15.  No margin is computed from a revenue that is absent, zero or
    negative: [calculate_margins] returns the empty dict and the summary
    is returned with no margins.  On every record, the only exception
    that can leave either function is [OverflowError]; neither divides by
    zero. *)
Theorem X15_margins_without_revenue (self : FinancialData) :
  (forall e, calculate_margins self = Raise e -> e = OverflowError)
  /\ (forall e, get_validation_summary self = Raise e -> e = OverflowError)
  /\ (no_positive_revenue self ->
      calculate_margins self = Ok []
      /\ exists s, get_validation_summary self = Ok s /\ margins s = []).
Proof.
  split; [apply calculate_margins_raises|]. split.
  - intros e. unfold get_validation_summary.
    destruct (score_defined self) as [q ->]. cbn [bind_exc].
    destruct (calculate_margins self) as [m|e'] eqn:Hm; cbn [bind_exc];
      [discriminate|].
    intros [= <-]. apply (calculate_margins_raises self). exact Hm.
  - intros Hrev.
    assert (Hm : calculate_margins self = Ok []).
    { unfold calculate_margins. unfold no_positive_revenue in Hrev.
      destruct (revenue self) as [rev|]; [|reflexivity].
      specialize (Hrev rev eq_refl).
      replace (rev >? 0) with false
        by (symmetry; rewrite Z.gtb_ltb; apply Z.ltb_ge; exact Hrev).
      rewrite andb_false_r. reflexivity. }
    split; [exact Hm|].
    unfold get_validation_summary. destruct (score_defined self) as [q ->].
    rewrite Hm. cbn [bind_exc]. eexists. split; reflexivity.
Qed.

Lemma X15_margins_without_revenue_witness :
  calculate_margins zero_revenue_record = Ok []
  /\ calculate_margins no_revenue_record = Ok [].
Proof.
  split.
  - apply (X15_margins_without_revenue zero_revenue_record).
    intros rev [= <-]. lia.
  - apply (X15_margins_without_revenue no_revenue_record).
    intros rev H. discriminate H.
Defined.

(** ** The shape of a cleaned text *)

Lemma forallb_skipn (q : ascii -> bool) (t : str) :
  forall k, forallb q t = true -> forallb q (skipn k t) = true.
Proof.
  induction t as [|c t IH]; intros [|k] H; try exact H.
  cbn [skipn]. cbn [forallb] in H. apply andb_true_iff in H. apply IH. tauto.
Qed.

(** A rule whose replacements satisfy [q] keeps [q] on every character. *)
Lemma forallb_re_sub (q : ascii -> bool) (m : matcher) :
  (forall c t n r, m (c :: t) = Some (n, r) -> forallb q r = true) ->
  forall t : str, forallb q t = true -> forallb q (re_sub m t) = true.
Proof.
  intros Hm t. induction t as [|c t n r Hc IH|c t Hc IH] using (scan_ind m).
  - reflexivity.
  - intros H. rewrite re_sub_cons, Hc, forallb_app.
    rewrite (Hm _ _ _ _ Hc). cbn [andb]. apply IH.
    cbn [forallb] in H. apply andb_true_iff in H. apply forallb_skipn. tauto.
  - intros H. rewrite re_sub_cons, Hc. cbn [forallb] in *.
    apply andb_true_iff in H. destruct H as [H1 H2].
    rewrite H1, IH by exact H2. reflexivity.
Qed.

Lemma forallb_strip (q : ascii -> bool) (t : str) :
  forallb q t = true -> forallb q (strip t) = true.
Proof.
  intros H. unfold strip.
  destruct (lstrip_split t) as (w1 & H1 & _).
  destruct (rstrip_split (lstrip t)) as (w2 & H2 & _).
  rewrite H1, forallb_app in H. apply andb_true_iff in H. destruct H as [_ H].
  rewrite H2, forallb_app in H. apply andb_true_iff in H. tauto.
Qed.

Lemma m_page_repl (t : str) (n : nat) (r : str) :
  m_page t = Some (n, r) -> r = [].
Proof.
  unfold m_page. destruct (match_lit _ t) as [t1|]; cbn [bind_opt]; [|discriminate].
  destruct (match_digits1 t1) as [t2|]; cbn [bind_opt]; [|discriminate].
  destruct (match_lit _ t2) as [t3|]; cbn [bind_opt]; [|discriminate].
  intros [= _ <-]. reflexivity.
Qed.

Lemma m_table_repl (t : str) (n : nat) (r : str) :
  m_table t = Some (n, r) -> r = LF :: lit "TABLE:" ++ [LF].
Proof.
  unfold m_table. destruct (match_lit _ t) as [t1|]; cbn [bind_opt]; [|discriminate].
  destruct (match_digits1 t1) as [t2|]; cbn [bind_opt]; [|discriminate].
  destruct (match_lit _ t2) as [t3|]; cbn [bind_opt]; [|discriminate].
  destruct (match_digits1 t3) as [t4|]; cbn [bind_opt]; [|discriminate].
  destruct (match_lit _ t4) as [t5|]; cbn [bind_opt]; [|discriminate].
  intros [= _ <-]. reflexivity.
Qed.

Lemma m_dollar_some (c : ascii) (t : str) (n : nat) (r : str) :
  m_dollar (c :: t) = Some (n, r) -> c = chr 36 /\ r = [chr 36].
Proof.
  rewrite m_dollar_cons. destruct (is_dollar c) eqn:Hc; [|discriminate].
  intros [= _ <-]. apply ascii_eqb_eq in Hc. auto.
Qed.

(** After the whitespace rule every whitespace character is a space. *)
Lemma re_ws_spaces (t : str) :
  forallb (fun c => negb (is_space c) || ascii_eqb c SP) (re_sub m_ws t) = true.
Proof.
  induction t as [t IH] using str_length_ind.
  destruct t as [|c t]; [reflexivity|].
  rewrite re_ws_cons. destruct (is_space c) eqn:Hc; cbn [forallb].
  - rewrite IH; [reflexivity|].
    pose proof (drop_while_length is_space t). cbn. lia.
  - rewrite Hc, IH by (cbn; lia). reflexivity.
Qed.

Lemma plain_ws_of_space (c : ascii) :
  negb (is_space c) || ascii_eqb c SP = true -> plain_ws c = true.
Proof. unfold plain_ws. intros ->. reflexivity. Qed.

Lemma plain_ws_not_space (c : ascii) : is_space c = false -> plain_ws c = true.
Proof. unfold plain_ws. intros ->. reflexivity. Qed.

Lemma clean_text_plain_ws (text : str) :
  forallb plain_ws (clean_text text) = true.
Proof.
  destruct text as [|c0 t0]; [reflexivity|].
  unfold clean_text. cbv zeta. apply forallb_strip.
  apply forallb_re_sub.
  { intros c t n r H. apply m_blank_some in H. destruct H as (_ & _ & _ & ->).
    reflexivity. }
  apply forallb_re_sub.
  { intros c t n r H. apply m_comma_some in H.
    destruct H as (a & b & t' & _ & Ha & Hb & _ & ->). cbn [forallb].
    rewrite (plain_ws_not_space a), (plain_ws_not_space b)
      by (apply digit_not_space; assumption).
    reflexivity. }
  apply forallb_re_sub.
  { intros c t n r H. apply m_dollar_some in H. destruct H as [_ ->].
    reflexivity. }
  apply forallb_re_sub.
  { intros c t n r H. apply m_table_repl in H. subst r. reflexivity. }
  apply forallb_re_sub.
  { intros c t n r H. apply m_page_repl in H. subst r. reflexivity. }
  apply (forallb_impl (fun c => negb (is_space c) || ascii_eqb c SP));
    [apply plain_ws_of_space | apply re_ws_spaces].
Qed.

(** ** The blank-line rule *)

Lemma has_app_false (starts : str -> bool) (w x : str) :
  has starts (w ++ x) = false -> has starts x = false.
Proof.
  induction w as [|a w IH]; [auto|].
  cbn [app has]. intros H. apply orb_false_iff in H. apply IH. tauto.
Qed.

Lemma has_skipn_false (starts : str -> bool) (t : str) (k : nat) :
  has starts t = false -> has starts (skipn k t) = false.
Proof.
  intros H. rewrite <- (firstn_skipn k t) in H.
  apply has_app_false in H. exact H.
Qed.

Lemma blank3_not_space (c : ascii) (x : str) :
  is_space c = false -> blank3 (c :: x) = false.
Proof.
  intros Hc. unfold blank3, lf_run. cbn [take_while]. rewrite Hc. reflexivity.
Qed.

(** A text without whitespace in front of [x] adds no place where the
    rule can match. *)
Lemma has_blank3_solid (r x : str) :
  forallb (fun c => negb (is_space c)) r = true ->
  has blank3 (r ++ x) = has blank3 x.
Proof.
  induction r as [|c r IH]; [reflexivity|].
  cbn [forallb app has]. intros H. apply andb_true_iff in H.
  destruct H as [Hc Hr]. apply negb_true_iff in Hc.
  rewrite (blank3_not_space c _ Hc), IH by exact Hr. reflexivity.
Qed.

Section Solid.

Variable m : matcher.
Hypothesis Hm : solid m.

Lemma solid_take_while (t : str) :
  take_while is_space (re_sub m t) = take_while is_space t.
Proof.
  induction t as [|c t IH]; [reflexivity|].
  rewrite re_sub_cons. destruct (m (c :: t)) as [[n r]|] eqn:Hc.
  - destruct (Hm _ _ _ _ Hc) as (Hs & Hr & Hall).
    destruct r as [|x r]; [congruence|].
    cbn [forallb] in Hall. apply andb_true_iff in Hall. destruct Hall as [Hx _].
    apply negb_true_iff in Hx. cbn [app take_while]. rewrite Hx, Hs. reflexivity.
  - cbn [take_while]. rewrite IH. reflexivity.
Qed.

Lemma solid_blank3 (t : str) :
  has blank3 t = false -> has blank3 (re_sub m t) = false.
Proof.
  induction t as [|c t n r Hc IH|c t Hc IH] using (scan_ind m).
  - reflexivity.
  - intros H. rewrite re_sub_cons, Hc.
    destruct (Hm _ _ _ _ Hc) as (_ & _ & Hall).
    rewrite has_blank3_solid by exact Hall. apply IH.
    cbn [has] in H. apply orb_false_iff in H. destruct H as [_ H].
    apply has_skipn_false. exact H.
  - intros H. rewrite re_sub_cons, Hc. cbn [has] in *.
    apply orb_false_iff in H. destruct H as [H1 H2].
    rewrite IH by exact H2. rewrite orb_false_r.
    unfold blank3, lf_run in *. cbn [take_while] in *.
    rewrite solid_take_while. exact H1.
Qed.

End Solid.

Lemma m_dollar_solid : solid m_dollar.
Proof.
  intros c t n r H. apply m_dollar_some in H. destruct H as [-> ->].
  split; [reflexivity|]. split; [discriminate | reflexivity].
Qed.

Lemma m_comma_solid : solid m_comma.
Proof.
  intros c t n r H. apply m_comma_some in H.
  destruct H as (a & b & t' & Ht & Ha & Hb & _ & ->).
  injection Ht as -> _.
  split; [apply digit_not_space; exact Ha|]. split; [discriminate|].
  cbn [forallb]. rewrite (digit_not_space a Ha), (digit_not_space b Hb).
  reflexivity.
Qed.

Lemma re_ws_no_lf (t : str) : no_lf (re_sub m_ws t) = true.
Proof.
  apply (forallb_impl (fun c => negb (is_space c) || ascii_eqb c SP));
    [|apply re_ws_spaces].
  intros c H. destruct (is_lf c) eqn:Hl; [|reflexivity].
  apply ascii_eqb_eq in Hl. subst c. discriminate H.
Qed.

Lemma re_page_no_lf (t : str) : no_lf t = true -> no_lf (re_sub m_page t) = true.
Proof.
  apply forallb_re_sub. intros c x n r H. apply m_page_repl in H. subst r.
  reflexivity.
Qed.

Lemma lf_run_cons (c : ascii) (x : str) :
  lf_run (c :: x)
  = if is_space c then ((if is_lf c then 1 else 0) + lf_run x)%nat else 0%nat.
Proof.
  unfold lf_run. cbn [take_while]. destruct (is_space c); [|reflexivity].
  cbn [filter]. destruct (is_lf c); reflexivity.
Qed.

(** Where the input holds no line feed, the table rule leaves at most two
    line feeds in any run of whitespace: the one that ends a marker and
    the one that begins the next. *)
Lemma re_table_blank3 (t : str) :
  no_lf t = true ->
  (lf_run (re_sub m_table t) <= 1)%nat
  /\ has blank3 (re_sub m_table t) = false.
Proof.
  induction t as [|c t n r Hc IH|c t Hc IH] using (scan_ind m_table).
  - intros _. split; [cbn; lia | reflexivity].
  - intros H. rewrite re_sub_cons, Hc.
    apply m_table_repl in Hc. subst r.
    assert (Hrest : no_lf (skipn (pred n) t) = true).
    { unfold no_lf in *. cbn [forallb] in H. apply andb_true_iff in H.
      apply forallb_skipn. tauto. }
    destruct (IH Hrest) as [IH1 IH2].
    remember (re_sub m_table (skipn (pred n) t)) as out eqn:Hout.
    change ((LF :: lit "TABLE:" ++ [LF]) ++ out)
      with (LF :: (lit "TABLE:" ++ LF :: out)).
    split.
    + rewrite lf_run_cons. change (is_space LF) with true.
      change (is_lf LF) with true. cbv iota.
      change (lit "TABLE:" ++ LF :: out)
        with (chr 84 :: (lit "ABLE:" ++ LF :: out)).
      rewrite lf_run_cons. change (is_space (chr 84)) with false. cbv iota. lia.
    + cbn [has]. rewrite orb_false_iff. split.
      * unfold blank3. rewrite lf_run_cons. change (is_space LF) with true.
        change (is_lf LF) with true. cbv iota.
        change (lit "TABLE:" ++ LF :: out)
          with (chr 84 :: (lit "ABLE:" ++ LF :: out)).
        rewrite lf_run_cons. change (is_space (chr 84)) with false. reflexivity.
      * rewrite has_blank3_solid by reflexivity.
        cbn [has]. rewrite IH2, orb_false_r.
        unfold blank3. rewrite lf_run_cons. change (is_space LF) with true.
        change (is_lf LF) with true. cbv iota.
        apply Nat.leb_gt. lia.
  - intros H. rewrite re_sub_cons, Hc.
    unfold no_lf in H. cbn [forallb] in H. apply andb_true_iff in H.
    destruct H as [Hlf Ht]. apply negb_true_iff in Hlf.
    destruct (IH Ht) as [IH1 IH2].
    assert (Hrun : (lf_run (c :: re_sub m_table t) <= 1)%nat).
    { rewrite lf_run_cons. rewrite Hlf. destruct (is_space c); lia. }
    split; [exact Hrun|].
    cbn [has]. rewrite IH2, orb_false_r. unfold blank3.
    apply Nat.leb_gt. lia.
Qed.

Lemma m_blank_blank3 (c : ascii) (t : str) :
  blank3 (c :: t) = false -> m_blank (c :: t) = None.
Proof.
  unfold m_blank, blank3, lf_run. intros ->.
  destruct (is_lf c); reflexivity.
Qed.

Lemma re_blank_none (t : str) :
  has blank3 t = false -> re_sub m_blank t = t.
Proof.
  induction t as [|c t IH]; [reflexivity|].
  cbn [has]. intros H. apply orb_false_iff in H. destruct H as [H1 H2].
  rewrite re_sub_cons, (m_blank_blank3 c t H1), IH by exact H2. reflexivity.
Qed.

Lemma before_blank_rule (text : str) :
  has blank3 (re_sub m_comma (before_comma_rule text)) = false.
Proof.
  unfold before_comma_rule.
  apply (solid_blank3 m_comma m_comma_solid).
  apply (solid_blank3 m_dollar m_dollar_solid).
  apply re_table_blank3. apply re_page_no_lf. apply re_ws_no_lf.
Qed.

Lemma clean_text_five_rules (text : str) :
  clean_text text = strip (re_sub m_comma (before_comma_rule text)).
Proof.
  pose proof (re_blank_none _ (before_blank_rule text)) as H.
  destruct text as [|c t]; [reflexivity|].
  unfold clean_text. cbv zeta. unfold before_comma_rule in *.
  rewrite H. reflexivity.
Qed.

(** X16.  The rule that removes excessive line breaks never changes the text:
    when it runs, no run of whitespace holds three line feeds.  Cleaning
    is the five other rules followed by trimming. *)
Theorem X16_clean_text_blank_rule_idle (text : str) :
  re_sub m_blank (re_sub m_comma (before_comma_rule text))
  = re_sub m_comma (before_comma_rule text)
  /\ clean_text text = strip (re_sub m_comma (before_comma_rule text)).
Proof.
  split; [apply re_blank_none, before_blank_rule | apply clean_text_five_rules].
Qed.

(** ** Dollar signs *)

Lemma no_pair_app_r (bad : ascii -> ascii -> bool) (w x : str) :
  no_pair bad (w ++ x) = true -> no_pair bad x = true.
Proof.
  induction w as [|a w IH]; [auto|].
  cbn [app no_pair]. intros H. apply andb_true_iff in H. apply IH. tauto.
Qed.

Lemma no_pair_app_l (bad : ascii -> ascii -> bool) (x w : str) :
  no_pair bad (x ++ w) = true -> no_pair bad x = true.
Proof.
  induction x as [|a x IH]; [reflexivity|].
  cbn [app no_pair]. intros H. apply andb_true_iff in H. destruct H as [Hn H].
  rewrite IH by exact H. rewrite andb_true_r.
  destruct x; [reflexivity | exact Hn].
Qed.

Lemma no_pair_strip (bad : ascii -> ascii -> bool) (t : str) :
  no_pair bad t = true -> no_pair bad (strip t) = true.
Proof.
  intros H. unfold strip.
  destruct (lstrip_split t) as (w1 & H1 & _).
  destruct (rstrip_split (lstrip t)) as (w2 & H2 & _).
  rewrite H1 in H. apply no_pair_app_r in H.
  rewrite H2 in H. apply no_pair_app_l in H. exact H.
Qed.

Lemma re_dollar_no_pair (t : str) :
  no_pair dollar_ws (re_sub m_dollar t) = true.
Proof.
  induction t as [t IH] using str_length_ind.
  destruct t as [|c t]; [reflexivity|].
  rewrite re_dollar_cons. destruct (is_dollar c) eqn:Hd; cbn [no_pair].
  - rewrite IH by (pose proof (drop_while_length is_space t); cbn; lia).
    rewrite andb_true_r.
    pose proof (drop_while_head is_space t) as Hh.
    pose proof (re_dollar_head (drop_while is_space t)) as Hhd.
    destruct (drop_while is_space t) as [|c' x];
      destruct (re_sub m_dollar _) as [|d y]; try discriminate Hhd;
      try reflexivity.
    injection Hhd as ->. cbn [next_ok]. unfold dollar_ws.
    rewrite Hh, andb_false_r. reflexivity.
  - rewrite IH by (cbn; lia). rewrite andb_true_r.
    destruct (re_sub m_dollar t); [reflexivity|].
    cbn [next_ok]. unfold dollar_ws. rewrite Hd. reflexivity.
Qed.

Lemma digit_not_dollar (c : ascii) : is_digit c = true -> is_dollar c = false.
Proof.
  intros H. destruct (is_dollar c) eqn:Hd; [|reflexivity].
  apply ascii_eqb_eq in Hd. subst c. discriminate H.
Qed.

Lemma re_comma_no_pair (t : str) :
  no_pair dollar_ws t = true -> no_pair dollar_ws (re_sub m_comma t) = true.
Proof.
  induction t as [t IH] using str_length_ind.
  destruct t as [|a t]; [reflexivity|].
  destruct (dcd_at (a :: t)) eqn:Hd.
  - destruct t as [|b [|c t]]; try discriminate Hd.
    cbn [dcd_at] in Hd. apply andb_true_iff in Hd. destruct Hd as [Hd Hc].
    apply andb_true_iff in Hd. destruct Hd as [Ha Hb].
    apply ascii_eqb_eq in Hb. subst b.
    rewrite re_comma_match by assumption.
    cbn [no_pair]. intros H.
    apply andb_true_iff in H. destruct H as [_ H].
    apply andb_true_iff in H. destruct H as [_ H].
    apply andb_true_iff in H. destruct H as [Hn H].
    rewrite IH by (cbn; lia || exact H).
    rewrite (next_ok_head dollar_ws c (re_sub m_comma t) t) by apply re_comma_hd.
    rewrite Hn. cbn [next_ok]. unfold dollar_ws.
    rewrite (digit_not_dollar a Ha). reflexivity.
  - rewrite re_comma_skip by assumption.
    cbn [no_pair]. intros H. apply andb_true_iff in H. destruct H as [Hn H].
    rewrite IH by (cbn; lia || exact H).
    rewrite (next_ok_head _ _ _ t) by apply re_comma_hd. rewrite Hn.
    reflexivity.
Qed.

(** X17.  Whatever the input, the cleaned text has no whitespace at either end,
    its only whitespace characters are the space and the line feed, and
    no dollar sign in it is followed by whitespace. *)
Theorem X17_clean_text_shape (text : str) :
  strip (clean_text text) = clean_text text
  /\ forallb plain_ws (clean_text text) = true
  /\ no_pair dollar_ws (clean_text text) = true.
Proof.
  split; [|split].
  - destruct text as [|c t]; [reflexivity|].
    unfold clean_text. cbv zeta. apply strip_twice.
  - apply clean_text_plain_ws.
  - rewrite clean_text_five_rules.
    apply no_pair_strip, re_comma_no_pair.
    unfold before_comma_rule. apply re_dollar_no_pair.
Qed.

(** ** Texts of whitespace *)

Lemma drop_while_all (p : ascii -> bool) (t : str) :
  forallb p t = true -> drop_while p t = [].
Proof.
  induction t as [|c t IH]; [reflexivity|].
  cbn [forallb drop_while]. intros H. apply andb_true_iff in H.
  destruct H as [-> H]. apply IH. exact H.
Qed.

(** X18.  A text that holds nothing but whitespace is cleaned to the empty
    text. *)
Theorem X18_clean_text_of_whitespace (text : str)
  (Hblank : forallb is_space text = true) :
  clean_text text = [].
Proof.
  destruct text as [|c t]; [reflexivity|].
  cbn [forallb] in Hblank. apply andb_true_iff in Hblank.
  destruct Hblank as [Hc Ht].
  unfold clean_text. cbv zeta.
  rewrite re_ws_cons, Hc, (drop_while_all _ _ Ht). reflexivity.
Qed.

Lemma X18_clean_text_of_whitespace_witness :
  clean_text [SP; chr 9; LF; chr 13; LF; LF; chr 160] = [].
Proof.
  apply (X18_clean_text_of_whitespace [SP; chr 9; LF; chr 13; LF; LF; chr 160]).
  reflexivity.
Defined.

(** ** The length of a cleaned text *)

(** A rule whose replacements are no longer than its matches does not
    lengthen the text. *)
Lemma re_sub_length (m : matcher) :
  (forall c t n r, m (c :: t) = Some (n, r) ->
                   (List.length r <= n <= S (List.length t))%nat) ->
  forall t : str, (List.length (re_sub m t) <= List.length t)%nat.
Proof.
  intros Hm t. induction t as [|c t n r Hc IH|c t Hc IH] using (scan_ind m).
  - cbn. lia.
  - rewrite re_sub_cons, Hc, length_app.
    pose proof (Hm _ _ _ _ Hc) as Hn. rewrite length_skipn in IH.
    cbn [List.length]. lia.
  - rewrite re_sub_cons, Hc. cbn [List.length]. lia.
Qed.

Lemma match_lit_length (p t t' : str) :
  match_lit p t = Some t' ->
  List.length t = (List.length p + List.length t')%nat.
Proof.
  unfold match_lit. destruct (starts_with p t) eqn:Hs; [|discriminate].
  intros [= <-]. revert t Hs. induction p as [|x p IH]; intros t Hs.
  - reflexivity.
  - destruct t as [|y t]; [discriminate Hs|]. cbn [starts_with] in Hs.
    apply andb_true_iff in Hs. destruct Hs as [_ Hs].
    cbn [List.length skipn]. rewrite (IH t Hs). reflexivity.
Qed.

Lemma match_digits1_length (t t' : str) :
  match_digits1 t = Some t' -> (List.length t' <= List.length t)%nat.
Proof.
  unfold match_digits1. destruct t as [|c t]; [discriminate|].
  destruct (is_digit c); [|discriminate]. intros [= <-].
  exact (drop_while_length is_digit (c :: t)).
Qed.

Lemma m_page_length (t : str) (n : nat) (r : str) :
  m_page t = Some (n, r) -> (List.length r <= n <= List.length t)%nat.
Proof.
  intros H. pose proof (m_page_repl t n r H) as ->. revert H.
  unfold m_page. destruct (match_lit _ t) as [t1|]; cbn [bind_opt]; [|discriminate].
  destruct (match_digits1 t1) as [t2|]; cbn [bind_opt]; [|discriminate].
  destruct (match_lit _ t2) as [t3|]; cbn [bind_opt]; [|discriminate].
  intros [= <-]. unfold consumed. cbn [List.length]. lia.
Qed.

Lemma m_table_length (t : str) (n : nat) (r : str) :
  m_table t = Some (n, r) -> (List.length r <= n <= List.length t)%nat.
Proof.
  intros H. pose proof (m_table_repl t n r H) as ->. revert H.
  unfold m_table.
  destruct (match_lit _ t) as [t1|] eqn:H1; cbn [bind_opt]; [|discriminate].
  destruct (match_digits1 t1) as [t2|] eqn:H2; cbn [bind_opt]; [|discriminate].
  destruct (match_lit _ t2) as [t3|] eqn:H3; cbn [bind_opt]; [|discriminate].
  destruct (match_digits1 t3) as [t4|] eqn:H4; cbn [bind_opt]; [|discriminate].
  destruct (match_lit _ t4) as [t5|] eqn:H5; cbn [bind_opt]; [|discriminate].
  intros [= <-]. unfold consumed.
  apply match_lit_length in H1, H3, H5.
  apply match_digits1_length in H2, H4.
  cbn [List.length lit list_ascii_of_string app] in *. lia.
Qed.

(** X19.  Cleaning never makes a text longer. *)
Theorem X19_clean_text_length (text : str) : len (clean_text text) <= len text.
Proof.
  rewrite clean_text_five_rules. unfold before_comma_rule.
  assert (H5 : (List.length (re_sub m_comma
                   (re_sub m_dollar (re_sub m_table (re_sub m_page
                      (re_sub m_ws text)))))
                <= List.length text)%nat).
  { etransitivity; [apply re_sub_length|].
    { intros c t n r H. apply m_comma_some in H.
      destruct H as (a & b & t' & Ht & _ & _ & -> & ->).
      injection Ht as _ ->. cbn [List.length]. lia. }
    etransitivity; [apply re_sub_length|].
    { intros c t n r H. rewrite m_dollar_cons in H.
      destruct (is_dollar c); [|discriminate]. injection H as <- <-.
      pose proof (f_equal (@List.length ascii) (take_drop_while is_space t)) as Hl.
      rewrite length_app in Hl. cbn [List.length]. lia. }
    etransitivity; [apply re_sub_length|].
    { intros c t n r H. apply m_table_length in H. cbn [List.length] in H. lia. }
    etransitivity; [apply re_sub_length|].
    { intros c t n r H. apply m_page_length in H. cbn [List.length] in H. lia. }
    apply re_ws_length. }
  pose proof (strip_length (re_sub m_comma
                (re_sub m_dollar (re_sub m_table (re_sub m_page
                   (re_sub m_ws text)))))) as Hs.
  unfold len. lia.
Qed.

(** ** Lengths and trimming *)

Lemma len_app (a b : str) : len (a ++ b) = len a + len b.
Proof. unfold len. rewrite length_app. lia. Qed.

Lemma len_nonneg (a : str) : 0 <= len a.
Proof. unfold len. lia. Qed.

Lemma len_strip (a : str) : len (strip a) <= len a.
Proof. unfold len. pose proof (strip_length a). lia. Qed.

Lemma lstrip_spaces (w z : str) :
  Forall (fun c => is_space c = true) w -> lstrip (w ++ z) = lstrip z.
Proof.
  induction 1 as [|c w Hc _ IH]; [reflexivity|].
  cbn [app lstrip]. rewrite Hc. exact IH.
Qed.

Lemma rstrip_spaces (z w : str) :
  Forall (fun c => is_space c = true) w -> rstrip (z ++ w) = rstrip z.
Proof.
  intros H. unfold rstrip. rewrite rev_app_distr.
  rewrite lstrip_spaces by (apply Forall_rev; exact H). reflexivity.
Qed.

(** Whitespace at the end does not survive trimming. *)
Lemma strip_spaces (x w : str) :
  Forall (fun c => is_space c = true) w -> strip (x ++ w) = strip x.
Proof.
  intros Hw. unfold strip.
  destruct (lstrip_split x) as (w1 & H1 & Hw1).
  rewrite H1 at 1. rewrite <- app_assoc, lstrip_spaces by exact Hw1.
  pose proof (lstrip_head x) as Hh.
  destruct (lstrip x) as [|c y].
  - cbn [app]. rewrite <- (app_nil_r w), lstrip_spaces by exact Hw. reflexivity.
  - cbn [app lstrip]. rewrite Hh.
    change (c :: y ++ w) with ((c :: y) ++ w).
    apply rstrip_spaces. exact Hw.
Qed.

Lemma strip_sentence (body : str) :
  strip (body ++ lit ". ") = strip (body ++ lit ".").
Proof.
  change (lit ". ") with (lit "." ++ [SP]). rewrite app_assoc.
  apply strip_spaces. repeat constructor.
Qed.

Lemma strip_paragraph (body : str) : strip (body ++ [LF; LF]) = strip body.
Proof. apply strip_spaces. repeat constructor. Qed.

Lemma len_strip_sentence (body : str) :
  len (strip (body ++ lit ". ")) <= len body + 1.
Proof.
  rewrite strip_sentence. pose proof (len_strip (body ++ lit ".")) as H.
  rewrite len_app in H. exact H.
Qed.

Lemma len_strip_paragraph (body : str) :
  len (strip (body ++ [LF; LF])) <= len body.
Proof. rewrite strip_paragraph. apply len_strip. Qed.

(** ** The size of a chunk *)

Section ChunkSize.

Variable text : str.
Variable max_chunk_size : Z.

Local Abbreviation ok := (chunk_ok text max_chunk_size).

(** The chunks emitted so far are as they should be, and so is the
    accumulator once trimmed. *)
Local Abbreviation state_ok st :=
  (Forall (fun c => ok c /\ strip c = c) (fst st)
   /\ (snd st = [] \/ ok (strip (snd st)))).

Lemma flush_if_full_ok (piece : str) (st : chunk_state) :
  state_ok st ->
  state_ok (flush_if_full max_chunk_size piece st)
  /\ (snd (flush_if_full max_chunk_size piece st) = []
      \/ len (snd (flush_if_full max_chunk_size piece st)) + len piece
         <= max_chunk_size).
Proof.
  destruct st as [chunks cur]. cbn [fst snd]. intros [Hc Hcur].
  unfold flush_if_full.
  destruct (len cur + len piece >? max_chunk_size) eqn:Hfull; cbn [andb].
  - destruct cur as [|a cur']; cbn [nonempty fst snd].
    + split; [split; [exact Hc | left; reflexivity] | left; reflexivity].
    + split; [|left; reflexivity]. split; [|left; reflexivity].
      apply Forall_app. split; [exact Hc|]. constructor; [|constructor].
      destruct Hcur as [Hnil|Hok]; [discriminate Hnil|].
      split; [exact Hok | apply strip_twice].
  - cbn [fst snd]. split; [split; assumption|]. right.
    rewrite Z.gtb_ltb in Hfull. apply Z.ltb_ge in Hfull. exact Hfull.
Qed.

Lemma sentence_step_ok (st : chunk_state) (s : str) :
  sentence_of text s -> state_ok st ->
  state_ok (sentence_step max_chunk_size st s).
Proof.
  intros Hs Hst. unfold sentence_step.
  destruct (flush_if_full_ok s st Hst) as [[Hc _] Hfit].
  destruct (flush_if_full max_chunk_size s st) as [chunks cur].
  cbn [fst snd] in *. split; [exact Hc|]. right.
  rewrite app_assoc. destruct Hfit as [->|Hfit].
  - cbn [app]. destruct (Z.le_gt_cases (len s) max_chunk_size) as [Hle|Hgt].
    + left. pose proof (len_strip_sentence s). lia.
    + right. exists s. auto.
  - left. pose proof (len_strip_sentence (cur ++ s)) as H.
    rewrite len_app in H. lia.
Qed.

Lemma sentences_ok (ss : list str) :
  forall st, (forall s, In s ss -> sentence_of text s) -> state_ok st ->
             state_ok (fold_left (sentence_step max_chunk_size) ss st).
Proof.
  induction ss as [|s ss IH]; intros st Hss Hst; [exact Hst|].
  cbn [fold_left]. apply IH.
  - intros s' Hin. apply Hss. right. exact Hin.
  - apply sentence_step_ok; [apply Hss; left; reflexivity | exact Hst].
Qed.

Lemma paragraph_step_ok (st : chunk_state) (p : str) :
  In p (split [LF; LF] text) -> state_ok st ->
  state_ok (paragraph_step max_chunk_size st p).
Proof.
  intros Hp Hst. unfold paragraph_step.
  destruct (flush_if_full_ok p st Hst) as [Hflushed Hfit].
  destruct (flush_if_full max_chunk_size p st) as [chunks cur].
  destruct (len p >? max_chunk_size) eqn:Hlong.
  - apply sentences_ok; [|exact Hflushed].
    intros s Hs. exists p. auto.
  - cbn [fst snd] in *. destruct Hflushed as [Hc _]. split; [exact Hc|].
    right. left. rewrite Z.gtb_ltb in Hlong. apply Z.ltb_ge in Hlong.
    rewrite app_assoc. pose proof (len_strip_paragraph (cur ++ p)) as H.
    rewrite len_app in H. destruct Hfit as [->|Hfit].
    + change (len []) with 0 in H. lia.
    + lia.
Qed.

Lemma paragraphs_ok (ps : list str) :
  forall st, (forall p, In p ps -> In p (split [LF; LF] text)) -> state_ok st ->
             state_ok (fold_left (paragraph_step max_chunk_size) ps st).
Proof.
  induction ps as [|p ps IH]; intros st Hps Hst; [exact Hst|].
  cbn [fold_left]. apply IH.
  - intros p' Hin. apply Hps. right. exact Hin.
  - apply paragraph_step_ok; [apply Hps; left; reflexivity | exact Hst].
Qed.

Lemma chunks_ok (c : str) :
  In c (chunk_text_for_llm text max_chunk_size) ->
  ok c /\ (max_chunk_size < len text -> strip c = c).
Proof.
  unfold chunk_text_for_llm.
  destruct (len text <=? max_chunk_size) eqn:Hshort.
  - apply Z.leb_le in Hshort. intros [<-|[]]. split; [left; lia | lia].
  - pose proof (paragraphs_ok (split [LF; LF] text) ([], [])) as H.
    destruct (fold_left _ _ _) as [chunks cur].
    destruct H as [Hc Hcur]; [auto | split; [constructor | left; reflexivity] |].
    cbn [fst snd] in *. rewrite Forall_forall in Hc.
    destruct (nonempty (strip cur)) eqn:Hne.
    + intros Hin. apply in_app_or in Hin. destruct Hin as [Hin|[<-|[]]].
      * destruct (Hc c Hin) as [H1 H2]. auto.
      * split; [|intros _; apply strip_twice].
        destruct Hcur as [->|Hok]; [discriminate Hne | exact Hok].
    + intros Hin. destruct (Hc c Hin) as [H1 H2]. auto.
Qed.

End ChunkSize.

(** X20.  A chunk has at most [max_chunk_size + 1] characters, unless it is a
    single sentence that is itself longer than the limit, which is emitted
    whole with its full stop.  When the text is split at all, every chunk
    is trimmed. *)
Theorem X20_chunk_size_bound (text : str) (max_chunk_size : Z) (c : str)
  (Hchunk : In c (chunk_text_for_llm text max_chunk_size)) :
  (len c <= max_chunk_size + 1
   \/ exists p s,
       In p (split [LF; LF] text) /\ In s (split (lit ". ") p)
       /\ max_chunk_size < len s /\ c = strip (s ++ lit ". "))
  /\ (max_chunk_size < len text -> strip c = c).
Proof.
  destruct (chunks_ok text max_chunk_size c Hchunk) as [Hok Hstrip].
  split; [|exact Hstrip].
  destruct Hok as [Hshort|(s & (p & Hp & Hs) & Hlong & Hc)].
  - left. exact Hshort.
  - right. exists p, s. auto.
Qed.

Lemma X20_chunk_size_bound_witness :
  (len (lit "ab. cde.") <= 7 + 1
   \/ exists p s,
       In p (split [LF; LF] (lit "ab. cde. fg")) /\ In s (split (lit ". ") p)
       /\ 7 < len s /\ lit "ab. cde." = strip (s ++ lit ". "))
  /\ (7 < len (lit "ab. cde. fg") -> strip (lit "ab. cde.") = lit "ab. cde.").
Proof.
  apply (X20_chunk_size_bound (lit "ab. cde. fg") 7 (lit "ab. cde.")).
  vm_compute. left. reflexivity.
Defined.

(** ** Splitting and joining *)

Lemma split_from_skip (sep : str) (t : str) :
  forall k cur, split_from sep k cur t = split_from sep 0 cur (skipn k t).
Proof.
  induction t as [|c t IH]; intros [|k] cur; try reflexivity.
  cbn [split_from skipn]. apply IH.
Qed.

Lemma starts_with_skipn (p t : str) :
  starts_with p t = true -> t = p ++ skipn (List.length p) t.
Proof.
  revert t. induction p as [|x p IH]; intros t; [reflexivity|].
  destruct t as [|y t]; [discriminate|]. cbn [starts_with].
  intros H. apply andb_true_iff in H. destruct H as [Hx Hp].
  apply ascii_eqb_eq in Hx. subst y. cbn [List.length skipn app].
  f_equal. apply IH. exact Hp.
Qed.

Lemma split_from_cons (sep : str) (t cur : str) :
  exists x rest, split_from sep 0 cur t = x :: rest.
Proof.
  revert cur. induction t as [|c t IH]; intros cur; cbn [split_from].
  - eauto.
  - destruct (starts_with sep (c :: t)); [eauto | apply IH].
Qed.

Lemma join_cons (sep x y : str) (rest : list str) :
  join sep (x :: y :: rest) = x ++ sep ++ join sep (y :: rest).
Proof. reflexivity. Qed.

(** [sep.join(t.split(sep)) == t]. *)
Lemma join_split_from (sep : str) :
  sep <> [] ->
  forall t cur, join sep (split_from sep 0 cur t) = rev cur ++ t.
Proof.
  intros Hsep t. induction t as [t IH] using str_length_ind. intros cur.
  destruct t as [|c t]; [cbn; rewrite app_nil_r; reflexivity|].
  cbn [split_from]. destruct (starts_with sep (c :: t)) eqn:Hs.
  - rewrite split_from_skip.
    assert (IH' : join sep (split_from sep 0 [] (skipn (pred (List.length sep)) t))
                  = skipn (pred (List.length sep)) t).
    { apply (IH (skipn (pred (List.length sep)) t)).
      rewrite length_skipn. cbn. lia. }
    destruct (split_from_cons sep (skipn (pred (List.length sep)) t) [])
      as (x & rest & Hx).
    rewrite Hx in *. rewrite join_cons, IH'.
    apply starts_with_skipn in Hs.
    destruct sep as [|s0 sep']; [congruence|].
    cbn [List.length pred skipn] in *. f_equal. symmetry. exact Hs.
  - rewrite IH by (cbn; lia). cbn [rev]. rewrite <- app_assoc. reflexivity.
Qed.

Lemma join_split (sep t : str) : sep <> [] -> join sep (split sep t) = t.
Proof. intros H. unfold split. rewrite join_split_from by exact H. reflexivity. Qed.

Lemma concat_with_sep (sep : str) (l : list str) :
  l <> [] -> List.concat (map (fun s => s ++ sep) l) = join sep l ++ sep.
Proof.
  induction l as [|x l IH]; [congruence|]. intros _.
  destruct l as [|y l].
  - cbn. rewrite app_nil_r. reflexivity.
  - rewrite join_cons. cbn [map List.concat] in *. rewrite IH by discriminate.
    rewrite <- !app_assoc. reflexivity.
Qed.

Lemma split_not_nil (sep t : str) : split sep t <> [].
Proof.
  unfold split. destruct (split_from_cons sep t []) as (x & rest & ->).
  discriminate.
Qed.

(** ** What chunking keeps *)

Lemma nonspace_app (a b : str) : nonspace (a ++ b) = nonspace a ++ nonspace b.
Proof. apply filter_app. Qed.

Lemma nonspace_spaces (w : str) :
  Forall (fun c => is_space c = true) w -> nonspace w = [].
Proof.
  induction 1 as [|c w Hc _ IH]; [reflexivity|].
  unfold nonspace in *. cbn [filter]. rewrite Hc. exact IH.
Qed.

Lemma nonspace_strip (t : str) : nonspace (strip t) = nonspace t.
Proof.
  unfold strip.
  destruct (lstrip_split t) as (w1 & H1 & Hw1).
  destruct (rstrip_split (lstrip t)) as (w2 & H2 & Hw2).
  rewrite H1 at 2. rewrite H2 at 2.
  rewrite !nonspace_app, (nonspace_spaces w1 Hw1), (nonspace_spaces w2 Hw2).
  rewrite app_nil_r. reflexivity.
Qed.

Lemma nonspace_join (sep : str) (l : list str) :
  Forall (fun c => is_space c = true) sep ->
  nonspace (join sep l) = nonspace (List.concat l).
Proof.
  intros Hsep. induction l as [|x l IH]; [reflexivity|].
  destruct l as [|y l].
  - cbn. rewrite app_nil_r. reflexivity.
  - rewrite join_cons. cbn [List.concat] in *.
    rewrite (nonspace_app x), (nonspace_app sep), (nonspace_spaces sep Hsep), IH.
    rewrite (nonspace_app x). reflexivity.
Qed.

(** The characters other than whitespace that a state of the loop holds:
    those of the chunks emitted so far, then those of the accumulator. *)
Lemma nonspace_flush (max_chunk_size : Z) (piece : str) (st : chunk_state) :
  nonspace (List.concat (fst (flush_if_full max_chunk_size piece st))
            ++ snd (flush_if_full max_chunk_size piece st))
  = nonspace (List.concat (fst st) ++ snd st).
Proof.
  destruct st as [chunks cur]. unfold flush_if_full.
  destruct ((len cur + len piece >? max_chunk_size) && nonempty cur);
    [|reflexivity].
  cbn [fst snd]. rewrite concat_app. cbn [List.concat].
  rewrite !app_nil_r, !nonspace_app, nonspace_strip. reflexivity.
Qed.

Lemma nonspace_sentence_step (max_chunk_size : Z) (st : chunk_state) (s : str) :
  nonspace (List.concat (fst (sentence_step max_chunk_size st s))
            ++ snd (sentence_step max_chunk_size st s))
  = nonspace (List.concat (fst st) ++ snd st) ++ nonspace (s ++ lit ". ").
Proof.
  unfold sentence_step. rewrite <- (nonspace_flush max_chunk_size s st).
  destruct (flush_if_full max_chunk_size s st) as [chunks cur].
  cbn [fst snd]. rewrite !nonspace_app. rewrite <- !app_assoc. reflexivity.
Qed.

Lemma nonspace_sentences (max_chunk_size : Z) (ss : list str) :
  forall st,
    nonspace (List.concat (fst (fold_left (sentence_step max_chunk_size) ss st))
              ++ snd (fold_left (sentence_step max_chunk_size) ss st))
    = nonspace (List.concat (fst st) ++ snd st)
      ++ nonspace (List.concat (map (fun s => s ++ lit ". ") ss)).
Proof.
  induction ss as [|s ss IH]; intros st.
  - cbn. rewrite app_nil_r. reflexivity.
  - cbn [fold_left map List.concat]. rewrite IH, nonspace_sentence_step.
    rewrite (nonspace_app (s ++ lit ". ")), <- app_assoc. reflexivity.
Qed.

Lemma nonspace_closed_long (p : str) :
  nonspace (List.concat (map (fun s => s ++ lit ". ") (split (lit ". ") p)))
  = nonspace (p ++ lit ".").
Proof.
  rewrite concat_with_sep by apply split_not_nil.
  rewrite join_split by discriminate.
  change (lit ". ") with (lit "." ++ [SP]).
  rewrite app_assoc, nonspace_app. rewrite (nonspace_spaces [SP]) by (repeat constructor).
  apply app_nil_r.
Qed.

Lemma nonspace_paragraph_step (max_chunk_size : Z) (st : chunk_state) (p : str) :
  nonspace (List.concat (fst (paragraph_step max_chunk_size st p))
            ++ snd (paragraph_step max_chunk_size st p))
  = nonspace (List.concat (fst st) ++ snd st) ++ nonspace (closed max_chunk_size p).
Proof.
  unfold paragraph_step, closed. rewrite <- (nonspace_flush max_chunk_size p st).
  destruct (flush_if_full max_chunk_size p st) as [chunks cur].
  destruct (len p >? max_chunk_size).
  - rewrite nonspace_sentences, nonspace_closed_long. reflexivity.
  - cbn [fst snd]. rewrite !nonspace_app.
    rewrite (nonspace_spaces [LF; LF]) by (repeat constructor).
    rewrite app_nil_r, <- app_assoc. reflexivity.
Qed.

Lemma nonspace_paragraphs (max_chunk_size : Z) (ps : list str) :
  forall st,
    nonspace (List.concat (fst (fold_left (paragraph_step max_chunk_size) ps st))
              ++ snd (fold_left (paragraph_step max_chunk_size) ps st))
    = nonspace (List.concat (fst st) ++ snd st)
      ++ nonspace (List.concat (map (closed max_chunk_size) ps)).
Proof.
  induction ps as [|p ps IH]; intros st.
  - cbn. rewrite app_nil_r. reflexivity.
  - cbn [fold_left map List.concat]. rewrite IH, nonspace_paragraph_step.
    rewrite (nonspace_app (closed max_chunk_size p)), <- app_assoc. reflexivity.
Qed.

Lemma nonspace_chunks (text : str) (max_chunk_size : Z) :
  max_chunk_size < len text ->
  nonspace (List.concat (chunk_text_for_llm text max_chunk_size))
  = nonspace (List.concat (map (closed max_chunk_size) (split [LF; LF] text))).
Proof.
  intros Hlong. unfold chunk_text_for_llm.
  replace (len text <=? max_chunk_size) with false
    by (symmetry; apply Z.leb_gt; exact Hlong).
  pose proof (nonspace_paragraphs max_chunk_size (split [LF; LF] text) ([], []))
    as H.
  destruct (fold_left _ _ _) as [chunks cur]. cbn [fst snd List.concat app] in H.
  change (nonspace []) with (@nil ascii) in H. cbn [app] in H. rewrite <- H.
  rewrite nonspace_app.
  destruct (nonempty (strip cur)) eqn:Hne.
  - rewrite concat_app. cbn [List.concat].
    rewrite app_nil_r, nonspace_app, nonspace_strip. reflexivity.
  - rewrite <- (nonspace_strip cur).
    destruct (strip cur); [|discriminate Hne]. cbn. rewrite app_nil_r. reflexivity.
Qed.

(** X21.  Chunking drops whitespace only, and adds a full stop only after a
    paragraph that is longer than the limit: the characters other than
    whitespace of the chunks, read in order, are those of the paragraphs,
    each over-long one followed by a full stop.  When every paragraph
    fits, they are the characters other than whitespace of the text. *)
Theorem X21_chunk_content (text : str) (max_chunk_size : Z) :
  (max_chunk_size < len text ->
   nonspace (List.concat (chunk_text_for_llm text max_chunk_size))
   = nonspace (List.concat (map (closed max_chunk_size) (split [LF; LF] text))))
  /\ ((forall p, In p (split [LF; LF] text) -> len p <= max_chunk_size) ->
      nonspace (List.concat (chunk_text_for_llm text max_chunk_size))
      = nonspace text).
Proof.
  split; [apply nonspace_chunks|].
  intros Hfit. destruct (Z.le_gt_cases (len text) max_chunk_size) as [Hle|Hgt].
  - unfold chunk_text_for_llm.
    replace (len text <=? max_chunk_size) with true
      by (symmetry; apply Z.leb_le; exact Hle).
    cbn [List.concat]. rewrite app_nil_r. reflexivity.
  - rewrite nonspace_chunks by exact Hgt.
    rewrite (map_ext_in (closed max_chunk_size) (fun p => p)).
    2:{ intros p Hp. unfold closed.
        replace (len p >? max_chunk_size) with false; [reflexivity|].
        symmetry. rewrite Z.gtb_ltb. apply Z.ltb_ge. apply Hfit. exact Hp. }
    rewrite map_id.
    rewrite <- (nonspace_join [LF; LF]) by (repeat constructor).
    rewrite join_split by discriminate. reflexivity.
Qed.

Lemma X21_chunk_content_witness :
  chunk_text_for_llm two_paragraphs 30
  = [lit "Revenue grew. Costs fell."; lit "Net income doubled."]
  /\ nonspace (List.concat (chunk_text_for_llm two_paragraphs 30))
     = nonspace two_paragraphs.
Proof.
  split; [reflexivity|].
  apply (X21_chunk_content two_paragraphs 30).
  intros p Hp. vm_compute in Hp.
  destruct Hp as [<-|[<-|[]]]; vm_compute; discriminate.
Defined.

(** ** Tables *)

Lemma max_of_spec (xs : list Z) :
  forall x,
    x <= max_of x xs
    /\ Forall (fun y => y <= max_of x xs) xs
    /\ (max_of x xs = x \/ In (max_of x xs) xs).
Proof.
  unfold max_of. induction xs as [|y xs IH]; intros x; cbn [fold_left].
  - split; [lia|]. split; [constructor | left; reflexivity].
  - destruct (IH (Z.max x y)) as (H1 & H2 & H3).
    split; [lia|]. split; [constructor; [lia | exact H2]|].
    destruct H3 as [H3|H3]; [|right; right; exact H3].
    destruct (Z.max_spec x y) as [[_ Hm]|[_ Hm]].
    + right. left. rewrite H3. symmetry. exact Hm.
    + left. rewrite H3. exact Hm.
Qed.

Lemma row_cells_ok (line : str) : Forall cell_ok (row_cells line).
Proof.
  unfold row_cells. cbv zeta.
  generalize (if contains_char TAB line then split [TAB] line else gap_split line).
  intros cells. apply Forall_forall. intros cell Hin.
  apply in_map_iff in Hin. destruct Hin as (x & <- & Hx).
  apply filter_In in Hx. destruct Hx as [_ Hx].
  split; [apply nonempty_true; exact Hx | apply strip_twice].
Qed.

Lemma truthy_true {A} (l : list A) : truthy l = true <-> l <> [].
Proof. destruct l; cbn; split; congruence. Qed.

Lemma new_table_ok (current_table : list (list str)) :
  current_table <> [] -> Forall row_ok current_table ->
  table_ok (new_table current_table).
Proof.
  intros Hne Hrows. unfold table_ok, new_table. cbn [rows row_count column_count].
  split; [exact Hne|]. split; [exact Hrows|]. split; [reflexivity|].
  destruct current_table as [|row rest]; [congruence|].
  destruct (max_of_spec (map (fun r => Z.of_nat (List.length r)) rest)
                        (Z.of_nat (List.length row))) as (H1 & H2 & H3).
  split.
  - constructor; [exact H1|]. rewrite Forall_map in H2. exact H2.
  - destruct H3 as [H3|H3].
    + apply Exists_cons_hd. symmetry. exact H3.
    + apply Exists_cons_tl. apply Exists_exists.
      apply in_map_iff in H3. destruct H3 as (r & Hr & Hin).
      exists r. auto.
Qed.

Lemma line_step_fine (st : table_state) (line : str) :
  state_fine st -> state_fine (line_step st line).
Proof.
  destruct st as [[tables current_table] in_table].
  unfold state_fine, line_step. intros (Ht & Hc & Hout).
  destruct (looks_like_row line).
  - cbv zeta. split; [exact Ht|]. split; [|discriminate].
    assert (Hcur : Forall row_ok (if in_table then current_table else []))
      by (destruct in_table; [exact Hc | constructor]).
    destruct (truthy (row_cells line)) eqn:Hrow; [|exact Hcur].
    apply Forall_app. split; [exact Hcur|]. constructor; [|constructor].
    split; [apply truthy_true; exact Hrow | apply row_cells_ok].
  - destruct (in_table && truthy current_table) eqn:Hflush.
    + split; [|split; [constructor | reflexivity]].
      apply Forall_app. split; [exact Ht|]. constructor; [|constructor].
      apply andb_true_iff in Hflush. destruct Hflush as [_ Hne].
      apply new_table_ok; [apply truthy_true; exact Hne | exact Hc].
    + split; [exact Ht|]. split; [exact Hc|]. intros _.
      destruct in_table; [|apply Hout; reflexivity].
      cbn [andb] in Hflush. destruct current_table; [reflexivity | discriminate].
Qed.

Lemma lines_fine (lines : list str) :
  forall st, state_fine st -> state_fine (fold_left line_step lines st).
Proof.
  induction lines as [|line lines IH]; intros st Hst; [exact Hst|].
  cbn [fold_left]. apply IH, line_step_fine. exact Hst.
Qed.

Lemma tables_fine (text : str) :
  Forall table_ok (detect_table_structure text).
Proof.
  unfold detect_table_structure.
  pose proof (lines_fine (split [LF] text) ([], [], false)) as H.
  destruct (fold_left _ _ _) as [[tables current_table] in_table].
  destruct H as (Ht & Hc & _).
  { split; [constructor|]. split; [constructor | reflexivity]. }
  destruct (in_table && truthy current_table) eqn:Hflush; [|exact Ht].
  apply Forall_app. split; [exact Ht|]. constructor; [|constructor].
  apply andb_true_iff in Hflush. destruct Hflush as [_ Hne].
  apply new_table_ok; [apply truthy_true; exact Hne | exact Hc].
Qed.

(** X22.  Every table that [detect_table_structure] returns has at least one
    row; every row has at least one cell; every cell is non-empty and
    trimmed; [row_count] is the number of rows and [column_count] the
    number of cells of a longest row. *)
Theorem X22_detected_tables_well_formed (text : str) (tb : table)
  (Htable : In tb (detect_table_structure text)) :
  rows tb <> []
  /\ row_count tb = Z.of_nat (List.length (rows tb))
  /\ (forall row, In row (rows tb) ->
        row <> [] /\ Z.of_nat (List.length row) <= column_count tb
        /\ forall cell, In cell row -> cell <> [] /\ strip cell = cell)
  /\ (exists row, In row (rows tb)
                  /\ Z.of_nat (List.length row) = column_count tb).
Proof.
  pose proof (tables_fine text) as H. rewrite Forall_forall in H.
  destruct (H tb Htable) as (Hne & Hrows & Hcount & Hmax & Hlongest).
  split; [exact Hne|]. split; [exact Hcount|]. split.
  - intros row Hrow. rewrite Forall_forall in Hrows, Hmax.
    destruct (Hrows row Hrow) as [Hcell Hcells].
    split; [exact Hcell|]. split; [apply Hmax; exact Hrow|].
    intros cell Hin. rewrite Forall_forall in Hcells. apply Hcells. exact Hin.
  - apply Exists_exists in Hlongest. exact Hlongest.
Qed.

Lemma X22_detected_tables_well_formed_witness :
  row_count (new_table [[lit "Assets"; lit "2000"];
                        [lit "Equity"; lit "1200"; lit "ok"]]) = 2
  /\ exists row,
      In row [[lit "Assets"; lit "2000"]; [lit "Equity"; lit "1200"; lit "ok"]]
      /\ Z.of_nat (List.length row) = 3.
Proof.
  assert (Hin : In (new_table [[lit "Assets"; lit "2000"];
                               [lit "Equity"; lit "1200"; lit "ok"]])
                   (detect_table_structure statement_text))
    by (vm_compute; right; left; reflexivity).
  destruct (X22_detected_tables_well_formed statement_text _ Hin)
    as (_ & Hcount & _ & Hlongest).
  split; [exact Hcount | exact Hlongest].
Defined.

Lemma rows_of_cons (line : str) (lines : list str) :
  rows_of (line :: lines)
  = (if looks_like_row line && truthy (row_cells line)
     then [row_cells line] else [])
    ++ rows_of lines.
Proof.
  unfold rows_of. cbn [filter]. destruct (looks_like_row line); [|reflexivity].
  cbn [map filter andb]. destruct (truthy (row_cells line)); reflexivity.
Qed.

Lemma line_step_rows (st : table_state) (line : str) :
  state_fine st ->
  state_rows (line_step st line) = state_rows st ++ rows_of [line].
Proof.
  destruct st as [[tables current_table] in_table].
  unfold state_fine, state_rows, line_step. intros (_ & _ & Hout).
  rewrite rows_of_cons. change (rows_of []) with (@nil (list str)).
  rewrite app_nil_r.
  destruct (looks_like_row line); cbn [andb].
  - cbv zeta.
    assert (Hcur : (if in_table then current_table else []) = current_table).
    { destruct in_table; [reflexivity|]. symmetry. apply Hout. reflexivity. }
    rewrite Hcur. destruct (truthy (row_cells line)).
    + rewrite app_assoc. reflexivity.
    + rewrite !app_nil_r. reflexivity.
  - destruct (in_table && truthy current_table).
    + rewrite map_app, concat_app. cbn [map List.concat rows new_table].
      rewrite !app_nil_r. reflexivity.
    + rewrite app_nil_r. reflexivity.
Qed.

Lemma rows_of_app (l1 l2 : list str) : rows_of (l1 ++ l2) = rows_of l1 ++ rows_of l2.
Proof. unfold rows_of. rewrite filter_app, map_app, filter_app. reflexivity. Qed.

Lemma lines_rows (lines : list str) :
  forall st, state_fine st ->
             state_rows (fold_left line_step lines st)
             = state_rows st ++ rows_of lines.
Proof.
  induction lines as [|line lines IH]; intros st Hst.
  - cbn. rewrite app_nil_r. reflexivity.
  - cbn [fold_left]. rewrite IH by (apply line_step_fine; exact Hst).
    rewrite line_step_rows by exact Hst.
    rewrite <- app_assoc, <- rows_of_app. reflexivity.
Qed.

(** X23.  No row is lost, invented or moved: the rows of the detected tables,
    read in order, are the non-empty cell lists of the lines that hold a
    tab or a gap of three whitespace characters.  A text without such a
    line has no table. *)
Theorem X23_detected_rows (text : str) :
  List.concat (map rows (detect_table_structure text))
  = rows_of (split [LF] text)
  /\ (forallb (fun line => negb (looks_like_row line)) (split [LF] text) = true
      -> detect_table_structure text = []).
Proof.
  assert (Hrows : List.concat (map rows (detect_table_structure text))
                  = rows_of (split [LF] text)).
  { unfold detect_table_structure.
    pose proof (lines_rows (split [LF] text) ([], [], false)) as H.
    pose proof (lines_fine (split [LF] text) ([], [], false)) as Hf.
    destruct (fold_left _ _ _) as [[tables current_table] in_table].
    cbn [state_rows map List.concat app] in H. rewrite <- H.
    2:{ split; [constructor|]. split; [constructor | reflexivity]. }
    destruct Hf as (_ & _ & Hout).
    { split; [constructor|]. split; [constructor | reflexivity]. }
    destruct (in_table && truthy current_table) eqn:Hflush.
    - rewrite map_app, concat_app. cbn [map List.concat rows new_table].
      rewrite app_nil_r. reflexivity.
    - destruct in_table.
      + cbn [andb] in Hflush. destruct current_table; [|discriminate].
        rewrite app_nil_r. reflexivity.
      + rewrite Hout by reflexivity. rewrite app_nil_r. reflexivity. }
  split; [exact Hrows|].
  intros Hnone.
  assert (Hno : rows_of (split [LF] text) = []).
  { unfold rows_of. generalize dependent (split [LF] text).
    intros lines _. induction lines as [|line lines IH]; [reflexivity|].
    cbn [forallb filter]. intros H. apply andb_true_iff in H.
    destruct H as [Hl H]. apply negb_true_iff in Hl. rewrite Hl. apply IH, H. }
  rewrite Hno in Hrows.
  pose proof (tables_fine text) as Hwf.
  destruct (detect_table_structure text) as [|tb tbs]; [reflexivity|].
  exfalso. inversion Hwf as [|? ? (Hne & _) _]; subst.
  cbn [map List.concat] in Hrows. apply app_eq_nil in Hrows.
  destruct Hrows as [Hr _]. exact (Hne Hr).
Qed.

Example detect_statement_text :
  detect_table_structure statement_text
  = [ {| rows := [[lit "Item"; lit "2023"; lit "2022"]; [lit "Revenue"; lit "1000"]];
         row_count := 2; column_count := 3 |};
      {| rows := [[lit "Assets"; lit "2000"];
                  [lit "Equity"; lit "1200"; lit "ok"]];
         row_count := 2; column_count := 3 |} ].
Proof. vm_compute. reflexivity. Qed.

(** ** Amounts written with digits *)

Lemma drop_underscores_digits (t : str) :
  forallb is_digit t = true ->
  forall prev,
    match prev with Some p => is_underscore p = false | None => True end ->
    drop_underscores prev t = Some t.
Proof.
  induction t as [|c t IH]; intros Ht prev Hprev; cbn [drop_underscores].
  - destruct prev as [p|]; [rewrite Hprev|]; reflexivity.
  - cbn [forallb] in Ht. apply andb_true_iff in Ht. destruct Ht as [Hc Ht].
    assert (Hu : is_underscore c = false).
    { destruct (is_underscore c) eqn:E; [|reflexivity].
      apply ascii_eqb_eq in E. subst c. discriminate Hc. }
    rewrite Hu, Hc. cbn [negb].
    destruct prev as [p|]; rewrite ?andb_false_r; rewrite (IH Ht (Some c) Hu);
      reflexivity.
Qed.

Lemma digit_not_float_space (c : ascii) :
  is_digit c = true -> is_float_space c = false.
Proof.
  intros H. apply digit_code in H. unfold is_float_space. cbv zeta.
  repeat match goal with
         | |- context [(?a <=? ?b)%N] => destruct (N.leb_spec a b)
         | |- context [(?a =? ?b)%N] => destruct (N.eqb_spec a b)
         end; try reflexivity; lia.
Qed.

Lemma lstrip_float_digits (t : str) :
  forallb is_digit t = true -> lstrip_float t = t.
Proof.
  intros H. apply drop_while_none. destruct t as [|c t]; [exact I|].
  cbn [forallb] in H. apply andb_true_iff in H.
  apply digit_not_float_space. tauto.
Qed.

Lemma forallb_rev_digits (t : str) :
  forallb is_digit t = true -> forallb is_digit (rev t) = true.
Proof.
  intros H. apply forallb_forall. intros c Hc. apply in_rev in Hc.
  rewrite forallb_forall in H. apply H. exact Hc.
Qed.

Lemma take_while_forallb (p : ascii -> bool) (t : str) :
  forallb p t = true -> take_while p t = t.
Proof.
  induction t as [|c t IH]; [reflexivity|].
  cbn [forallb take_while]. intros H. apply andb_true_iff in H.
  destruct H as [-> H]. rewrite IH by exact H. reflexivity.
Qed.

Lemma int_of_digits_nonneg (ds : str) :
  forallb is_digit ds = true -> 0 <= int_of_digits ds.
Proof.
  unfold int_of_digits.
  assert (H : forall acc, 0 <= acc -> forallb is_digit ds = true ->
                          0 <= fold_left (fun a c => a * 10 + digit_val c) ds acc).
  { induction ds as [|c ds IH]; intros acc Hacc Hd; [exact Hacc|].
    cbn [fold_left forallb] in *. apply andb_true_iff in Hd.
    destruct Hd as [Hc Hd]. apply IH; [|exact Hd].
    apply digit_code in Hc. unfold digit_val. lia. }
  apply H. lia.
Qed.

(** [float] of a run of digits is the float nearest to the number they
    spell. *)
Lemma py_float_digits (ds : str) :
  ds <> [] -> forallb is_digit ds = true ->
  py_float ds = Some (decimal_to_float false (int_of_digits ds) 0).
Proof.
  intros Hne Hd. unfold py_float.
  rewrite (drop_underscores_digits ds Hd None I).
  rewrite (lstrip_float_digits ds Hd).
  rewrite (lstrip_float_digits (rev ds)) by (apply forallb_rev_digits; exact Hd).
  rewrite rev_involutive.
  assert (Hsign : read_sign ds = (false, ds)).
  { destruct ds as [|c t]; [congruence|]. cbn [read_sign].
    cbn [forallb] in Hd. apply andb_true_iff in Hd. destruct Hd as [Hc _].
    destruct (ascii_eqb c (chr 45)) eqn:E1.
    { apply ascii_eqb_eq in E1. subst c. discriminate Hc. }
    destruct (ascii_eqb c (chr 43)) eqn:E2.
    { apply ascii_eqb_eq in E2. subst c. discriminate Hc. }
    reflexivity. }
  rewrite Hsign. unfold read_decimal.
  rewrite (take_while_forallb is_digit ds Hd), (drop_while_all is_digit ds Hd).
  rewrite app_nil_r. destruct ds as [|c t]; [congruence|].
  cbn [read_exponent List.length Z.of_nat]. reflexivity.
Qed.

Lemma coerce_digits (ds : str) :
  ds <> [] -> forallb is_digit ds = true -> int_of_digits ds < 2 ^ 53 ->
  match py_float ds with
  | Some f => int_of_float f = Ok (int_of_digits ds)
  | None => False
  end.
Proof.
  intros Hne Hd Hsmall. rewrite (py_float_digits ds Hne Hd).
  pose proof (int_of_digits_nonneg ds Hd) as Hpos.
  unfold decimal_to_float. destruct (int_of_digits ds) as [|m|m]; [reflexivity| |lia].
  change (10 ^ 0) with 1. rewrite Z.mul_1_r.
  apply int_of_float_small. exact Hsmall.
Qed.

Lemma filter_amount (s : str) :
  forallb amount_char s = true ->
  filter (fun c => negb (is_money_punct c)) s = digits_in s
  /\ contains_char (chr 40) s = false.
Proof.
  unfold digits_in, contains_char.
  induction s as [|c s IH]; [split; reflexivity|].
  cbn [forallb filter existsb]. intros H. apply andb_true_iff in H.
  destruct H as [Hc Hs]. destruct (IH Hs) as [IH1 IH2]. rewrite IH1, IH2.
  unfold amount_char in Hc. rewrite punct_cases.
  destruct (is_digit c) eqn:Hd.
  - rewrite (digit_not_dollar c Hd), (digit_not_comma c Hd).
    assert (Ho : is_open c = false).
    { destruct (is_open c) eqn:E; [|reflexivity].
      apply ascii_eqb_eq in E. subst c. discriminate Hd. }
    assert (Hcl : is_close c = false).
    { destruct (is_close c) eqn:E; [|reflexivity].
      apply ascii_eqb_eq in E. subst c. discriminate Hd. }
    rewrite Ho, Hcl. cbn [orb negb]. split; [reflexivity|].
    unfold is_open in Ho. unfold ascii_eqb in *.
    rewrite Ascii.eqb_sym, Ho. reflexivity.
  - cbn [orb] in Hc. split.
    + destruct (is_dollar c); [reflexivity|]. cbn [orb] in Hc. rewrite Hc.
      reflexivity.
    + destruct (ascii_eqb (chr 40) c) eqn:E; [|reflexivity].
      apply ascii_eqb_eq in E. subst c. discriminate Hc.
Qed.

(** X24.  A monetary text made of digits, dollar signs and commas coerces to
    the integer that its digits spell, as long as that integer is below
    [2^53]: in that range the detour through [float] loses nothing. *)
Theorem X24_coerce_monetary_amount (value : str)
  (Hchars : forallb amount_char value = true)
  (Hdigit : digits_in value <> [])
  (Hsize : int_of_digits (digits_in value) < 2 ^ 53) :
  coerce_monetary value = Ok (VInt (int_of_digits (digits_in value))).
Proof.
  destruct (filter_amount value Hchars) as [Hf Hopen].
  unfold coerce_monetary. rewrite re_money_filter, Hf, Hopen. cbn [andb].
  assert (Hd : forallb is_digit (digits_in value) = true).
  { unfold digits_in. apply forallb_forall. intros c Hc.
    apply filter_In in Hc. tauto. }
  pose proof (coerce_digits (digits_in value) Hdigit Hd Hsize) as H.
  destruct (py_float (digits_in value)) as [f|]; [|destruct H].
  rewrite H. reflexivity.
Qed.

Lemma X24_coerce_monetary_amount_witness :
  coerce_monetary (lit "$1,234,567") = Ok (VInt 1234567).
Proof.
  apply (X24_coerce_monetary_amount (lit "$1,234,567")).
  - reflexivity.
  - discriminate.
  - vm_compute. reflexivity.
Defined.
